(** * Kaliber: query options, SQL clause composer and packed-column decoder

    A shallow embedding of the core of the Kaliber catalogue browser:
    - [queryoptions.go]: the [TQueryOptions] record, its pagination
      operations, its request reconciliation ([Update]) and its string
      serialisation ([String] / [Scan]);
    - [db/queries.go]: [escapeQuery], [having], [limit], [orderBy], the
      packed-column decoders ([prepAuthors] and its siblings) and the two
      query drivers [QueryBy] and [QuerySearch].

    Go strings are byte strings and are modelled by [string] (a list of
    8-bit [ascii]); Go's [int] and [uint] are 64 bits wide and are modelled
    by [Z] with the wrap-around written out; [uint8] is a [Z] below 256.
    The functions of Go's standard library that the program calls
    ([strconv], [strings], [unicode/utf8], [fmt], [sort]) are modelled in
    modules named after their packages. *)

From Stdlib Require Import ZArith Lia List Ascii String Bool.
From Stdlib Require Import Sorting.Sorted Sorting.Permutation.
From stdpp Require Import gmap strings list.

Local Open Scope Z_scope.

(** ** Bytes and machine integers *)

(** The numeric value of a byte. *)
Definition byte (c : ascii) : Z := Z.of_N (N_of_ascii c).

(** The byte of a numeric value (taken modulo 256, as Go's [byte(x)]). *)
Definition chr (z : Z) : ascii := ascii_of_N (Z.to_N (z mod 256)).

Definition uint64_mod : Z := 2 ^ 64.
Definition maxUint64 : Z := 2 ^ 64 - 1.
Definition maxInt64 : Z := 2 ^ 63 - 1.
Definition minInt64 : Z := - 2 ^ 63.

(** Conversion to [uint] / [uint64]: reduction modulo 2^64. *)
Definition to_uint (z : Z) : Z := z mod uint64_mod.

(** Conversion to [int] / [int64]: the two's complement reading. *)
Definition to_int (z : Z) : Z := (z + 2 ^ 63) mod uint64_mod - 2 ^ 63.

Definition is_uint8 (z : Z) : Prop := 0 <= z < 256.
Definition is_uint (z : Z) : Prop := 0 <= z < uint64_mod.
Definition is_int (z : Z) : Prop := minInt64 <= z <= maxInt64.

(** Frequently used bytes. *)
Definition ch_nl : ascii := "010"%char.
Definition ch_cr : ascii := "013"%char.
Definition ch_dquote : ascii := "034"%char.
Definition ch_backslash : ascii := "092"%char.
Definition ch_ctrlZ : ascii := "026"%char.
Definition ch_bar : ascii := "|"%char.

(** A one-byte string. *)
Definition str1 (c : ascii) : string := String c EmptyString.

(** ** Package [unicode/utf8] *)

Module utf8.

Definition RuneError : Z := 65533.
Definition RuneSelf : Z := 128.
Definition MaxRune : Z := 1114111.
Definition surrogateMin : Z := 55296.
Definition surrogateMax : Z := 57343.

(** [ValidRune(r)]: [r] can be encoded. *)
Definition ValidRune (r : Z) : bool :=
  ((0 <=? r) && (r <? surrogateMin)) || ((surrogateMax <? r) && (r <=? MaxRune)).

(** The table [first] for a leading byte of 128 or more: the length of
    the sequence and the range the second byte must lie in; [None] for the
    bytes that start no sequence. *)
Definition first (b0 : Z) : option (nat * Z * Z) :=
  if b0 <? 194 then None
  else if b0 <=? 223 then Some (2%nat, 128, 191)
  else if b0 =? 224 then Some (3%nat, 160, 191)
  else if b0 <=? 236 then Some (3%nat, 128, 191)
  else if b0 =? 237 then Some (3%nat, 128, 159)
  else if b0 <=? 239 then Some (3%nat, 128, 191)
  else if b0 =? 240 then Some (4%nat, 144, 191)
  else if b0 <=? 243 then Some (4%nat, 128, 191)
  else if b0 =? 244 then Some (4%nat, 128, 143)
  else None.

(** A continuation byte. *)
Definition isCont (b : Z) : bool := (128 <=? b) && (b <=? 191).

(** [DecodeRuneInString(s)]: the first rune of [s] and its width in
    bytes; [(RuneError, 1)] for a byte that starts no well-formed sequence.
    The masks and shifts of the source are written as remainders and
    products. *)
Definition DecodeRune (s : string) : Z * nat :=
  match s with
  | EmptyString => (RuneError, 0%nat)
  | String c0 s1 =>
      let b0 := byte c0 in
      if b0 <? RuneSelf then (b0, 1%nat)
      else
        match first b0 with
        | None => (RuneError, 1%nat)
        | Some (sz, lo, hi) =>
            match s1 with
            | EmptyString => (RuneError, 1%nat)
            | String c1 s2 =>
                let b1 := byte c1 in
                if (String.length s <? sz)%nat then (RuneError, 1%nat)
                else if (b1 <? lo) || (hi <? b1) then (RuneError, 1%nat)
                else if (sz <=? 2)%nat then ((b0 mod 32) * 64 + b1 mod 64, 2%nat)
                else
                  match s2 with
                  | EmptyString => (RuneError, 1%nat)
                  | String c2 s3 =>
                      let b2 := byte c2 in
                      if negb (isCont b2) then (RuneError, 1%nat)
                      else if (sz <=? 3)%nat then
                        ((b0 mod 16) * 4096 + (b1 mod 64) * 64 + b2 mod 64, 3%nat)
                      else
                        match s3 with
                        | EmptyString => (RuneError, 1%nat)
                        | String c3 _ =>
                            let b3 := byte c3 in
                            if negb (isCont b3) then (RuneError, 1%nat)
                            else ((b0 mod 8) * 262144 + (b1 mod 64) * 4096
                                  + (b2 mod 64) * 64 + b3 mod 64, 4%nat)
                        end
                  end
            end
        end
  end.

(** [AppendRune]: the encoding of a rune; a rune that cannot be encoded
    is replaced by [RuneError]. *)
Definition EncodeRune (r : Z) : string :=
  if (0 <=? r) && (r <? RuneSelf) then str1 (chr r)
  else if (0 <=? r) && (r <=? 2047) then
    String (chr (192 + r / 64)) (str1 (chr (128 + r mod 64)))
  else if negb (ValidRune r) then
    String (chr 239) (String (chr 191) (str1 (chr 189)))
  else if r <=? 65535 then
    String (chr (224 + r / 4096))
      (String (chr (128 + (r / 64) mod 64)) (str1 (chr (128 + r mod 64))))
  else
    String (chr (240 + r / 262144))
      (String (chr (128 + (r / 4096) mod 64))
         (String (chr (128 + (r / 64) mod 64)) (str1 (chr (128 + r mod 64))))).

(** The first [n] bytes of a string, and the string without them. *)
Fixpoint takeBytes (n : nat) (s : string) : string :=
  match n, s with
  | S k, String c s' => String c (takeBytes k s')
  | _, _ => EmptyString
  end.

Fixpoint dropBytes (n : nat) (s : string) : string :=
  match n, s with
  | S k, String _ s' => dropBytes k s'
  | _, _ => s
  end.

(** A string cut into its runes, each with the bytes it was decoded from:
    the loop [for len(s) > 0 { r, width := DecodeRuneInString(s); ...;
    s = s[width:] }]. Every round removes at least one byte, so [fuel :=
    len(s)] rounds are enough. *)
Fixpoint segmentsLoop (fuel : nat) (s : string) : list (Z * string) :=
  match fuel with
  | O => []
  | S k =>
      match s with
      | EmptyString => []
      | _ =>
          let '(r, width) := DecodeRune s in
          (r, takeBytes width s) :: segmentsLoop k (dropBytes width s)
      end
  end.

Definition segments (s : string) : list (Z * string) :=
  segmentsLoop (String.length s) s.

(** The runes of a string, as a reader of runes sees them. *)
Definition runes (s : string) : list Z := map fst (segments s).

(** [ValidString(s)]: no byte of [s] decodes to the error rune of width 1. *)
Definition ValidString (s : string) : bool :=
  forallb (fun seg => negb ((fst seg =? RuneError) && (String.length (snd seg) =? 1)%nat))
    (segments s).

(** [RuneStart(b)]: [b] is no continuation byte. *)
Definition RuneStart (b : Z) : bool := negb (isCont b).

(** The byte [s[i]]. *)
Definition byteAt (s : string) (i : Z) : Z :=
  match String.get (Z.to_nat i) s with
  | Some c => byte c
  | None => 0
  end.

(** The loop [for ; start >= lim; start-- { if RuneStart(s[start]) { break } }]
    of [DecodeLastRuneInString]; it makes at most three rounds. *)
Fixpoint lastStart (s : string) (lim : Z) (rounds : nat) (start : Z) : Z :=
  match rounds with
  | O => start
  | S k =>
      if start <? lim then start
      else if RuneStart (byteAt s start) then start
      else lastStart s lim k (start - 1)
  end.

(** [DecodeLastRuneInString(s)]: the last rune of [s] and its width. *)
Definition DecodeLastRune (s : string) : Z * nat :=
  let end_ := Z.of_nat (String.length s) in
  if end_ =? 0 then (RuneError, 0%nat)
  else
    let r := byteAt s (end_ - 1) in
    if r <? RuneSelf then (r, 1%nat)
    else
      let lim := Z.max 0 (end_ - 4) in
      let start := Z.max 0 (lastStart s lim 4 (end_ - 2)) in
      let '(r, size) := DecodeRune (dropBytes (Z.to_nat start) s) in
      if start + Z.of_nat size =? end_ then (r, size) else (RuneError, 1%nat).

End utf8.

(** ** Package [strconv]: integer parsing and printing *)

Module strconv.

Inductive NumError : Type := ErrSyntax | ErrRange.

Definition isDigit (c : ascii) : bool := (48 <=? byte c) && (byte c <=? 57).

(** [cutoff] of [ParseUint] for base 10: the smallest number such that
    [cutoff * 10 > maxUint64]. *)
Definition cutoff10 : Z := maxUint64 / 10 + 1.

(** The digit loop of [ParseUint] for base 10. A byte that is no decimal
    digit is a syntax error (underscores are accepted for base 0 only); an
    overflow returns [maxVal] at once, without looking at the rest. *)
Fixpoint parseUintLoop (maxVal : Z) (s : string) (n : Z) : Z * option NumError :=
  match s with
  | EmptyString => (n, None)
  | String c s' =>
      if isDigit c then
        if cutoff10 <=? n then (maxVal, Some ErrRange)
        else
          let n10 := n * 10 in
          let n1 := to_uint (n10 + (byte c - 48)) in
          if (n1 <? n10) || (maxVal <? n1) then (maxVal, Some ErrRange)
          else parseUintLoop maxVal s' n1
      else (0, Some ErrSyntax)
  end.

(** [ParseUint(s, 10, bitSize)]; a [bitSize] of 0 means 64. *)
Definition ParseUint (s : string) (bitSize : Z) : Z * option NumError :=
  match s with
  | EmptyString => (0, Some ErrSyntax)
  | _ =>
      let bits := if bitSize =? 0 then 64 else bitSize in
      parseUintLoop (2 ^ bits - 1) s 0
  end.

(** [ParseInt(s, 10, bitSize)]. *)
Definition ParseInt (s : string) (bitSize : Z) : Z * option NumError :=
  match s with
  | EmptyString => (0, Some ErrSyntax)
  | String c0 s1 =>
      let neg := Ascii.eqb c0 "-" in
      let body := if Ascii.eqb c0 "+" || neg then s1 else s in
      match ParseUint body bitSize with
      | (_, Some ErrSyntax) => (0, Some ErrSyntax)
      | (un, _) =>
          let bits := if bitSize =? 0 then 64 else bitSize in
          let cutoff := 2 ^ (bits - 1) in
          if negb neg && (cutoff <=? un) then (cutoff - 1, Some ErrRange)
          else if neg && (cutoff <? un) then (- cutoff, Some ErrRange)
          else (if neg then - un else un, None)
      end
  end.

(** The fast path of [Atoi]: at most 18 bytes, so the value fits. *)
Fixpoint atoiFast (s : string) (n : Z) : option Z :=
  match s with
  | EmptyString => Some n
  | String c s' =>
      if isDigit c then atoiFast s' (n * 10 + (byte c - 48)) else None
  end.

(** [Atoi(s)]: the value and the error. The value is 0 on a syntax error
    and the nearest bound of [int] on a range error. *)
Definition Atoi (s : string) : Z * option NumError :=
  let sLen := Z.of_nat (String.length s) in
  if (0 <? sLen) && (sLen <? 19) then
    match s with
    | EmptyString => (0, Some ErrSyntax)
    | String c0 s1 =>
        let signed := Ascii.eqb c0 "-" || Ascii.eqb c0 "+" in
        let body := if signed then s1 else s in
        if signed && (String.length body =? 0)%nat then (0, Some ErrSyntax)
        else
          match atoiFast body 0 with
          | None => (0, Some ErrSyntax)
          | Some n => (if Ascii.eqb c0 "-" then - n else n, None)
          end
    end
  else ParseInt s 0.

(** Decimal digits of a non-negative number, most significant first,
    prepended to [acc]; [fuel] bounds the number of digits. *)
Fixpoint formatBits (fuel : nat) (u : Z) (acc : string) : string :=
  match fuel with
  | O => acc
  | S f =>
      let acc' := String (chr (48 + u mod 10)) acc in
      if u <? 10 then acc' else formatBits f (u / 10) acc'
  end.

(** [FormatUint(u, 10)] for a 64-bit [u]: at most 20 digits. *)
Definition FormatUint (u : Z) : string := formatBits 20 u EmptyString.

(** [FormatInt(i, 10)] for a 64-bit [i]. *)
Definition FormatInt (i : Z) : string :=
  if i <? 0 then String "-" (FormatUint (- i)) else FormatUint i.


(** *** Quoting *)

(** [IsPrint(r)]. Up to U+00FF the source decides by comparison; above,
    it searches the tables of the Unicode version of the Go release, which
    are the argument [isPrintTable]. *)
Definition IsPrint (isPrintTable : Z -> bool) (r : Z) : bool :=
  if r <=? 255 then
    if (32 <=? r) && (r <=? 126) then true
    else if (161 <=? r) && (r <=? 255) then negb (r =? 173)
    else false
  else isPrintTable r.

(** [lowerhex[d]] for a digit below 16. *)
Definition lowerhex (d : Z) : ascii :=
  if d <? 10 then chr (48 + d) else chr (87 + d).

(** The hexadecimal digits of [v], [n] of them, most significant first:
    [for s := 4*(n-1); s >= 0; s -= 4 { lowerhex[v>>s & 0xF] }]. *)
Fixpoint hexDigits (n : nat) (v : Z) : string :=
  match n with
  | O => EmptyString
  | S k => String (lowerhex ((v / 16 ^ Z.of_nat k) mod 16)) (hexDigits k v)
  end.

(** [appendEscapedRune] for the double quote and neither of the options
    [ASCIIonly] and [graphicOnly]. *)
Definition appendEscapedRune (isPrintTable : Z -> bool) (r : Z) : string :=
  if (r =? byte ch_dquote) || (r =? byte ch_backslash) then
    String ch_backslash (str1 (chr r))
  else if IsPrint isPrintTable r then utf8.EncodeRune r
  else if r =? 7 then "\a"
  else if r =? 8 then "\b"
  else if r =? 12 then "\f"
  else if r =? 10 then "\n"
  else if r =? 13 then "\r"
  else if r =? 9 then "\t"
  else if r =? 11 then "\v"
  else if (r <? 32) || (r =? 127) then "\x" +:+ hexDigits 2 (r mod 256)
  else if negb (utf8.ValidRune r) then "\u" +:+ hexDigits 4 utf8.RuneError
  else if r <? 65536 then "\u" +:+ hexDigits 4 r
  else "\U" +:+ hexDigits 8 r.

(** The text [appendQuotedWith] writes for one round of its loop: a byte
    that is no well-formed sequence is written in hexadecimal. *)
Definition quoteSegment (isPrintTable : Z -> bool) (seg : Z * string) : string :=
  let '(r, bytes) := seg in
  if (String.length bytes =? 1)%nat && (r =? utf8.RuneError) then
    "\x" +:+ hexDigits 2 (utf8.byteAt bytes 0)
  else appendEscapedRune isPrintTable r.

Definition quoteBody (isPrintTable : Z -> bool) (s : string) : string :=
  String.concat EmptyString (map (quoteSegment isPrintTable) (utf8.segments s)).

(** [Quote(s)]: a double-quoted Go string literal for [s]. *)
Definition Quote (isPrintTable : Z -> bool) (s : string) : string :=
  String ch_dquote (quoteBody isPrintTable s +:+ str1 ch_dquote).

(** *** Unquoting *)

(** [unhex(b)]. *)
Definition unhex (b : Z) : option Z :=
  if (48 <=? b) && (b <=? 57) then Some (b - 48)
  else if (97 <=? b) && (b <=? 102) then Some (b - 97 + 10)
  else if (65 <=? b) && (b <=? 70) then Some (b - 65 + 10)
  else None.

(** The loop [for j := 0; j < n; j++ { v = v<<4 | unhex(s[j]) }]: the
    value and the rest of the text. *)
Fixpoint unhexLoop (n : nat) (s : string) (v : Z) : option (Z * string) :=
  match n with
  | O => Some (v, s)
  | S k =>
      match s with
      | EmptyString => None
      | String c s' =>
          match unhex (byte c) with
          | Some x => unhexLoop k s' (v * 16 + x)
          | None => None
          end
      end
  end.

(** The two further octal digits of an octal escape. *)
Fixpoint unoctLoop (n : nat) (s : string) (v : Z) : option (Z * string) :=
  match n with
  | O => Some (v, s)
  | S k =>
      match s with
      | EmptyString => None
      | String c s' =>
          let x := byte c - 48 in
          if (x <? 0) || (7 <? x) then None else unoctLoop k s' (v * 8 + x)
      end
  end.

(** [UnquoteChar(s, quote)] for the double quote: the value, whether it is a rune to encode
    ([multibyte]), and the rest; [None] for a syntax error. *)
Definition UnquoteChar (s : string) : option (Z * bool * string) :=
  match s with
  | EmptyString => None
  | String c0 s1 =>
      if Ascii.eqb c0 ch_dquote then None
      else if utf8.RuneSelf <=? byte c0 then
        let '(r, size) := utf8.DecodeRune s in
        Some (r, true, utf8.dropBytes size s)
      else if negb (Ascii.eqb c0 ch_backslash) then Some (byte c0, false, s1)
      else
        match s1 with
        | EmptyString => None
        | String c s2 =>
            let b := byte c in
            if Ascii.eqb c "a" then Some (7, false, s2)
            else if Ascii.eqb c "b" then Some (8, false, s2)
            else if Ascii.eqb c "f" then Some (12, false, s2)
            else if Ascii.eqb c "n" then Some (10, false, s2)
            else if Ascii.eqb c "r" then Some (13, false, s2)
            else if Ascii.eqb c "t" then Some (9, false, s2)
            else if Ascii.eqb c "v" then Some (11, false, s2)
            else if Ascii.eqb c "x" then
              '(v, tail) ← unhexLoop 2 s2 0; Some (v, false, tail)
            else if Ascii.eqb c "u" || Ascii.eqb c "U" then
              '(v, tail) ← unhexLoop (if Ascii.eqb c "u" then 4 else 8) s2 0;
              if utf8.ValidRune v then Some (v, true, tail) else None
            else if (48 <=? b) && (b <=? 55) then
              '(v, tail) ← unoctLoop 2 s2 (b - 48);
              if 255 <? v then None else Some (v, false, tail)
            else if Ascii.eqb c ch_backslash then Some (byte ch_backslash, false, s2)
            else if Ascii.eqb c ch_dquote then Some (byte ch_dquote, false, s2)
            else None
        end
  end.

(** The loop of [Unquote] over the text between the quotes. Every round
    removes at least one byte, so [fuel := len(s)] rounds are enough. *)
Fixpoint unquoteLoop (fuel : nat) (s : string) : option string :=
  match s with
  | EmptyString => Some EmptyString
  | _ =>
      match fuel with
      | O => None
      | S k =>
          '(c, multibyte, ss) ← UnquoteChar s;
          rest ← unquoteLoop k ss;
          if (c <? utf8.RuneSelf) || negb multibyte then Some (String (chr c) rest)
          else Some (utf8.EncodeRune c +:+ rest)
      end
  end.

Definition containsByte (s : string) (c : ascii) : bool :=
  existsb (Ascii.eqb c) (list_ascii_of_string s).

(** The last byte of a string and the bytes before it. *)
Fixpoint splitLast (s : string) : option (string * ascii) :=
  match s with
  | EmptyString => None
  | String c EmptyString => Some (EmptyString, c)
  | String c s' =>
      match splitLast s' with
      | Some (init, l) => Some (String c init, l)
      | None => None
      end
  end.

(** [Unquote(s)] for a text that starts with a double quote, which is all
    that the scanner of package [fmt] hands over; [None] is [ErrSyntax]. *)
Definition Unquote (s : string) : option string :=
  match s with
  | String q rest =>
      if negb (Ascii.eqb q ch_dquote) then None
      else
        match splitLast rest with
        | None => None
        | Some (body, l) =>
            if negb (Ascii.eqb l ch_dquote) then None
            else if containsByte body ch_nl then None
            else if negb (containsByte body ch_backslash)
                    && negb (containsByte body ch_dquote)
                    && utf8.ValidString body then Some body
            else unquoteLoop (String.length body) body
        end
  | EmptyString => None
  end.

End strconv.

(** ** Package [strings]: splitting *)

Module gostrings.

(** The rest of [s] after the prefix [p], when [s] starts with [p]. *)
Fixpoint stripPrefix (p s : string) : option string :=
  match p with
  | EmptyString => Some s
  | String a p' =>
      match s with
      | EmptyString => None
      | String b s' => if Ascii.eqb a b then stripPrefix p' s' else None
      end
  end.

(** For [m := Index(s, sep)], the first occurrence of [sep] in [s]:
    the pair of [s[:m]] and [s[m+len(sep):]]; [None] when [m < 0]. *)
Fixpoint cut (sep s : string) : option (string * string) :=
  match stripPrefix sep s with
  | Some rest => Some (EmptyString, rest)
  | None =>
      match s with
      | EmptyString => None
      | String c s' =>
          match cut sep s' with
          | Some (a, b) => Some (String c a, b)
          | None => None
          end
      end
  end.

(** The loop of [Count(s, sep)] for a non-empty [sep]: the number of
    non-overlapping occurrences. Every round removes at least one byte,
    so [fuel := len(s)] rounds are enough. *)
Fixpoint countLoop (fuel : nat) (sep s : string) : nat :=
  match fuel with
  | O => O
  | S k =>
      match cut sep s with
      | Some (_, b) => S (countLoop k sep b)
      | None => O
      end
  end.

Definition Count (s sep : string) : nat := countLoop (String.length s) sep s.

(** The loop of [genSplit] for a non-empty [sep]: at most [cuts] cuts
    ([n - 1] in the source), then the rest in one piece. *)
Fixpoint genSplit (cuts : nat) (sep s : string) : list string :=
  match cuts with
  | O => [s]
  | S k =>
      match cut sep s with
      | Some (a, b) => a :: genSplit k sep b
      | None => [s]
      end
  end.

(** [SplitN(s, sep, n)] for [n > 0] and a non-empty [sep]. *)
Definition SplitN (s sep : string) (n : nat) : list string :=
  genSplit (Nat.min n (String.length s + 1) - 1) sep s.

(** [Split(s, sep)] for a non-empty [sep]: [n] is [Count(s, sep) + 1]. *)
Definition Split (s sep : string) : list string :=
  SplitN s sep (Count s sep + 1).


(** *** Trimming *)

(** The table [asciiSpace]. *)
Definition asciiSpace (b : Z) : bool :=
  (b =? 9) || (b =? 10) || (b =? 11) || (b =? 12) || (b =? 13) || (b =? 32).

(** [unicode.IsSpace(r)]. *)
Definition IsSpace (r : Z) : bool :=
  if r <=? 255 then
    ((9 <=? r) && (r <=? 13)) || (r =? 32) || (r =? 133) || (r =? 160)
  else
    (r =? 5760) || ((8192 <=? r) && (r <=? 8202)) || (r =? 8232) || (r =? 8233)
    || (r =? 8239) || (r =? 8287) || (r =? 12288).

(** [TrimLeftFunc(s, unicode.IsSpace)]: the runes are decoded from the
    left; [fuel := len(s)] rounds are enough. *)
Fixpoint trimLeftLoop (fuel : nat) (s : string) : string :=
  match fuel with
  | O => s
  | S k =>
      match s with
      | EmptyString => s
      | _ =>
          let '(r, width) := utf8.DecodeRune s in
          if IsSpace r then trimLeftLoop k (utf8.dropBytes width s) else s
      end
  end.

Definition TrimLeftSpace (s : string) : string := trimLeftLoop (String.length s) s.

(** [lastIndexFunc(s, unicode.IsSpace, false)]: the index of the last rune
    that is no space, looked for from the right end [i]; [None] is -1. *)
Fixpoint lastIndexLoop (fuel : nat) (s : string) (i : nat) : option nat :=
  match fuel with
  | O => None
  | S k =>
      if (i =? 0)%nat then None
      else
        let '(r, size) := utf8.DecodeLastRune (utf8.takeBytes i s) in
        let i' := (i - size)%nat in
        if negb (IsSpace r) then Some i' else lastIndexLoop k s i'
  end.

(** [TrimRightFunc(s, unicode.IsSpace)]. *)
Definition TrimRightSpace (s : string) : string :=
  match lastIndexLoop (String.length s) s (String.length s) with
  | None => EmptyString
  | Some i =>
      if utf8.RuneSelf <=? utf8.byteAt s (Z.of_nat i) then
        let '(_, wid) := utf8.DecodeRune (utf8.dropBytes i s) in
        utf8.takeBytes (i + wid) s
      else utf8.takeBytes (i + 1) s
  end.

(** The first loop of [TrimSpace]: the text from the first byte that is
    no ASCII space, and whether that byte is outside ASCII. *)
Fixpoint trimStart (s : string) : string * bool :=
  match s with
  | EmptyString => (s, false)
  | String c s' =>
      if utf8.RuneSelf <=? byte c then (s, true)
      else if asciiSpace (byte c) then trimStart s'
      else (s, false)
  end.

(** The second loop of [TrimSpace], on the reversed bytes. *)
Fixpoint trimStop (reversed : list ascii) : list ascii * bool :=
  match reversed with
  | [] => ([], false)
  | c :: r =>
      if utf8.RuneSelf <=? byte c then (reversed, true)
      else if asciiSpace (byte c) then trimStop r
      else (reversed, false)
  end.

(** [TrimSpace(s)]: [s] without leading and trailing white space. *)
Definition TrimSpace (s : string) : string :=
  let '(fromStart, nonASCII) := trimStart s in
  if nonASCII then TrimRightSpace (TrimLeftSpace fromStart)
  else
    let '(reversed, nonASCII') := trimStop (rev (list_ascii_of_string fromStart)) in
    let kept := string_of_list_ascii (rev reversed) in
    if nonASCII' then TrimRightSpace kept else kept.

(** *** Joining *)

(** [Join(elems, sep)]. *)
Fixpoint Join (elems : list string) (sep : string) : string :=
  match elems with
  | [] => EmptyString
  | [x] => x
  | x :: rest => x +:+ sep +:+ Join rest sep
  end.

End gostrings.


(** ** Package [sort] *)

Module sort.

(** One round of the outer loop of [insertionSort]: the element [x] moves
    to the left as long as [moves x y] holds for its left neighbour [y].
    The sorted prefix is kept in reverse, the neighbour first. *)
Fixpoint insertionStep {A : Type} (moves : A → A → bool) (x : A)
    (revPrefix : list A) : list A :=
  match revPrefix with
  | [] => [x]
  | y :: r => if moves x y then y :: insertionStep moves x r else x :: revPrefix
  end.

Definition insertionSortBy {A : Type} (moves : A → A → bool) (data : list A) : list A :=
  rev (fold_left (fun revPrefix x => insertionStep moves x revPrefix) data []).

(** [insertionSort] of package [sort], which is what [sort.Slice] runs on
    a slice of a few elements: [data[j]] moves left while
    [less(data[j], data[j-1])]. *)
Definition insertionSort {A : Type} (less : A → A → bool) (data : list A) : list A :=
  insertionSortBy less data.

(** *** [sort.Slice]

    [Slice] sorts with the pattern-defeating quicksort of [zsortfunc.go]
    (Go 1.19 and later). The slice is a list; [Less] and [Swap] are the
    two functions of [lessSwap], which read and exchange the elements at
    two indices. The functions below call them with indices inside the
    slice. Every loop has a bound on its rounds, given where it is
    called. *)

Section Pdqsort.

Context {A : Type} (less : A → A → bool).

Local Open Scope nat_scope.

Definition Less (data : list A) (i j : nat) : bool :=
  match data !! i, data !! j with
  | Some x, Some y => less x y
  | _, _ => false
  end.

Definition Swap (data : list A) (i j : nat) : list A :=
  match data !! i, data !! j with
  | Some x, Some y => <[j:=x]> (<[i:=y]> data)
  | _, _ => data
  end.

(** [insertionSort_func(data, a, b)] sorts [data[a:b]] by insertion. *)
Definition insertionSort_func (data : list A) (a b : nat) : list A :=
  take a data ++ insertionSort less (take (b - a) (drop a data)) ++ drop b data.

(** [siftDown_func(data, lo, hi, first)]; the root at least doubles in
    every round. *)
Fixpoint siftDown_func (rounds : nat) (data : list A) (root hi first : nat) : list A :=
  match rounds with
  | O => data
  | S k =>
      let child := 2 * root + 1 in
      if hi <=? child then data
      else
        let child :=
          if (child + 1 <? hi) && Less data (first + child) (first + child + 1)
          then child + 1 else child in
        if negb (Less data (first + root) (first + child)) then data
        else siftDown_func k (Swap data (first + root) (first + child)) child hi first
  end.

(** The two loops of [heapSort_func], for [i] from [n - 1] down to 0. *)
Fixpoint heapBuild (n : nat) (data : list A) (hi first : nat) : list A :=
  match n with
  | O => data
  | S i => heapBuild i (siftDown_func hi data i hi first) hi first
  end.

Fixpoint heapPop (n : nat) (data : list A) (first : nat) : list A :=
  match n with
  | O => data
  | S i => heapPop i (siftDown_func (S i) (Swap data first (first + i)) 0 i first) first
  end.

Definition heapSort_func (data : list A) (a b : nat) : list A :=
  let first := a in
  let hi := b - a in
  heapPop hi (heapBuild (S ((hi - 1) / 2)) data hi first) first.

(** [bits.Len(uint(n))]. *)
Definition bitsLen (n : nat) : nat := if n =? 0 then 0 else S (Nat.log2 n).

(** [xorshift.Next], on 64 bits. *)
Definition xorshiftNext (r : Z) : Z :=
  let r := Z.lxor r (Z.shiftl r 13 mod 2 ^ 64)%Z in
  let r := Z.lxor r (Z.shiftr r 17) in
  Z.lxor r (Z.shiftl r 5 mod 2 ^ 64)%Z.

Definition nextPowerOfTwo (length : nat) : Z := (2 ^ Z.of_nat (bitsLen length))%Z.

(** [breakPatterns_func(data, a, b)] scatters three elements. *)
Definition breakPatterns_func (data : list A) (a b : nat) : list A :=
  let length := b - a in
  if 8 <=? length then
    let modulus := nextPowerOfTwo length in
    let idx := a + (length / 4) * 2 - 1 in
    let round (st : list A * Z) (i : nat) : list A * Z :=
      let '(data, random) := st in
      let random := xorshiftNext random in
      let other := Z.to_nat (Z.land random (modulus - 1)) in
      let other := if length <=? other then other - length else other in
      (Swap data (idx - 1 + i) (a + other), random) in
    fst (fold_left round [0; 1; 2] (data, Z.of_nat length))
  else data.

Inductive sortedHint : Type := unknownHint | increasingHint | decreasingHint.

(** [order2_func], [median_func] and [medianAdjacent_func], with the
    counter [swaps] passed along. *)
Definition order2_func (data : list A) (a b swaps : nat) : nat * nat * nat :=
  if Less data b a then (b, a, S swaps) else (a, b, swaps).

Definition median_func (data : list A) (a b c swaps : nat) : nat * nat :=
  let '(a, b, swaps) := order2_func data a b swaps in
  let '(b, c, swaps) := order2_func data b c swaps in
  let '(a, b, swaps) := order2_func data a b swaps in
  (b, swaps).

Definition medianAdjacent_func (data : list A) (a swaps : nat) : nat * nat :=
  median_func data (a - 1) a (a + 1) swaps.

(** [choosePivot_func(data, a, b)]. *)
Definition choosePivot_func (data : list A) (a b : nat) : nat * sortedHint :=
  let l := b - a in
  let i := a + l / 4 * 1 in
  let j := a + l / 4 * 2 in
  let k := a + l / 4 * 3 in
  let '(j, swaps) :=
    if 8 <=? l then
      let '(i, j, k, swaps) :=
        if 50 <=? l then
          let '(i, swaps) := medianAdjacent_func data i 0 in
          let '(j, swaps) := medianAdjacent_func data j swaps in
          let '(k, swaps) := medianAdjacent_func data k swaps in
          (i, j, k, swaps)
        else (i, j, k, 0) in
      median_func data i j k swaps
    else (j, 0) in
  if swaps =? 0 then (j, increasingHint)
  else if swaps =? 12 then (j, decreasingHint)
  else (j, unknownHint).

(** [reverseRange_func(data, a, b)]. *)
Fixpoint reverseLoop (rounds : nat) (data : list A) (i j : nat) : list A :=
  match rounds with
  | O => data
  | S k => if i <? j then reverseLoop k (Swap data i j) (i + 1) (j - 1) else data
  end.

Definition reverseRange_func (data : list A) (a b : nat) : list A :=
  reverseLoop (b - a) data a (b - 1).

(** The loops of [partialInsertionSort_func]: the search of the next
    pair out of order, and the two shifts. *)
Fixpoint skipOrdered (rounds : nat) (data : list A) (i b : nat) : nat :=
  match rounds with
  | O => i
  | S k =>
      if (i <? b) && negb (Less data i (i - 1)) then skipOrdered k data (i + 1) b else i
  end.

Fixpoint shiftLeft (rounds : nat) (data : list A) (j : nat) : list A :=
  match rounds with
  | O => data
  | S k =>
      if 1 <=? j then
        if negb (Less data j (j - 1)) then data
        else shiftLeft k (Swap data j (j - 1)) (j - 1)
      else data
  end.

Fixpoint shiftRight (rounds : nat) (data : list A) (j b : nat) : list A :=
  match rounds with
  | O => data
  | S k =>
      if j <? b then
        if negb (Less data j (j - 1)) then data
        else shiftRight k (Swap data j (j - 1)) (j + 1) b
      else data
  end.

Fixpoint partialLoop (steps : nat) (data : list A) (a b i : nat) : list A * bool :=
  match steps with
  | O => (data, false)
  | S s =>
      let i := skipOrdered (b - a) data i b in
      if i =? b then (data, true)
      else if b - a <? 50 then (data, false)
      else
        let data := Swap data i (i - 1) in
        let data := if 2 <=? i - a then shiftLeft i data (i - 1) else data in
        let data := if 2 <=? b - i then shiftRight b data (i + 1) b else data in
        partialLoop s data a b i
  end.

(** [partialInsertionSort_func(data, a, b)]: at most five steps. *)
Definition partialInsertionSort_func (data : list A) (a b : nat) : list A * bool :=
  partialLoop 5 data a b (a + 1).

(** The loops [for i <= j && p(i) { i++ }] and [for i <= j && p(j) { j-- }]. *)
Fixpoint advance (rounds : nat) (p : nat → bool) (i j : nat) : nat :=
  match rounds with
  | O => i
  | S k => if (i <=? j) && p i then advance k p (i + 1) j else i
  end.

Fixpoint retreat (rounds : nat) (p : nat → bool) (i j : nat) : nat :=
  match rounds with
  | O => j
  | S k => if (i <=? j) && p j then retreat k p i (j - 1) else j
  end.

(** [partitionEqual_func(data, a, b, pivot)]. *)
Fixpoint partitionEqualLoop (rounds : nat) (data : list A) (a b i j : nat) : list A * nat :=
  match rounds with
  | O => (data, i)
  | S k =>
      let i := advance (b - a) (fun i => negb (Less data a i)) i j in
      let j := retreat (b - a) (fun j => Less data a j) i j in
      if j <? i then (data, i)
      else partitionEqualLoop k (Swap data i j) a b (i + 1) (j - 1)
  end.

Definition partitionEqual_func (data : list A) (a b pivot : nat) : list A * nat :=
  let data := Swap data a pivot in
  partitionEqualLoop (b - a) data a b (a + 1) (b - 1).

(** [partition_func(data, a, b, pivot)]. *)
Fixpoint partitionLoop (rounds : nat) (data : list A) (a b i j : nat) : list A * nat :=
  match rounds with
  | O => (data, j)
  | S k =>
      let i := advance (b - a) (fun i => Less data i a) i j in
      let j := retreat (b - a) (fun j => negb (Less data j a)) i j in
      if j <? i then (data, j)
      else partitionLoop k (Swap data i j) a b (i + 1) (j - 1)
  end.

Definition partition_func (data : list A) (a b pivot : nat) : list A * nat * bool :=
  let data := Swap data a pivot in
  let i := advance (b - a) (fun i => Less data i a) (a + 1) (b - 1) in
  let j := retreat (b - a) (fun j => negb (Less data j a)) i (b - 1) in
  if j <? i then (Swap data j a, j, true)
  else
    let data := Swap data i j in
    let '(data, j) := partitionLoop (b - a) data a b (i + 1) (j - 1) in
    (Swap data j a, j, false).

(** [pdqsort_func(data, a, b, limit)]. A round of the loop either
    returns or goes on with a shorter part of the slice, and the call of
    the function inside the loop is for a shorter part as well: [rounds]
    bounds both. The two flags of the loop are arguments; a call from
    outside starts with both set. *)
Fixpoint pdqsort_func (rounds : nat) (data : list A) (a b limit : nat)
    (wasBalanced wasPartitioned : bool) : list A :=
  match rounds with
  | O => data
  | S k =>
      let length := b - a in
      if length <=? 12 then insertionSort_func data a b
      else if limit =? 0 then heapSort_func data a b
      else
        let '(data, limit) :=
          if negb wasBalanced then (breakPatterns_func data a b, limit - 1)
          else (data, limit) in
        let '(pivot, hint) := choosePivot_func data a b in
        let '(data, pivot, hint) :=
          match hint with
          | decreasingHint =>
              (reverseRange_func data a b, (b - 1) - (pivot - a), increasingHint)
          | _ => (data, pivot, hint)
          end in
        let '(data, sorted) :=
          match hint with
          | increasingHint =>
              if wasBalanced && wasPartitioned then partialInsertionSort_func data a b
              else (data, false)
          | _ => (data, false)
          end in
        if sorted then data
        else if (0 <? a) && negb (Less data (a - 1) pivot) then
          let '(data, mid) := partitionEqual_func data a b pivot in
          pdqsort_func k data mid b limit wasBalanced wasPartitioned
        else
          let '(data, mid, alreadyPartitioned) := partition_func data a b pivot in
          let leftLen := mid - a in
          let rightLen := b - mid in
          let balanceThreshold := length / 8 in
          if leftLen <? rightLen then
            let data := pdqsort_func k data a mid limit true true in
            pdqsort_func k data (mid + 1) b limit (balanceThreshold <=? leftLen)
              alreadyPartitioned
          else
            let data := pdqsort_func k data (mid + 1) b limit true true in
            pdqsort_func k data a mid limit (balanceThreshold <=? rightLen)
              alreadyPartitioned
  end.

(** [Slice(x, less)]. *)
Definition Slice (data : list A) : list A :=
  let length := List.length data in
  pdqsort_func (S length) data 0 length (bitsLen length) true true.

End Pdqsort.

(** What the documentation of [sort.Slice] promises about the slice after
    the call: it holds the same elements, and no element is less than an
    element before it. Stability is not promised. *)
Definition ordered {A : Type} (less : A → A → bool) (l : list A) : Prop :=
  StronglySorted (fun x y => less y x = false) l.

(** The order of the reversed prefix of [insertionStep]. *)
Definition descending {A : Type} (less : A → A → bool) (l : list A) : Prop :=
  StronglySorted (fun x y => less x y = false) l.

Definition contract {A : Type} (less : A → A → bool)
    (sortSlice : (A → A → bool) → list A → list A) : Prop :=
  forall data : list A,
    Permutation (sortSlice less data) data /\ ordered less (sortSlice less data).

End sort.

(** ** Package [fmt]: printing and scanning *)

Module fmt.

(** *** Printing *)

(** An operand of [Sprintf], with the name of its type. *)
Inductive operand : Type :=
| OInt (ty : string) (i : Z)
| OUint (ty : string) (u : Z)
| OBool (b : bool)
| OString (s : string).

Definition typeName (o : operand) : string :=
  match o with
  | OInt ty _ => ty
  | OUint ty _ => ty
  | OBool _ => "bool"
  | OString _ => "string"
  end.

(** The operand under the verb [v]. *)
Definition printValue (o : operand) : string :=
  match o with
  | OInt _ i => strconv.FormatInt i
  | OUint _ u => strconv.FormatUint u
  | OBool b => if b then "true" else "false"
  | OString s => s
  end.

(** One verb applied to one operand, for the verbs of the program: [d]
    for the integers, [t] for the booleans, [q] for the strings, and [v].
    Any other pair is rendered as a verb the operand does not support. *)
Definition printVerb (isPrintTable : Z -> bool) (verb : ascii) (o : operand) : string :=
  match o with
  | OInt _ _ | OUint _ _ =>
      if Ascii.eqb verb "d" || Ascii.eqb verb "v" then printValue o
      else "%!" +:+ str1 verb +:+ "(" +:+ typeName o +:+ "=" +:+ printValue o +:+ ")"
  | OBool _ =>
      if Ascii.eqb verb "t" || Ascii.eqb verb "v" then printValue o
      else "%!" +:+ str1 verb +:+ "(" +:+ typeName o +:+ "=" +:+ printValue o +:+ ")"
  | OString s =>
      if Ascii.eqb verb "q" then strconv.Quote isPrintTable s
      else if Ascii.eqb verb "s" || Ascii.eqb verb "v" then s
      else "%!" +:+ str1 verb +:+ "(" +:+ typeName o +:+ "=" +:+ printValue o +:+ ")"
  end.

(** The operands that no verb has used. *)
Fixpoint extraOperands (a : list operand) : string :=
  match a with
  | [] => EmptyString
  | [o] => typeName o +:+ "=" +:+ printValue o
  | o :: a' => typeName o +:+ "=" +:+ printValue o +:+ ", " +:+ extraOperands a'
  end.

(** [doPrintf] for a format without flags, widths and precisions, as the
    pattern of the options is. *)
Fixpoint doPrintf (isPrintTable : Z -> bool) (format : string) (a : list operand) : string :=
  match format with
  | EmptyString =>
      match a with
      | [] => EmptyString
      | _ => "%!(EXTRA " +:+ extraOperands a +:+ ")"
      end
  | String c rest =>
      if Ascii.eqb c "%" then
        match rest with
        | EmptyString => "%!(NOVERB)" +:+ doPrintf isPrintTable rest a
        | String v rest' =>
            if Ascii.eqb v "%" then String "%" (doPrintf isPrintTable rest' a)
            else
              match a with
              | [] => "%!" +:+ str1 v +:+ "(MISSING)" +:+ doPrintf isPrintTable rest' a
              | o :: a' => printVerb isPrintTable v o +:+ doPrintf isPrintTable rest' a'
              end
        end
      else String c (doPrintf isPrintTable rest a)
  end.

Definition Sprintf (isPrintTable : Z -> bool) (format : string) (a : list operand) : string :=
  doPrintf isPrintTable format a.

(** *** Scanning *)

(** The scanner reads its input rune by rune; the input is the list of
    its runes. A scanning function returns its result and the runes left,
    or [None] for the error that ends the scan. *)

(** The table [space] of the scanner. *)
Definition isSpace (r : Z) : bool :=
  ((9 <=? r) && (r <=? 13)) || (r =? 32) || (r =? 133) || (r =? 160)
  || (r =? 5760) || ((8192 <=? r) && (r <=? 8202)) || ((8232 <=? r) && (r <=? 8233))
  || (r =? 8239) || (r =? 8287) || (r =? 12288).

(** [SkipSpace] of [Sscanf], for which a newline is no space. *)
Fixpoint SkipSpace (input : list Z) : option (list Z) :=
  match input with
  | [] => Some []
  | r :: rest =>
      if (r =? 13) && (match rest with 10 :: _ => true | _ => false end) then
        SkipSpace rest
      else if r =? 10 then None
      else if isSpace r then SkipSpace rest
      else Some input
  end.

(** [notEOF]. *)
Definition notEOF (input : list Z) : option (list Z) :=
  match input with
  | [] => None
  | _ => Some input
  end.

(** The runes of the set [0123456789_], which [scanNumber] accepts for
    the verb [d]. *)
Definition isDecimalDigit (r : Z) : bool :=
  ((48 <=? r) && (r <=? 57)) || (r =? 95).

(** [for s.accept(digits) {}]: the accepted runes and the rest. *)
Fixpoint acceptDigits (input : list Z) : string * list Z :=
  match input with
  | r :: rest =>
      if isDecimalDigit r then
        let '(tok, rest') := acceptDigits rest in (String (chr r) tok, rest')
      else (EmptyString, input)
  | [] => (EmptyString, [])
  end.

(** [scanNumber]: at least one digit. *)
Definition scanNumber (input : list Z) : option (string * list Z) :=
  match input with
  | [] => None
  | r :: _ => if isDecimalDigit r then Some (acceptDigits input) else None
  end.

(** [scanInt] for the verb [d] and an integer of [bitSize] bits. *)
Definition scanInt (bitSize : Z) (input : list Z) : option (Z * list Z) :=
  input ← SkipSpace input;
  input ← notEOF input;
  let '(sign, input) :=
    match input with
    | r :: rest =>
        if (r =? 43) || (r =? 45) then (str1 (chr r), rest) else (EmptyString, input)
    | [] => (EmptyString, input)
    end in
  '(digits, input) ← scanNumber input;
  match strconv.ParseInt (sign +:+ digits) 64 with
  | (i, None) =>
      let x := (i + 2 ^ (bitSize - 1)) mod 2 ^ bitSize - 2 ^ (bitSize - 1) in
      if x =? i then Some (i, input) else None
  | (_, Some _) => None
  end.

(** [scanUint] for the verb [d] and an unsigned integer of [bitSize] bits. *)
Definition scanUint (bitSize : Z) (input : list Z) : option (Z * list Z) :=
  input ← SkipSpace input;
  input ← notEOF input;
  '(tok, input) ← scanNumber input;
  match strconv.ParseUint tok 64 with
  | (i, None) => if i mod 2 ^ bitSize =? i then Some (i, input) else None
  | (_, Some _) => None
  end.

(** [accept(ok)] for a set [ok] of two runes. *)
Definition accept (r1 r2 : Z) (input : list Z) : bool * list Z :=
  match input with
  | r :: rest => if (r =? r1) || (r =? r2) then (true, rest) else (false, input)
  | [] => (false, input)
  end.

(** [scanBool] for the verb [t]. *)
Definition scanBool (input : list Z) : option (bool * list Z) :=
  input ← SkipSpace input;
  input ← notEOF input;
  match input with
  | [] => None
  | r :: input =>
      if r =? 48 then Some (false, input)
      else if r =? 49 then Some (true, input)
      else if (r =? 116) || (r =? 84) then
        let '(okR, input) := accept 114 82 input in
        if okR then
          let '(okU, input) := accept 117 85 input in
          if okU then
            let '(okE, input) := accept 101 69 input in
            if okE then Some (true, input) else None
          else None
        else Some (true, input)
      else if (r =? 102) || (r =? 70) then
        let '(okA, input) := accept 97 65 input in
        if okA then
          let '(okL, input) := accept 108 76 input in
          if okL then
            let '(okS, input) := accept 115 83 input in
            if okS then
              let '(okE, input) := accept 101 69 input in
              if okE then Some (false, input) else None
            else None
          else None
        else Some (false, input)
      else Some (false, input)
  end.

(** The loop of [quotedString] after the opening double quote: every rune
    is written to the buffer, the rune after a backslash without a look at
    it, up to the closing quote. *)
Fixpoint quotedLoop (input : list Z) : option (string * list Z) :=
  match input with
  | [] => None
  | r :: rest =>
      if r =? byte ch_backslash then
        match rest with
        | [] => None
        | r2 :: rest2 =>
            '(buf, more) ← quotedLoop rest2;
            Some (utf8.EncodeRune r +:+ utf8.EncodeRune r2 +:+ buf, more)
        end
      else if r =? byte ch_dquote then Some (utf8.EncodeRune r, rest)
      else
        '(buf, more) ← quotedLoop rest;
        Some (utf8.EncodeRune r +:+ buf, more)
  end.

(** The loop of [quotedString] after an opening back quote. *)
Fixpoint rawLoop (input : list Z) : option (string * list Z) :=
  match input with
  | [] => None
  | r :: rest =>
      if r =? 96 then Some (EmptyString, rest)
      else '(buf, more) ← rawLoop rest; Some (utf8.EncodeRune r +:+ buf, more)
  end.

(** [quotedString]. *)
Definition quotedString (input : list Z) : option (string * list Z) :=
  match input with
  | [] => None
  | quote :: rest =>
      if quote =? 96 then rawLoop rest
      else if quote =? byte ch_dquote then
        '(buf, more) ← quotedLoop rest;
        result ← strconv.Unquote (String ch_dquote buf);
        Some (result, more)
      else None
  end.

(** [convertString] for the verb [q]. *)
Definition convertString (input : list Z) : option (string * list Z) :=
  input ← SkipSpace input;
  input ← notEOF input;
  quotedString input.

(** The place a value is scanned into. *)
Inductive dest : Type :=
| DInt (bitSize : Z)
| DUint (bitSize : Z)
| DBool
| DString.

Inductive value : Type :=
| VInt (i : Z)
| VBool (b : bool)
| VString (s : string).

(** [scanOne] for the verbs of the program; a verb that does not fit its
    operand is an error. *)
Definition scanOne (verb : ascii) (d : dest) (input : list Z) : option (value * list Z) :=
  match d with
  | DInt bitSize =>
      if Ascii.eqb verb "d" then '(i, more) ← scanInt bitSize input; Some (VInt i, more)
      else None
  | DUint bitSize =>
      if Ascii.eqb verb "d" then '(i, more) ← scanUint bitSize input; Some (VInt i, more)
      else None
  | DBool =>
      if Ascii.eqb verb "t" then '(b, more) ← scanBool input; Some (VBool b, more)
      else None
  | DString =>
      if Ascii.eqb verb "q" then '(s, more) ← convertString input; Some (VString s, more)
      else None
  end.

(** [doScanf] for a format without white space and without widths, as the
    pattern of the options is: a literal byte of the format must be the
    next rune of the input, and a verb scans one operand after skipping
    spaces. The result is the list of the values stored before the end of
    the format or the first error. *)
Fixpoint doScanf (format : string) (a : list dest) (input : list Z) : list value :=
  match format with
  | EmptyString => []
  | String c rest =>
      if Ascii.eqb c "%" then
        match rest with
        | EmptyString => []
        | String verb rest' =>
            match a with
            | [] => []
            | d :: a' =>
                match input ← SkipSpace input; scanOne verb d input with
                | Some (val, more) => val :: doScanf rest' a' more
                | None => []
                end
            end
        end
      else
        match input with
        | r :: more => if r =? byte c then doScanf rest a more else []
        | [] => []
        end
  end.

Definition Sscanf (str format : string) (a : list dest) : list value :=
  doScanf format a (utf8.runes str).

End fmt.

(** ** The query options ([queryoptions.go]) *)

(** Constants defining the ORDER BY clause. *)
Definition qoSortUnsorted : Z := 0.
Definition qoSortByAcquisition : Z := 1.
Definition qoSortByAuthor : Z := 2.
Definition qoSortByLanguage : Z := 3.
Definition qoSortByPublisher : Z := 4.
Definition qoSortByRating : Z := 5.
Definition qoSortBySeries : Z := 6.
Definition qoSortBySize : Z := 7.
Definition qoSortByTags : Z := 8.
Definition qoSortByTime : Z := 9.
Definition qoSortByTitle : Z := 10.

Definition qoLangGerman : Z := 0.
Definition qoLangEnglish : Z := 1.
Definition qoLayoutList : Z := 0.
Definition qoLayoutGrid : Z := 1.
Definition qoThemeLight : Z := 0.
Definition qoThemeDark : Z := 1.

(** [TQueryOptions]: [ID] is a [TID] (a signed integer), [GuiLang],
    [Layout], [SortBy] and [Theme] are [uint8], the limits and the count
    are [uint]. *)
Record TQueryOptions : Type := mkQO {
  ID : Z;
  Descending : bool;
  Entity : string;
  GuiLang : Z;
  Layout : Z;
  LimitLength : Z;
  LimitStart : Z;
  Matching : string;
  QueryCount : Z;
  SortBy : Z;
  Theme : Z;
  VirtLib : string
}.

(** The values a Go [TQueryOptions] can hold. *)
Record qo_wf (qo : TQueryOptions) : Prop := mkWf {
  wf_ID : is_int (ID qo);
  wf_GuiLang : is_uint8 (GuiLang qo);
  wf_Layout : is_uint8 (Layout qo);
  wf_LimitLength : is_uint (LimitLength qo);
  wf_LimitStart : is_uint (LimitStart qo);
  wf_QueryCount : is_uint (QueryCount qo);
  wf_SortBy : is_uint8 (SortBy qo);
  wf_Theme : is_uint8 (Theme qo)
}.

(** Field assignments. *)
Definition set_ID (v : Z) (qo : TQueryOptions) : TQueryOptions :=
  mkQO v (Descending qo) (Entity qo) (GuiLang qo) (Layout qo) (LimitLength qo)
    (LimitStart qo) (Matching qo) (QueryCount qo) (SortBy qo) (Theme qo) (VirtLib qo).
Definition set_Descending (v : bool) (qo : TQueryOptions) : TQueryOptions :=
  mkQO (ID qo) v (Entity qo) (GuiLang qo) (Layout qo) (LimitLength qo)
    (LimitStart qo) (Matching qo) (QueryCount qo) (SortBy qo) (Theme qo) (VirtLib qo).
Definition set_Entity (v : string) (qo : TQueryOptions) : TQueryOptions :=
  mkQO (ID qo) (Descending qo) v (GuiLang qo) (Layout qo) (LimitLength qo)
    (LimitStart qo) (Matching qo) (QueryCount qo) (SortBy qo) (Theme qo) (VirtLib qo).
Definition set_GuiLang (v : Z) (qo : TQueryOptions) : TQueryOptions :=
  mkQO (ID qo) (Descending qo) (Entity qo) v (Layout qo) (LimitLength qo)
    (LimitStart qo) (Matching qo) (QueryCount qo) (SortBy qo) (Theme qo) (VirtLib qo).
Definition set_Layout (v : Z) (qo : TQueryOptions) : TQueryOptions :=
  mkQO (ID qo) (Descending qo) (Entity qo) (GuiLang qo) v (LimitLength qo)
    (LimitStart qo) (Matching qo) (QueryCount qo) (SortBy qo) (Theme qo) (VirtLib qo).
Definition set_LimitLength (v : Z) (qo : TQueryOptions) : TQueryOptions :=
  mkQO (ID qo) (Descending qo) (Entity qo) (GuiLang qo) (Layout qo) v
    (LimitStart qo) (Matching qo) (QueryCount qo) (SortBy qo) (Theme qo) (VirtLib qo).
Definition set_LimitStart (v : Z) (qo : TQueryOptions) : TQueryOptions :=
  mkQO (ID qo) (Descending qo) (Entity qo) (GuiLang qo) (Layout qo) (LimitLength qo)
    v (Matching qo) (QueryCount qo) (SortBy qo) (Theme qo) (VirtLib qo).
Definition set_Matching (v : string) (qo : TQueryOptions) : TQueryOptions :=
  mkQO (ID qo) (Descending qo) (Entity qo) (GuiLang qo) (Layout qo) (LimitLength qo)
    (LimitStart qo) v (QueryCount qo) (SortBy qo) (Theme qo) (VirtLib qo).
Definition set_QueryCount (v : Z) (qo : TQueryOptions) : TQueryOptions :=
  mkQO (ID qo) (Descending qo) (Entity qo) (GuiLang qo) (Layout qo) (LimitLength qo)
    (LimitStart qo) (Matching qo) v (SortBy qo) (Theme qo) (VirtLib qo).
Definition set_SortBy (v : Z) (qo : TQueryOptions) : TQueryOptions :=
  mkQO (ID qo) (Descending qo) (Entity qo) (GuiLang qo) (Layout qo) (LimitLength qo)
    (LimitStart qo) (Matching qo) (QueryCount qo) v (Theme qo) (VirtLib qo).
Definition set_Theme (v : Z) (qo : TQueryOptions) : TQueryOptions :=
  mkQO (ID qo) (Descending qo) (Entity qo) (GuiLang qo) (Layout qo) (LimitLength qo)
    (LimitStart qo) (Matching qo) (QueryCount qo) (SortBy qo) v (VirtLib qo).
Definition set_VirtLib (v : string) (qo : TQueryOptions) : TQueryOptions :=
  mkQO (ID qo) (Descending qo) (Entity qo) (GuiLang qo) (Layout qo) (LimitLength qo)
    (LimitStart qo) (Matching qo) (QueryCount qo) (SortBy qo) (Theme qo) v.

(** The options [NewQueryOptions] returns when no page length is
    configured. *)
Definition defaultOptions : TQueryOptions :=
  mkQO 0 true EmptyString 0 0 24 0 EmptyString 0 qoSortByAcquisition 0 EmptyString.

(** The form of an HTTP request: every key has a list of values, and
    [FormValue] returns the first value of a key, or the empty string. *)
Definition FormValue (aRequest : gmap string (list string)) (key : string) : string :=
  match aRequest !! key with
  | Some (v :: _) => v
  | _ => EmptyString
  end.

Definition nonempty (s : string) : bool := (0 <? String.length s)%nat.

Module QO.

(** [DecLimit] decrements the LIMIT values. *)
Definition DecLimit (qo : TQueryOptions) : TQueryOptions :=
  if 0 <? LimitStart qo then
    if LimitStart qo <=? LimitLength qo then set_LimitStart 0 qo
    else set_LimitStart (LimitStart qo - LimitLength qo) qo
  else qo.

(** [IncLimit] increments the LIMIT values; the sum is a [uint]. *)
Definition IncLimit (qo : TQueryOptions) : TQueryOptions :=
  set_LimitStart (to_uint (LimitStart qo + LimitLength qo)) qo.

(** The SELECT/OPTION lists. [TStringMap] is a map from strings to
    strings; an OPTION tag is written with [optionTag], the double quotes
    of the value included. *)
Definition optionTag (attributes value : string) : string :=
  "<option" +:+ attributes +:+ " value=" +:+ str1 ch_dquote +:+ value
    +:+ str1 ch_dquote +:+ ">".

(** [SelectLanguageOptions] returns a list of two SELECT/OPTIONs. *)
Definition SelectLanguageOptions (qo : TQueryOptions) : gmap string string :=
  if GuiLang qo =? qoLangEnglish then
    <["en" := optionTag " SELECTED" "en"]> (<["de" := optionTag EmptyString "de"]> ∅)
  else
    <["en" := optionTag EmptyString "en"]> (<["de" := optionTag " SELECTED" "de"]> ∅).

(** [SelectLayoutOptions] returns a list of SELECT/OPTIONs. *)
Definition SelectLayoutOptions (qo : TQueryOptions) : gmap string string :=
  if qoLayoutList =? Layout qo then
    <["grid" := optionTag EmptyString "grid"]>
      (<["list" := optionTag " SELECTED" "list"]> ∅)
  else
    <["grid" := optionTag " SELECTED" "grid"]>
      (<["list" := optionTag EmptyString "list"]> ∅).

(** [optionSelectedLookup]. *)
Definition optionSelectedLookup (b : bool) : string :=
  if b then " SELECTED" else EmptyString.

(** [SelectLimitOptions] returns a list of SELECT/OPTIONs: one line of
    text per page length, joined by a backslash and the letter n (the
    separator is a raw string literal). *)
Definition SelectLimitOptions (isPrintTable : Z -> bool) (qo : TQueryOptions) : string :=
  let iList := [9; 24; 48; 99; 249; 498] in
  let sList :=
    map (fun limit =>
           fmt.Sprintf isPrintTable
             ("<option%s value=" +:+ str1 ch_dquote +:+ "%d" +:+ str1 ch_dquote
                +:+ ">%d</option>")
             [fmt.OString (optionSelectedLookup (limit =? LimitLength qo));
              fmt.OUint "uint" limit; fmt.OUint "uint" limit]) iList in
  gostrings.Join sList "\n".

(** [SelectOrderOptions] returns a list of SELECT/OPTIONs. *)
Definition SelectOrderOptions (qo : TQueryOptions) : gmap string string :=
  if Descending qo then
    <["descending" := optionTag " SELECTED" "descending"]>
      (<["ascending" := optionTag EmptyString "ascending"]> ∅)
  else
    <["descending" := optionTag EmptyString "descending"]>
      (<["ascending" := optionTag " SELECTED" "ascending"]> ∅).

(** [selectSortByPrim] stores the OPTION of [aIndex] in [aMap]. *)
Definition selectSortByPrim (qo : TQueryOptions) (aMap : gmap string string)
    (aSort : Z) (aIndex : string) : gmap string string :=
  if aSort =? SortBy qo then <[aIndex := optionTag " SELECTED" aIndex]> aMap
  else <[aIndex := optionTag EmptyString aIndex]> aMap.

(** [SelectSortByOptions] returns a list of SELECT/OPTIONs. *)
Definition SelectSortByOptions (qo : TQueryOptions) : gmap string string :=
  let result := selectSortByPrim qo ∅ qoSortByAcquisition "acquisition" in
  let result := selectSortByPrim qo result qoSortByAuthor "author" in
  let result := selectSortByPrim qo result qoSortByLanguage "language" in
  let result := selectSortByPrim qo result qoSortByPublisher "publisher" in
  let result := selectSortByPrim qo result qoSortByRating "rating" in
  let result := selectSortByPrim qo result qoSortBySeries "series" in
  let result := selectSortByPrim qo result qoSortBySize "size" in
  let result := selectSortByPrim qo result qoSortByTags "tags" in
  let result := selectSortByPrim qo result qoSortByTime "time" in
  selectSortByPrim qo result qoSortByTitle "title".

(** [SelectThemeOptions] returns a list of two SELECT/OPTIONs; the
    [switch] has no case for a theme other than the two. *)
Definition SelectThemeOptions (qo : TQueryOptions) : gmap string string :=
  if Theme qo =? qoThemeLight then
    <["dark" := optionTag EmptyString "dark"]>
      (<["light" := optionTag " SELECTED" "light"]> ∅)
  else if Theme qo =? qoThemeDark then
    <["dark" := optionTag " SELECTED" "dark"]>
      (<["light" := optionTag EmptyString "light"]> ∅)
  else ∅.

(** [NewQueryOptions] returns a new [TQueryOptions] instance;
    [booksperpage] is the text [AppArguments.Get] returns for that name.
    The scan of one [%d] either stores the number or fails before it
    stores anything. *)
Definition NewQueryOptions (booksperpage : string) : TQueryOptions :=
  let result :=
    mkQO 0 true EmptyString 0 0 24 0 EmptyString 0 qoSortByAcquisition 0 EmptyString in
  if nonempty booksperpage then
    match fmt.Sscanf booksperpage "%d" [fmt.DUint 64] with
    | fmt.VInt n :: _ => set_LimitLength n result
    | _ => set_LimitLength 24 result
    end
  else result.

(** [Update], one definition per form field, in the order of the source. *)

Definition Update_guilang (aRequest : gmap string (list string))
    (qo : TQueryOptions) : TQueryOptions :=
  let lang := FormValue aRequest "guilang" in
  if nonempty lang then
    set_GuiLang (if String.eqb "en" lang then qoLangEnglish else 0) qo
  else set_GuiLang qoLangGerman qo.

Definition Update_layout (aRequest : gmap string (list string))
    (qo : TQueryOptions) : TQueryOptions :=
  let lt := FormValue aRequest "layout" in
  if nonempty lt then
    set_Layout (if String.eqb "grid" lt then qoLayoutGrid else 0) qo
  else set_Layout qoLayoutList qo.

Definition Update_limitlength (aRequest : gmap string (list string))
    (qo : TQueryOptions) : TQueryOptions :=
  let fll := FormValue aRequest "limitlength" in
  if nonempty fll then
    match strconv.Atoi fll with
    | (ll, None) =>
        let limlen := to_uint ll in
        if negb (limlen =? LimitLength qo) then set_LimitLength limlen (DecLimit qo)
        else qo
    | (_, Some _) => qo
    end
  else qo.

Definition Update_matching (aRequest : gmap string (list string))
    (qo : TQueryOptions) : TQueryOptions :=
  let matching := FormValue aRequest "matching" in
  if nonempty matching then
    if negb (String.eqb matching (Matching qo)) then
      set_VirtLib EmptyString (set_LimitStart 0 (set_Matching matching (set_ID 0 qo)))
    else qo
  else set_Matching EmptyString (set_ID 0 (set_Entity EmptyString qo)).

Definition Update_order (aRequest : gmap string (list string))
    (qo : TQueryOptions) : TQueryOptions :=
  let fob := FormValue aRequest "order" in
  if nonempty fob then
    let desc := String.eqb "descending" fob in
    if negb (Bool.eqb desc (Descending qo)) then
      set_LimitStart 0 (set_Descending desc qo)
    else qo
  else set_Descending false qo.

Definition sortby_of (fsb : string) : Z :=
  if String.eqb fsb "acquisition" then qoSortByAcquisition
  else if String.eqb fsb "author" then qoSortByAuthor
  else if String.eqb fsb "language" then qoSortByLanguage
  else if String.eqb fsb "publisher" then qoSortByPublisher
  else if String.eqb fsb "rating" then qoSortByRating
  else if String.eqb fsb "series" then qoSortBySeries
  else if String.eqb fsb "size" then qoSortBySize
  else if String.eqb fsb "tags" then qoSortByTags
  else if String.eqb fsb "time" then qoSortByTime
  else if String.eqb fsb "title" then qoSortByTitle
  else if String.eqb fsb EmptyString then qoSortUnsorted
  else 0.

Definition Update_sortby (aRequest : gmap string (list string))
    (qo : TQueryOptions) : TQueryOptions :=
  let fsb := FormValue aRequest "sortby" in
  if nonempty fsb then
    let sb := sortby_of fsb in
    if negb (sb =? SortBy qo) then set_SortBy sb (set_LimitStart 0 qo) else qo
  else set_SortBy qoSortByAcquisition qo.

Definition Update_theme (aRequest : gmap string (list string))
    (qo : TQueryOptions) : TQueryOptions :=
  let theme := FormValue aRequest "theme" in
  if nonempty theme then
    set_Theme (if String.eqb "dark" theme then qoThemeDark else 0) qo
  else set_Theme qoThemeLight qo.

(** [GetVirtLibList] is not part of the sources at hand: its result is the
    argument [vlList], [None] for an error and otherwise the map from the
    name of a virtual library to its definition ([vld.Def]). *)
Definition Update_virtlib (vlList : option (gmap string string))
    (aRequest : gmap string (list string)) (qo : TQueryOptions) : TQueryOptions :=
  let vl := FormValue aRequest "virtlib" in
  if nonempty vl then
    if negb (String.eqb vl (VirtLib qo)) then
      let qo1 := if String.eqb "-" vl then set_VirtLib EmptyString qo
                 else set_VirtLib vl qo in
      let qo2 :=
        if negb (String.eqb EmptyString vl) then
          match vlList with
          | Some lst =>
              match lst !! vl with
              | Some def => set_Matching def qo1
              | None => qo1
              end
          | None => qo1
          end
        else qo1 in
      set_LimitStart 0 (set_ID 0 (set_Entity EmptyString qo2))
    else qo
  else set_VirtLib EmptyString qo.

(** The state of the options when [Update] reaches the "matching" field. *)
Definition Update_before_matching (aRequest : gmap string (list string))
    (qo : TQueryOptions) : TQueryOptions :=
  Update_limitlength aRequest (Update_layout aRequest (Update_guilang aRequest qo)).

(** What [Update] does after the "matching" field. *)
Definition Update_after_matching (vlList : option (gmap string string))
    (aRequest : gmap string (list string)) (qo : TQueryOptions) : TQueryOptions :=
  Update_virtlib vlList aRequest
    (Update_theme aRequest (Update_sortby aRequest (Update_order aRequest qo))).

(** [Update] returns the options with the values read from the request. *)
Definition Update (vlList : option (gmap string string))
    (aRequest : gmap string (list string)) (qo : TQueryOptions) : TQueryOptions :=
  Update_after_matching vlList aRequest
    (Update_matching aRequest (Update_before_matching aRequest qo)).

(** Pattern used by [String] and [Scan]. *)
Definition qoStringPattern : string := "|%d|%t|%q|%d|%d|%d|%d|%q|%d|%d|%d|%q|".

(** [String] returns the options as a [|] delimited string. *)
Definition String (isPrintTable : Z -> bool) (qo : TQueryOptions) : string :=
  fmt.Sprintf isPrintTable qoStringPattern
    [fmt.OInt "int" (ID qo); fmt.OBool (Descending qo); fmt.OString (Entity qo);
     fmt.OUint "uint8" (GuiLang qo); fmt.OUint "uint8" (Layout qo);
     fmt.OUint "uint" (LimitLength qo); fmt.OUint "uint" (LimitStart qo);
     fmt.OString (Matching qo); fmt.OUint "uint" (QueryCount qo);
     fmt.OUint "uint8" (SortBy qo); fmt.OUint "uint8" (Theme qo);
     fmt.OString (VirtLib qo)].

Definition intValue (v : option fmt.value) (old : Z) : Z :=
  match v with
  | Some (fmt.VInt i) => i
  | _ => old
  end.

Definition boolValue (v : option fmt.value) (old : bool) : bool :=
  match v with
  | Some (fmt.VBool b) => b
  | _ => old
  end.

Definition stringValue (v : option fmt.value) (old : string) : string :=
  match v with
  | Some (fmt.VString s) => s
  | _ => old
  end.

(** [Scan] returns the options read from [aString]. A field whose value
    was not reached by the scan keeps what it had; [m] and [v] start
    empty. *)
Definition Scan (aString : string) (qo : TQueryOptions) : TQueryOptions :=
  let vals := fmt.Sscanf aString qoStringPattern
    [fmt.DInt 64; fmt.DBool; fmt.DString; fmt.DUint 8; fmt.DUint 8; fmt.DUint 64;
     fmt.DUint 64; fmt.DString; fmt.DUint 64; fmt.DUint 8; fmt.DUint 8; fmt.DString] in
  let m := stringValue (vals !! 7%nat) EmptyString in
  let v := stringValue (vals !! 11%nat) EmptyString in
  mkQO (intValue (vals !! 0%nat) (ID qo))
    (boolValue (vals !! 1%nat) (Descending qo))
    (stringValue (vals !! 2%nat) (Entity qo))
    (intValue (vals !! 3%nat) (GuiLang qo))
    (intValue (vals !! 4%nat) (Layout qo))
    (intValue (vals !! 5%nat) (LimitLength qo))
    (intValue (vals !! 6%nat) (LimitStart qo))
    (gostrings.TrimSpace m)
    (intValue (vals !! 8%nat) (QueryCount qo))
    (intValue (vals !! 9%nat) (SortBy qo))
    (intValue (vals !! 10%nat) (Theme qo))
    (if String.eqb "-" v then EmptyString else gostrings.TrimSpace v).

End QO.

(** The definition a request selects in the "virtlib" block: the request
    names a virtual library other than the current one, and the list of
    virtual libraries knows it. *)
Definition selectedVirtLib (vlList : option (gmap string string))
    (r : gmap string (list string)) (current : string) : option string :=
  let vl := FormValue r "virtlib" in
  if nonempty vl && negb (String.eqb vl current) then
    match vlList with
    | Some lst => lst !! vl
    | None => None
    end
  else None.


(** ** The SQL composer and the decoders ([db/queries.go]) *)

Module db.

(** The double quote as a string, for the SQL texts. *)
Definition dq : string := str1 ch_dquote.

(** [quBaseQuery] is the default query to get all document data. *)
Definition quBaseQuery : string :=
  "SELECT b.id,
b.title,
IFNULL((SELECT group_concat(a.name || " +:+ dq +:+ "|" +:+ dq +:+ " || a.id, " +:+ dq +:+ ", " +:+ dq +:+ ")
	FROM authors a
	JOIN books_authors_link bal ON(bal.author = a.id)
	WHERE (bal.book = b.id)
), " +:+ dq +:+ dq +:+ ") authors,
IFNULL((SELECT group_concat(p.name || " +:+ dq +:+ "|" +:+ dq +:+ " || p.id)
	FROM publishers p
	JOIN books_publishers_link bpl ON(p.id = bpl.publisher)
	WHERE (bpl.book = b.id)
), " +:+ dq +:+ dq +:+ ") publisher,
IFNULL((SELECT r.rating
	FROM ratings r
	WHERE r.id IN (
		SELECT brl.rating
		from books_ratings_link brl
		WHERE (brl.book = b.id)
	)
), 0) rating,
b.timestamp,
IFNULL((SELECT MAX(data.uncompressed_size)
	FROM data
	WHERE (data.book = b.id)
), 0) size,
IFNULL((SELECT group_concat(t.name || " +:+ dq +:+ "|" +:+ dq +:+ " || t.id, " +:+ dq +:+ ", " +:+ dq +:+ ")
	FROM tags t
	JOIN books_tags_link btl ON(btl.tag = t.id)
	WHERE (btl.book = b.id)
), " +:+ dq +:+ dq +:+ ") tags,
IFNULL((SELECT c.text
	FROM comments c
	WHERE (c.book = b.id)
), " +:+ dq +:+ dq +:+ ") comments,
IFNULL((SELECT group_concat(s.name || " +:+ dq +:+ "|" +:+ dq +:+ " || s.id, " +:+ dq +:+ ", " +:+ dq +:+ ")
	FROM series s
	JOIN books_series_link bsl ON(bsl.series = s.id)
	WHERE (bsl.book = b.id)
), " +:+ dq +:+ dq +:+ ") series,
b.series_index,
b.sort AS title_sort,
b.author_sort,
IFNULL((SELECT group_concat(d.format || " +:+ dq +:+ "|" +:+ dq +:+ " || d.id, " +:+ dq +:+ ", " +:+ dq +:+ ")
	FROM data d
	WHERE (d.book = b.id)
), " +:+ dq +:+ dq +:+ ") formats,
IFNULL((SELECT group_concat(l.lang_code || " +:+ dq +:+ "|" +:+ dq +:+ " || l.id, " +:+ dq +:+ ", " +:+ dq +:+ ")
	FROM books_languages_link bll
	JOIN languages l ON(bll.lang_code = l.id)
	WHERE (bll.book = b.id)
), " +:+ dq +:+ dq +:+ ") languages,
b.isbn,
IFNULL((SELECT group_concat(i.type || " +:+ dq +:+ "|" +:+ dq +:+ " || i.id || " +:+ dq +:+ "|" +:+ dq +:+ " || i.val, " +:+ dq +:+ ", " +:+ dq +:+ ")
	FROM identifiers i
	WHERE (i.book = b.id)
), " +:+ dq +:+ dq +:+ ") identifiers,
b.path,
b.lccn,
b.pubdate,
b.flags,
b.uuid,
b.has_cover
FROM books b ".

(** [escapeQuery]: the loop writes into [result], a byte slice of twice
    the length of the source, at the index [j]; a write outside the slice
    is a run-time panic, here [None]. *)
Definition store (result : list ascii) (j : nat) (c : ascii) : option (list ascii) :=
  if (j <? length result)%nat then Some (<[j:=c]> result) else None.

Definition isEscaped (c : ascii) : bool :=
  Ascii.eqb c ch_nl || Ascii.eqb c ch_cr || Ascii.eqb c ch_backslash
  || Ascii.eqb c ch_dquote.

(** One round of the loop on the byte [aSource[i]]; the state is
    [(result, j, escape)]. *)
Definition escapeStep (c : ascii) (st : list ascii * nat * bool)
    : option (list ascii * nat * bool) :=
  let '(result, j, escape) := st in
  let escape := if isEscaped c then true
                else if Ascii.eqb c ch_ctrlZ then true else escape in
  let character := if Ascii.eqb c ch_ctrlZ then "Z"%char else c in
  if escape then
    r1 ← store result j ch_backslash;
    r2 ← store r1 (j + 1) character;
    Some (r2, (j + 2)%nat, false)
  else
    r1 ← store result j character;
    Some (r1, (j + 1)%nat, escape).

Fixpoint escapeLoop (src : list ascii) (st : list ascii * nat * bool)
    : option (list ascii * nat * bool) :=
  match src with
  | [] => Some st
  | c :: src' => st' ← escapeStep c st; escapeLoop src' st'
  end.

(** [escapeQuery] returns a string with some characters escaped. *)
Definition escapeQuery (aSource : string) : option string :=
  let sLen := String.length aSource in
  if (sLen =? 0)%nat then Some EmptyString
  else
    '(result, j, _) ← escapeLoop (list_ascii_of_string aSource)
                        (replicate (2 * sLen) zero, O, false);
    if (j <=? length result)%nat then Some (string_of_list_ascii (take j result))
    else None.

(** The table of the entity filters. *)
Definition quHaving : gmap string string :=
  <["all" := EmptyString]>
  (<["authors" := "JOIN books_authors_link a ON(a.book = b.id) WHERE (a.author = %d) "]>
  (<["format" := "JOIN data d ON(b.id = d.book) JOIN data dd ON (d.format = dd.format) WHERE (dd.id = %d) "]>
  (<["languages" := "JOIN books_languages_link l ON(l.book = b.id) WHERE (l.lang_code = %d) "]>
  (<["publisher" := "JOIN books_publishers_link p ON(p.book = b.id) WHERE (p.publisher = %d) "]>
  (<["series" := "JOIN books_series_link s ON(s.book = b.id) WHERE (s.series = %d) "]>
  (<["tags" := "JOIN books_tags_link t ON(t.book = b.id) WHERE (t.tag = %d) "]> ∅)))))).

(** Modelled from the spec: the declaration of [TID] is not among the
    sources at hand; the spec calls the identifier an integer and the
    decoders store an [int] in an [ID] field, so [TID] is read as [int].
    Only the type name that [Sprintf] prints for a surplus operand
    depends on it. *)
Definition TID_name : string := "int".

(** [fmt.Sprintf(format, a)] for one operand [a] of type [TID] and a
    format whose verbs are [%d]: literal bytes are copied, the first [%d]
    prints the operand in decimal, a further [%d] has no operand left, a
    [%] at the end has no verb, and an operand that no verb has used is
    reported after the text. Other verbs do not occur in the formats of
    the program; they are rendered as a verb the operand does not support. *)
Fixpoint doPrintf (format : string) (a : Z) (used : bool) : string * bool :=
  match format with
  | EmptyString => (EmptyString, used)
  | String c rest =>
      if Ascii.eqb c "%" then
        match rest with
        | EmptyString => ("%!(NOVERB)", used)
        | String v rest' =>
            if Ascii.eqb v "%" then
              let '(out, u) := doPrintf rest' a used in (String "%" out, u)
            else if used then
              let '(out, u) := doPrintf rest' a used in
              ("%!" +:+ str1 v +:+ "(MISSING)" +:+ out, u)
            else if Ascii.eqb v "d" then
              let '(out, u) := doPrintf rest' a true in
              (strconv.FormatInt a +:+ out, u)
            else
              let '(out, u) := doPrintf rest' a true in
              ("%!" +:+ str1 v +:+ "(" +:+ TID_name +:+ "=" +:+ strconv.FormatInt a
                 +:+ ")" +:+ out, u)
        end
      else
        let '(out, u) := doPrintf rest a used in (String c out, u)
  end.

Definition Sprintf (format : string) (a : Z) : string :=
  let '(out, used) := doPrintf format a false in
  if used then out
  else out +:+ "%!(EXTRA " +:+ TID_name +:+ "=" +:+ strconv.FormatInt a +:+ ")".

(** [having] returns a string limiting the query to the given [aEntity]
    with [aID]; a key that is not in the table reads as the empty string. *)
Definition having (aEntity : string) (aID : Z) : string :=
  if (String.length aEntity =? 0)%nat || String.eqb "all" aEntity || (0 =? aID)
  then EmptyString
  else Sprintf (default EmptyString (quHaving !! aEntity)) aID.

(** [limit] returns a LIMIT clause defined by [aStart] and [aLength]. *)
Definition limit (aStart aLength : Z) : string :=
  "LIMIT " +:+ strconv.FormatInt (to_int aStart) +:+ ","
    +:+ strconv.FormatInt (to_int aLength).

(** [orderBy] returns a ORDER BY clause defined by [aOrder] and
    [aDescending]. *)
Definition orderBy (aOrder : Z) (aDescending : bool) : string :=
  let desc := if aDescending then " DESC" else EmptyString in
  let clause (result : string) := " ORDER BY " +:+ result +:+ desc +:+ " " in
  if aOrder =? qoSortByAcquisition then
    clause ("b.timestamp" +:+ desc +:+ ", b.pubdate" +:+ desc +:+ ", b.author_sort")
  else if aOrder =? qoSortByAuthor then
    clause ("b.author_sort" +:+ desc +:+ ", b.pubdate")
  else if aOrder =? qoSortByLanguage then
    clause ("languages" +:+ desc +:+ ", b.author_sort" +:+ desc +:+ ", b.sort")
  else if aOrder =? qoSortByPublisher then
    clause ("publisher" +:+ desc +:+ ", b.author_sort" +:+ desc +:+ ", b.sort")
  else if aOrder =? qoSortByRating then
    clause ("rating" +:+ desc +:+ ", b.author_sort" +:+ desc +:+ ", b.sort")
  else if aOrder =? qoSortBySeries then
    clause ("series" +:+ desc +:+ ", b.series_index" +:+ desc +:+ ", b.sort")
  else if aOrder =? qoSortBySize then
    clause ("size" +:+ desc +:+ ", b.author_sort")
  else if aOrder =? qoSortByTags then
    clause ("tags" +:+ desc +:+ ", b.author_sort")
  else if aOrder =? qoSortByTime then
    clause ("b.pubdate" +:+ desc +:+ ", b.timestamp" +:+ desc +:+ ", b.author_sort")
  else if aOrder =? qoSortByTitle then
    clause ("b.sort" +:+ desc +:+ ", b.author_sort")
  else EmptyString.

(** *** The query drivers *)

Definition quCountQuery : string := "SELECT COUNT(b.id) FROM books b ".

(** The catalogue store as the drivers see it. [dbQuery] is
    [dbSqliteDB.Query]: an error or the rows of the answer. [scanCount] is
    [rows.Scan(&rCount)] on a row: the number stored, or [None] when the
    scan fails and leaves [rCount] as it is. [materialize] stands for the
    body of the loop of [doQueryAll], which turns one row into a document
    (the scan of the columns, the visibility policy and the decoders). *)
Record TStore (Row TDocument : Type) : Type := mkStore {
  dbQuery : string → string + list Row;
  scanCount : Row → option Z;
  materialize : Row → TDocument
}.
Arguments dbQuery {Row TDocument} _ _.
Arguments scanCount {Row TDocument} _ _.
Arguments materialize {Row TDocument} _ _.

(** [doQueryAll] returns a list of documents and an error. *)
Definition doQueryAll {Row TDocument : Type} (st : TStore Row TDocument)
    (aQuery : string) : option (list TDocument) * option string :=
  match dbQuery st aQuery with
  | inl err => (None, Some err)
  | inr rows => (Some (map (materialize st) rows), None)
  end.

(** The first block of both drivers: [rCount] after the count query. *)
Definition countRows {Row TDocument : Type} (st : TStore Row TDocument)
    (aQuery : string) : Z :=
  match dbQuery st aQuery with
  | inl _ => 0
  | inr [] => 0
  | inr (row :: _) => default 0 (scanCount st row)
  end.

(** The result of a driver: [rCount], [rList], [rErr], and the queries
    that were sent to the store, in order. *)
Record TResult (TDocument : Type) : Type := mkResult {
  rCount : Z;
  rList : option (list TDocument);
  rErr : option string;
  sent : list string
}.
Arguments mkResult {TDocument} _ _ _ _.
Arguments rCount {TDocument} _.
Arguments rList {TDocument} _.
Arguments rErr {TDocument} _.
Arguments sent {TDocument} _.

(** The texts of the two queries of [QueryBy]. *)
Definition byCount (aOptions : TQueryOptions) : string :=
  quCountQuery +:+ having (Entity aOptions) (ID aOptions).

Definition byDetail (aOptions : TQueryOptions) : string :=
  quBaseQuery +:+ having (Entity aOptions) (ID aOptions)
    +:+ orderBy (SortBy aOptions) (Descending aOptions)
    +:+ limit (LimitStart aOptions) (LimitLength aOptions).

(** [QueryBy] returns all documents according to [aOptions]. *)
Definition QueryBy {Row TDocument : Type} (st : TStore Row TDocument)
    (aOptions : TQueryOptions) : TResult TDocument :=
  let count := countRows st (byCount aOptions) in
  if 0 <? count then
    let '(docs, err) := doQueryAll st (byDetail aOptions) in
    mkResult count docs err [byCount aOptions; byDetail aOptions]
  else mkResult count None None [byCount aOptions].

(** [QuerySearch] returns a list of documents matching the criteria in
    [aOptions]. [NewSearch(...).Clause()] is not among the sources at hand:
    [clause] maps the search text to the WHERE clause. *)
Definition searchCount (clause : string → string) (aOptions : TQueryOptions) : string :=
  quCountQuery +:+ clause (Matching aOptions).

Definition searchDetail (clause : string → string) (aOptions : TQueryOptions) : string :=
  quBaseQuery +:+ clause (Matching aOptions)
    +:+ orderBy (SortBy aOptions) (Descending aOptions)
    +:+ limit (LimitStart aOptions) (LimitLength aOptions).

Definition QuerySearch {Row TDocument : Type} (st : TStore Row TDocument)
    (clause : string → string) (aOptions : TQueryOptions) : TResult TDocument :=
  let count := countRows st (searchCount clause aOptions) in
  if 0 <? count then
    let '(docs, err) := doQueryAll st (searchDetail clause aOptions) in
    mkResult count docs err [searchCount clause aOptions; searchDetail clause aOptions]
  else mkResult count None (Some "No documents found") [searchCount clause aOptions].

(** An entity record. *)
Record TEntity : Type := mkEntity {
  ID : Z;
  Name : string;
  URL : string
}.

(** The comparison handed to [sort.Slice]: the names as byte strings. *)
Definition lessName (x y : TEntity) : bool := String.ltb (Name x) (Name y).

(** The body of the decoding loops for a non-empty segment [val]:
    [a := append(strings.SplitN(val, sep, n), empty)] with the separator [|], then the record built from
    [a[0]], [a[1]] (and [a[2]] for the identifiers). An index outside [a]
    is a run-time panic, here [None]. *)
Definition decodeSegment (n : nat) (withURL : bool) (val : string) : option TEntity :=
  let a := gostrings.SplitN val "|" n ++ [EmptyString] in
  a1 ← a !! 1%nat;
  let num := fst (strconv.Atoi a1) in
  a0 ← a !! 0%nat;
  if withURL then a2 ← a !! 2%nat; Some (mkEntity num a0 a2)
  else Some (mkEntity num a0 EmptyString).

Fixpoint decodeLoop (n : nat) (withURL : bool) (segs : list string)
    (result : list TEntity) : option (list TEntity) :=
  match segs with
  | [] => Some result
  | val :: rest =>
      if (String.length val =? 0)%nat then decodeLoop n withURL rest result
      else e ← decodeSegment n withURL val; decodeLoop n withURL rest (result ++ [e])
  end.

(** [sort.Slice] is the argument [sortSlice]: applied to the comparison
    and to the slice, it gives the slice after the call. *)
Definition sortIfMany (sortSlice : (TEntity → TEntity → bool) → list TEntity → list TEntity)
    (result : list TEntity) : list TEntity :=
  if (1 <? length result)%nat then sortSlice lessName result else result.

(** [prepAuthors] returns a sorted list of document authors. *)
Definition prepAuthors (sortSlice : (TEntity → TEntity → bool) → list TEntity → list TEntity)
    (aAuthor : string) : option (list TEntity) :=
  result ← decodeLoop 2 false (gostrings.Split aAuthor ", ") [];
  Some (sortIfMany sortSlice result).

(** [prepFormats] returns a sorted list of document formats. *)
Definition prepFormats (sortSlice : (TEntity → TEntity → bool) → list TEntity → list TEntity)
    (aFormat : string) : option (list TEntity) :=
  result ← decodeLoop 2 false (gostrings.Split aFormat ", ") [];
  Some (sortIfMany sortSlice result).

(** [prepIdentifiers] returns a sorted list of document identifiers. *)
Definition prepIdentifiers (sortSlice : (TEntity → TEntity → bool) → list TEntity → list TEntity)
    (aIdentifier : string) : option (list TEntity) :=
  result ← decodeLoop 3 true (gostrings.Split aIdentifier ", ") [];
  Some (sortIfMany sortSlice result).

(** [prepLanguages] returns a document's languages. *)
Definition prepLanguages (sortSlice : (TEntity → TEntity → bool) → list TEntity → list TEntity)
    (aLanguage : string) : option (list TEntity) :=
  result ← decodeLoop 2 false (gostrings.Split aLanguage ", ") [];
  Some (sortIfMany sortSlice result).

(** [prepTags] returns a sorted list of document tags. *)
Definition prepTags (sortSlice : (TEntity → TEntity → bool) → list TEntity → list TEntity)
    (aTag : string) : option (list TEntity) :=
  result ← decodeLoop 2 false (gostrings.Split aTag ", ") [];
  Some (sortIfMany sortSlice result).

(** The first record of the loop of [prepPublisher] and [prepSeries]:
    [Some None] is the [nil] result. *)
Fixpoint decodeFirst (segs : list string) : option (option TEntity) :=
  match segs with
  | [] => Some None
  | val :: rest =>
      if (String.length val =? 0)%nat then decodeFirst rest
      else e ← decodeSegment 2 false val; Some (Some e)
  end.

(** [prepPublisher] returns a document's publisher. *)
Definition prepPublisher (aPublisher : string) : option (option TEntity) :=
  decodeFirst (gostrings.Split aPublisher ", ").

(** [prepSeries] returns a document's series. *)
Definition prepSeries (aSeries : string) : option (option TEntity) :=
  decodeFirst (gostrings.Split aSeries ", ").


(** *** Specification-side readings *)

(** The fragment the specification describes for an entity filter: a
    JOIN, then a WHERE that compares the key column with the identifier. *)
Definition joinWhere (join key : string) (aID : Z) : string :=
  join +:+ " WHERE (" +:+ key +:+ " = " +:+ strconv.FormatInt aID +:+ ") ".

(** The escaping as the specification words it, byte by byte: a newline,
    a carriage return, a backslash and a double quote are preceded by a
    backslash, Ctrl-Z becomes a backslash and the letter Z, and every other
    byte is copied. *)
Definition escapedByte (c : ascii) : list ascii :=
  if Ascii.eqb c ch_nl || Ascii.eqb c ch_cr || Ascii.eqb c ch_backslash
     || Ascii.eqb c ch_dquote
  then [ch_backslash; c]
  else if Ascii.eqb c ch_ctrlZ then [ch_backslash; "Z"%char]
  else [c].

Definition escapedText (s : string) : string :=
  string_of_list_ascii (flat_map escapedByte (list_ascii_of_string s)).

(** Reading a text as the body of a double-quoted literal in which a
    backslash protects the byte after it: [None] when an unprotected double
    quote ends the literal inside the text; otherwise [Some p], where [p]
    tells whether the text ends on a backslash that would protect the
    closing quote. *)
Fixpoint literalScan (protected : bool) (text : list ascii) : option bool :=
  match text with
  | [] => Some protected
  | c :: rest =>
      if protected then literalScan false rest
      else if Ascii.eqb c ch_backslash then literalScan true rest
      else if Ascii.eqb c ch_dquote then None
      else literalScan false rest
  end.


(** A list of records in ascending order of the names. *)
Definition ascendingByName (l : list TEntity) : Prop :=
  StronglySorted (fun x y => String.leb (Name x) (Name y) = true) l.

(** A stable rearrangement: the records of every name are in the output
    in the order they have in the input. *)
Definition keepsInputOrder (input output : list TEntity) : Prop :=
  forall n : string,
    List.filter (fun e => String.eqb (Name e) n) output
    = List.filter (fun e => String.eqb (Name e) n) input.

End db.

(** ** Auxiliary notions of the proofs *)

Ltac case_if :=
  match goal with
  | |- context [if ?b then _ else _] => destruct b eqn:?
  | |- context [match ?x with (_, _) => _ end] => destruct x eqn:?
  | |- context [match ?x with Some _ => _ | None => _ end] => destruct x eqn:?
  end.

(** A string of decimal digits, and the number it denotes after the
    digits read so far denote [n]. *)
Fixpoint allDigits (s : string) : bool :=
  match s with
  | EmptyString => true
  | String c s' => strconv.isDigit c && allDigits s'
  end.

Fixpoint digitsValue (n : Z) (s : string) : Z :=
  match s with
  | EmptyString => n
  | String c s' => digitsValue (n * 10 + (byte c - 48)) s'
  end.

(** The well-formed sequences of two, three and four bytes, and the runes
    they encode. *)
Definition seq2 (b0 b1 : Z) : Prop :=
  194 <= b0 <= 223 /\ 128 <= b1 <= 191.

Definition seq3 (b0 b1 b2 : Z) : Prop :=
  (b0 = 224 /\ 160 <= b1 <= 191 \/ 225 <= b0 <= 236 /\ 128 <= b1 <= 191
   \/ b0 = 237 /\ 128 <= b1 <= 159 \/ 238 <= b0 <= 239 /\ 128 <= b1 <= 191)
  /\ 128 <= b2 <= 191.

Definition seq4 (b0 b1 b2 b3 : Z) : Prop :=
  (b0 = 240 /\ 144 <= b1 <= 191 \/ 241 <= b0 <= 243 /\ 128 <= b1 <= 191
   \/ b0 = 244 /\ 128 <= b1 <= 143)
  /\ 128 <= b2 <= 191 /\ 128 <= b3 <= 191.

Definition rune2 (b0 b1 : Z) : Z := (b0 - 192) * 64 + (b1 - 128).
Definition rune3 (b0 b1 b2 : Z) : Z :=
  (b0 - 224) * 4096 + (b1 - 128) * 64 + (b2 - 128).
Definition rune4 (b0 b1 b2 b3 : Z) : Z :=
  (b0 - 240) * 262144 + (b1 - 128) * 4096 + (b2 - 128) * 64 + (b3 - 128).

(** Case analysis on the comparisons of a goal. *)
Ltac zcase :=
  match goal with
  | |- context [?a <? ?b] => destruct (Z.ltb_spec a b)
  | |- context [?a <=? ?b] => destruct (Z.leb_spec a b)
  | |- context [?a =? ?b] => destruct (Z.eqb_spec a b)
  end.

(** Comparisons in the hypotheses, as propositions. *)
Ltac boolZ :=
  repeat match goal with
  | H : (_ <? _) = true |- _ => apply Z.ltb_lt in H
  | H : (_ <? _) = false |- _ => apply Z.ltb_ge in H
  | H : (_ <=? _) = true |- _ => apply Z.leb_le in H
  | H : (_ <=? _) = false |- _ => apply Z.leb_gt in H
  | H : (_ =? _) = true |- _ => apply Z.eqb_eq in H
  | H : (_ =? _) = false |- _ => apply Z.eqb_neq in H
  | H : (_ && _) = true |- _ => apply andb_prop in H; destruct H
  | H : (_ || _) = false |- _ => apply orb_false_elim in H; destruct H
  | H : negb _ = true |- _ => apply negb_true_iff in H
  | H : negb _ = false |- _ => apply negb_false_iff in H
  | H : (_ && _) = false |- _ => apply andb_false_iff in H; destruct H
  | H : (_ || _) = true |- _ => apply orb_prop in H; destruct H
  end.

(** Case analysis on the first test of a hypothesis. *)
Ltac hcase H :=
  match type of H with
  | context [if ?b then _ else _] => destruct b eqn:?
  end.

(** What [DecodeRune] finds at the start of a string: one byte of ASCII,
    or a well-formed sequence of two to four bytes. *)
Inductive wellFormedStart : string -> Z -> nat -> Prop :=
| wf1 c0 t : byte c0 < 128 -> wellFormedStart (String c0 t) (byte c0) 1
| wf2 c0 c1 t :
    seq2 (byte c0) (byte c1) ->
    wellFormedStart (String c0 (String c1 t)) (rune2 (byte c0) (byte c1)) 2
| wf3 c0 c1 c2 t :
    seq3 (byte c0) (byte c1) (byte c2) ->
    wellFormedStart (String c0 (String c1 (String c2 t)))
      (rune3 (byte c0) (byte c1) (byte c2)) 3
| wf4 c0 c1 c2 c3 t :
    seq4 (byte c0) (byte c1) (byte c2) (byte c3) ->
    wellFormedStart (String c0 (String c1 (String c2 (String c3 t))))
      (rune4 (byte c0) (byte c1) (byte c2) (byte c3)) 4.

(** A segment as [utf8.segments] returns it: a byte outside ASCII that
    starts no well-formed sequence, with the error rune, or the bytes of a
    well-formed sequence with its rune. *)
Definition goodSegment (seg : Z * string) : Prop :=
  (fst seg = utf8.RuneError /\ exists c, snd seg = str1 c /\ 128 <= byte c)
  \/ wellFormedStart (snd seg) (fst seg) (String.length (snd seg)).

(** The bytes of a list of segments, and the text [Quote] writes for it
    between the quotes. *)
Definition segmentBytes (l : list (Z * string)) : string :=
  String.concat EmptyString (map snd l).

Definition segmentQuotes (isPrintTable : Z -> bool) (l : list (Z * string)) : string :=
  String.concat EmptyString (map (strconv.quoteSegment isPrintTable) l).

(** A text that the loop of [quotedString] copies to its buffer without
    stopping: [rs] are the runes of the text. *)
Definition transparent (tok : string) : Prop :=
  exists rs : list Z,
    (forall X : string, utf8.runes (tok +:+ X) = rs ++ utf8.runes X)
    /\ (forall R : list Z,
          fmt.quotedLoop (rs ++ R)
          = '(buf, more) ← fmt.quotedLoop R; Some (tok +:+ buf, more)).

(** The bytes the loop of [Unquote] appends for a value of [UnquoteChar]. *)
Definition emitted (c : Z) (multibyte : bool) : string :=
  if (c <? utf8.RuneSelf) || negb multibyte then str1 (chr c) else utf8.EncodeRune c.

(** A text that [UnquoteChar] turns into the bytes [bytes]. *)
Definition unquotesTo (tok bytes : string) : Prop :=
  forall X : string,
    exists c multibyte,
      strconv.UnquoteChar (tok +:+ X) = Some (c, multibyte, X)
      /\ emitted c multibyte = bytes.

(** What the proofs need of the text [Quote] writes for one segment. *)
Record tokenOK (tok bytes : string) : Prop := mkTokenOK {
  tok_transparent : transparent tok;
  tok_unquotes : unquotesTo tok bytes;
  tok_nonempty : tok <> EmptyString;
  tok_noNewline : strconv.containsByte tok ch_nl = false;
  tok_raw : strconv.containsByte tok ch_backslash = false -> tok = bytes
}.


(** ** The tests of the blocks of [Update] *)

(** Whether the "limitlength" block assigns: the parameter is a number
    other than the current page length. *)
Definition lengthChanges (r : gmap string (list string)) (qo : TQueryOptions) : bool :=
  nonempty (FormValue r "limitlength")
  && match strconv.Atoi (FormValue r "limitlength") with
     | (ll, None) => negb (to_uint ll =? LimitLength qo)
     | (_, Some _) => false
     end.

(** Whether the request brings a new search text. *)
Definition matchingChanges (r : gmap string (list string)) (qo : TQueryOptions) : bool :=
  nonempty (FormValue r "matching")
  && negb (String.eqb (FormValue r "matching") (Matching qo)).

(** Whether the request names a sort direction other than the current. *)
Definition orderChanges (r : gmap string (list string)) (qo : TQueryOptions) : bool :=
  nonempty (FormValue r "order")
  && negb (Bool.eqb (String.eqb "descending" (FormValue r "order")) (Descending qo)).

(** Whether the request names a sort field other than the current. *)
Definition sortChanges (r : gmap string (list string)) (qo : TQueryOptions) : bool :=
  nonempty (FormValue r "sortby")
  && negb (QO.sortby_of (FormValue r "sortby") =? SortBy qo).

(** Whether the request names a virtual library other than the current. *)
Definition virtlibChanges (r : gmap string (list string)) (qo : TQueryOptions) : bool :=
  nonempty (FormValue r "virtlib")
  && negb (String.eqb (FormValue r "virtlib") (VirtLib qo)).

(** The virtual library block of [Update] assigns: the request names a
    virtual library other than the one the "matching" block has left. *)
Definition virtlibFires (r : gmap string (list string)) (qo : TQueryOptions) : bool :=
  nonempty (FormValue r "virtlib")
  && negb (String.eqb (FormValue r "virtlib")
             (if matchingChanges r qo then EmptyString else VirtLib qo)).

(** ** Notions of the further properties of the composer *)

(** A byte [escapeQuery] copies as it is, and a text of such bytes. *)
Definition copiedByte (c : ascii) : bool :=
  negb (db.isEscaped c || Ascii.eqb c ch_ctrlZ).

Definition plainText (s : string) : bool :=
  forallb copiedByte (list_ascii_of_string s).

(** A segment the decoder of the identifiers skips or can index: the
    empty one, or one with a bar. *)
Definition emptyOrBarred (val : string) : bool :=
  (String.length val =? 0)%nat || strconv.containsByte val ch_bar.

(** The first segment that is not empty. *)
Definition firstSegment (segs : list string) : option string :=
  head (List.filter (fun val => negb (String.length val =? 0)%nat) segs).

(** [s] ends with [suffix]. *)
Definition endsWith (s suffix : string) : bool :=
  (String.length suffix <=? String.length s)%nat
  && String.eqb
       (substring (String.length s - String.length suffix) (String.length suffix) s)
       suffix.
(** * Proofs *)

(** ** Pagination *)

Lemma to_uint_small z : is_uint z -> to_uint z = z.
Proof. intros H. unfold to_uint. apply Z.mod_small. exact H. Qed.

Lemma DecLimit_LimitStart qo :
  LimitStart (QO.DecLimit qo) =
    if 0 <? LimitStart qo then
      if LimitStart qo <=? LimitLength qo then 0
      else LimitStart qo - LimitLength qo
    else LimitStart qo.
Proof.
  unfold QO.DecLimit.
  destruct (0 <? LimitStart qo); [|reflexivity].
  destruct (LimitStart qo <=? LimitLength qo); reflexivity.
Qed.

Lemma IncLimit_LimitStart qo :
  LimitStart (QO.IncLimit qo) = to_uint (LimitStart qo + LimitLength qo).
Proof. reflexivity. Qed.

(** C8. [IncLimit] adds [LimitLength] to [LimitStart] without any check
    against an upper bound (the sum is the [uint] sum, and the exact sum
    whenever that fits 64 bits); [DecLimit] sets [LimitStart] to 0 when it
    is at most [LimitLength] and subtracts [LimitLength] otherwise, so the
    result is never negative; both leave the other fields alone. From
    [LimitStart = 0] and [LimitLength = 24], one [IncLimit] gives 24, a
    following [DecLimit] gives 0 again, and [DecLimit] at 0 changes
    nothing. *)
Theorem pagination_operations (qo : TQueryOptions) (Hwf : qo_wf qo) :
  (LimitStart (QO.IncLimit qo) = to_uint (LimitStart qo + LimitLength qo)
   /\ (LimitStart qo + LimitLength qo < uint64_mod ->
       LimitStart (QO.IncLimit qo) = LimitStart qo + LimitLength qo)
   /\ QO.IncLimit qo = set_LimitStart (LimitStart (QO.IncLimit qo)) qo)
  /\ ((LimitStart qo <= LimitLength qo -> LimitStart (QO.DecLimit qo) = 0)
      /\ (LimitLength qo < LimitStart qo ->
          LimitStart (QO.DecLimit qo) = LimitStart qo - LimitLength qo)
      /\ 0 <= LimitStart (QO.DecLimit qo)
      /\ qo_wf (QO.DecLimit qo)
      /\ QO.DecLimit qo = set_LimitStart (LimitStart (QO.DecLimit qo)) qo)
  /\ (LimitStart qo = 0 -> LimitLength qo = 24 ->
      LimitStart (QO.IncLimit qo) = 24
      /\ LimitStart (QO.DecLimit (QO.IncLimit qo)) = 0
      /\ QO.DecLimit qo = qo).
Proof.
  pose proof (wf_LimitLength qo Hwf) as [Hl0 Hl1].
  pose proof (wf_LimitStart qo Hwf) as [Hs0 Hs1].
  split; [|split].
  - split; [reflexivity|]. split; [|reflexivity].
    intros Hfit. rewrite IncLimit_LimitStart. apply to_uint_small.
    unfold is_uint. lia.
  - assert (Hdec : LimitStart (QO.DecLimit qo) =
                   if LimitStart qo <=? LimitLength qo then 0
                   else LimitStart qo - LimitLength qo).
    { rewrite DecLimit_LimitStart.
      destruct (Z.ltb_spec 0 (LimitStart qo)) as [Hpos|Hnpos]; [reflexivity|].
      destruct (Z.leb_spec (LimitStart qo) (LimitLength qo)); lia. }
    split; [|split; [|split; [|split]]].
    + intros Hle. rewrite Hdec.
      destruct (Z.leb_spec (LimitStart qo) (LimitLength qo)); lia.
    + intros Hlt. rewrite Hdec.
      destruct (Z.leb_spec (LimitStart qo) (LimitLength qo)); lia.
    + rewrite Hdec.
      destruct (Z.leb_spec (LimitStart qo) (LimitLength qo)); lia.
    + destruct Hwf as [HI HG HL HLL HLS HQ HS HT].
      destruct qo; unfold QO.DecLimit; cbn in *.
      destruct (Z.ltb_spec 0 LimitStart0);
        [destruct (Z.leb_spec LimitStart0 LimitLength0)|];
        constructor; cbn; try assumption; unfold is_uint, uint64_mod in *; lia.
    + destruct qo; unfold QO.DecLimit; cbn.
      destruct (0 <? LimitStart0); [destruct (LimitStart0 <=? LimitLength0)|];
        reflexivity.
  - intros H0 H24. rewrite IncLimit_LimitStart, H0, H24.
    split; [reflexivity|]. split.
    + rewrite DecLimit_LimitStart. cbn [QO.IncLimit set_LimitStart LimitStart LimitLength].
      rewrite H0, H24. reflexivity.
    + unfold QO.DecLimit. rewrite H0. reflexivity.
Qed.

Lemma defaultOptions_wf : qo_wf defaultOptions.
Proof. constructor; split; vm_compute; congruence. Qed.

Lemma pagination_operations_witness :
  LimitStart (QO.IncLimit defaultOptions) = 24
  /\ LimitStart (QO.DecLimit (QO.IncLimit defaultOptions)) = 0
  /\ QO.DecLimit defaultOptions = defaultOptions.
Proof.
  exact (proj2 (proj2 (pagination_operations defaultOptions defaultOptions_wf))
           eq_refl eq_refl).
Defined.

(** ** [Update]: what each block of form fields touches *)

Lemma before_matching_frame r qo :
  let pre := QO.Update_before_matching r qo in
  Entity pre = Entity qo /\ ID pre = ID qo /\ Matching pre = Matching qo
  /\ VirtLib pre = VirtLib qo /\ Descending pre = Descending qo
  /\ SortBy pre = SortBy qo /\ (LimitStart qo = 0 -> LimitStart pre = 0).
Proof.
  destruct qo. unfold QO.Update_before_matching, QO.Update_limitlength,
    QO.Update_layout, QO.Update_guilang, QO.DecLimit.
  cbn. repeat case_if; cbn; repeat split; try reflexivity; intros; subst; try discriminate;
    try reflexivity; lia.
Qed.

Lemma middle_blocks_frame r qo :
  let post := QO.Update_theme r (QO.Update_sortby r (QO.Update_order r qo)) in
  Entity post = Entity qo /\ ID post = ID qo /\ Matching post = Matching qo
  /\ VirtLib post = VirtLib qo
  /\ (LimitStart post = 0 \/ LimitStart post = LimitStart qo).
Proof.
  destruct qo. unfold QO.Update_theme, QO.Update_sortby, QO.Update_order.
  cbn. repeat case_if; cbn; repeat split; auto.
Qed.

Lemma virtlib_block_spec vlList r qo :
  let post := QO.Update_virtlib vlList r qo in
  let fires := nonempty (FormValue r "virtlib")
               && negb (String.eqb (FormValue r "virtlib") (VirtLib qo)) in
  Entity post = (if fires then EmptyString else Entity qo)
  /\ ID post = (if fires then 0 else ID qo)
  /\ LimitStart post = (if fires then 0 else LimitStart qo)
  /\ Matching post = default (Matching qo) (selectedVirtLib vlList r (VirtLib qo)).
Proof.
  destruct qo. unfold QO.Update_virtlib, selectedVirtLib.
  cbn [VirtLib Entity ID LimitStart Matching].
  destruct (FormValue r "virtlib") as [|c vl] eqn:Hvl; [cbn; auto|].
  change (nonempty (String c vl)) with true.
  change (String.eqb EmptyString (String c vl)) with false.
  cbn [andb negb].
  destruct (String.eqb (String c vl) VirtLib0) eqn:Heq; cbn [negb]; [cbn; auto|].
  destruct (String.eqb "-" (String c vl)); destruct vlList as [lst|];
    cbn; try destruct (lst !! String c vl); cbn; auto.
Qed.

Lemma nonempty_neq s : s <> EmptyString -> nonempty s = true.
Proof. destruct s; [congruence|reflexivity]. Qed.

Lemma nonempty_eqb_empty s : nonempty s = true -> String.eqb s EmptyString = false.
Proof. destruct s; [discriminate|reflexivity]. Qed.

(** C3, as the code has it. A request whose "matching" parameter is not
    empty and differs from the current [Matching] resets [LimitStart] to 0
    and [ID] to 0. The "matching" block itself leaves [Entity] alone: after
    [Update] the entity is empty when the request also carries a "virtlib"
    parameter, and is the entity the options had otherwise. *)
Theorem Update_new_matching (vlList : option (gmap string string))
    (r : gmap string (list string)) (qo : TQueryOptions)
    (Hpresent : FormValue r "matching" <> EmptyString)
    (Hnew : FormValue r "matching" <> Matching qo) :
  let mid := QO.Update_matching r (QO.Update_before_matching r qo) in
  let post := QO.Update vlList r qo in
  (LimitStart mid = 0 /\ ID mid = 0 /\ Matching mid = FormValue r "matching"
   /\ VirtLib mid = EmptyString /\ Entity mid = Entity qo)
  /\ LimitStart post = 0 /\ ID post = 0
  /\ Entity post = (if nonempty (FormValue r "virtlib") then EmptyString else Entity qo).
Proof.
  intros mid post.
  destruct (before_matching_frame r qo) as (HE & HI & HM & HV & _).
  assert (Hmid : mid = set_VirtLib EmptyString (set_LimitStart 0
            (set_Matching (FormValue r "matching")
               (set_ID 0 (QO.Update_before_matching r qo))))).
  { unfold mid, QO.Update_matching. rewrite (nonempty_neq _ Hpresent), HM.
    destruct (String.eqb_spec (FormValue r "matching") (Matching qo)); [contradiction|].
    reflexivity. }
  assert (Hfields : LimitStart mid = 0 /\ ID mid = 0
            /\ Matching mid = FormValue r "matching"
            /\ VirtLib mid = EmptyString /\ Entity mid = Entity qo).
  { rewrite Hmid. cbn. auto. }
  split; [exact Hfields|].
  destruct Hfields as (HmL & HmI & _ & HmV & HmE).
  unfold post, QO.Update, QO.Update_after_matching. fold mid.
  destruct (middle_blocks_frame r mid) as (HE2 & HI2 & _ & HV2 & HL2).
  destruct (virtlib_block_spec vlList r
              (QO.Update_theme r (QO.Update_sortby r (QO.Update_order r mid))))
    as (HE3 & HI3 & HL3 & _).
  rewrite HE3, HI3, HL3, HV2, HmV, HE2, HmE, HI2, HmI.
  assert (HL0 : LimitStart (QO.Update_theme r (QO.Update_sortby r (QO.Update_order r mid))) = 0).
  { destruct HL2 as [H|H]; rewrite H; [reflexivity|exact HmL]. }
  rewrite HL0.
  destruct (nonempty (FormValue r "virtlib")) eqn:Hne.
  - rewrite (nonempty_eqb_empty _ Hne). cbn. auto.
  - cbn. auto.
Qed.

Lemma Update_new_matching_witness :
  let r : gmap string (list string) := {[ "matching" := ["verne"] ]} in
  let post := QO.Update None r defaultOptions in
  LimitStart post = 0 /\ ID post = 0 /\ Entity post = EmptyString.
Proof.
  intros r post.
  assert (Hpresent : FormValue r "matching" <> EmptyString) by (vm_compute; discriminate).
  assert (Hnew : FormValue r "matching" <> Matching defaultOptions)
    by (vm_compute; discriminate).
  exact (proj2 (Update_new_matching None r defaultOptions Hpresent Hnew)).
Defined.

(** C3 fails as stated: the options list the books of the author 7 from
    the second page on, and the request brings a new search text; [Update]
    resets [LimitStart] and [ID] and keeps the entity. *)
Lemma Update_new_matching_keeps_Entity :
  let qo := mkQO 7 true "author" 0 0 24 24 EmptyString 0 qoSortByAcquisition 0 EmptyString in
  let r : gmap string (list string) := {[ "matching" := ["verne"] ]} in
  LimitStart qo <> 0
  /\ FormValue r "matching" = "verne"
  /\ FormValue r "matching" <> Matching qo
  /\ LimitStart (QO.Update None r qo) = 0
  /\ ID (QO.Update None r qo) = 0
  /\ Entity (QO.Update None r qo) = "author"
  /\ Entity (QO.Update None r qo) <> EmptyString.
Proof.
  cbv zeta. repeat split; try (vm_compute; congruence).
Qed.

(** C10, as the code has it. When the "matching" parameter is absent or
    empty, the "matching" block of [Update] sets [Entity] to the empty
    string, [ID] to 0 and [Matching] to the empty string, and leaves every
    other field, [LimitStart] among them, as it found it. At the end of
    [Update] the entity is empty and the identifier is 0; [Matching] is
    empty unless the "virtlib" block selects a known virtual library, whose
    definition is then the new [Matching]. *)
Theorem Update_matching_absent (vlList : option (gmap string string))
    (r : gmap string (list string)) (qo : TQueryOptions)
    (Habsent : FormValue r "matching" = EmptyString) :
  let pre := QO.Update_before_matching r qo in
  let mid := QO.Update_matching r pre in
  let post := QO.Update vlList r qo in
  (Entity mid = EmptyString /\ ID mid = 0 /\ Matching mid = EmptyString
   /\ LimitStart mid = LimitStart pre
   /\ mid = set_Matching EmptyString (set_ID 0 (set_Entity EmptyString pre)))
  /\ Entity post = EmptyString /\ ID post = 0
  /\ Matching post = default EmptyString (selectedVirtLib vlList r (VirtLib qo)).
Proof.
  intros pre mid post.
  assert (Hmid : mid = set_Matching EmptyString (set_ID 0 (set_Entity EmptyString pre))).
  { unfold mid, QO.Update_matching. rewrite Habsent. reflexivity. }
  split; [rewrite Hmid; cbn; auto|].
  destruct (before_matching_frame r qo) as (_ & _ & _ & HV & _).
  unfold post, QO.Update, QO.Update_after_matching. fold pre. fold mid.
  destruct (middle_blocks_frame r mid) as (HE2 & HI2 & HM2 & HV2 & _).
  destruct (virtlib_block_spec vlList r
              (QO.Update_theme r (QO.Update_sortby r (QO.Update_order r mid))))
    as (HE3 & HI3 & _ & HM3).
  rewrite HE3, HI3, HM3, HE2, HI2, HM2, HV2, Hmid.
  cbn [Entity ID Matching VirtLib set_Matching set_ID set_Entity].
  unfold pre. rewrite HV.
  split; [|split]; try (case_if; reflexivity).
  reflexivity.
Qed.

Lemma Update_matching_absent_witness :
  let r : gmap string (list string) := {[ "order" := ["descending"] ]} in
  let post := QO.Update None r defaultOptions in
  Entity post = EmptyString /\ ID post = 0
  /\ Matching post = default EmptyString (selectedVirtLib None r (VirtLib defaultOptions)).
Proof.
  intros r post.
  assert (Habsent : FormValue r "matching" = EmptyString) by reflexivity.
  exact (proj2 (Update_matching_absent None r defaultOptions Habsent)).
Defined.

(** C10 fails as stated for the state [Update] returns: without a
    "matching" parameter, a request that selects the virtual library [sf]
    leaves the definition of that library in [Matching]. *)
Lemma Update_matching_absent_virtlib :
  let r : gmap string (list string) := {[ "virtlib" := ["sf"] ]} in
  let vlList : option (gmap string string) := Some {[ "sf" := "tags:scifi" ]} in
  FormValue r "matching" = EmptyString
  /\ Matching (QO.Update vlList r defaultOptions) = "tags:scifi"
  /\ Matching (QO.Update vlList r defaultOptions) <> EmptyString.
Proof.
  cbv zeta. repeat split; try (vm_compute; congruence).
Qed.

(** ** The entity filter [having] *)

Lemma quHaving_keys :
  db.quHaving !! "authors" = Some "JOIN books_authors_link a ON(a.book = b.id) WHERE (a.author = %d) "
  /\ db.quHaving !! "format" = Some "JOIN data d ON(b.id = d.book) JOIN data dd ON (d.format = dd.format) WHERE (dd.id = %d) "
  /\ db.quHaving !! "languages" = Some "JOIN books_languages_link l ON(l.book = b.id) WHERE (l.lang_code = %d) "
  /\ db.quHaving !! "publisher" = Some "JOIN books_publishers_link p ON(p.book = b.id) WHERE (p.publisher = %d) "
  /\ db.quHaving !! "series" = Some "JOIN books_series_link s ON(s.book = b.id) WHERE (s.series = %d) "
  /\ db.quHaving !! "tags" = Some "JOIN books_tags_link t ON(t.book = b.id) WHERE (t.tag = %d) "
  /\ db.quHaving !! "all" = Some EmptyString.
Proof. repeat split; vm_compute; reflexivity. Qed.

Lemma having_known (aEntity format : string) (aID : Z) :
  db.quHaving !! aEntity = Some format ->
  (String.length aEntity =? 0)%nat || String.eqb "all" aEntity = false ->
  aID <> 0 ->
  db.having aEntity aID = db.Sprintf format aID.
Proof.
  intros Hk Hname Hid. unfold db.having. rewrite Hname, Hk. cbn [orb].
  destruct (Z.eqb_spec 0 aID); [congruence|reflexivity].
Qed.

(** C2, as the code has it. The table of [having] is keyed by [authors],
    [format], [languages], [publisher], [series] and [tags]: for each of
    them and an identifier other than 0 the result is the JOIN ... WHERE
    fragment that compares the key column of the entity with the
    identifier. With the identifier 0, or with an empty entity or the
    entity [all], the result is the empty string. *)
Theorem having_fragments (aEntity : string) (aID : Z) :
  (aID <> 0 ->
   db.having "authors" aID
     = db.joinWhere "JOIN books_authors_link a ON(a.book = b.id)" "a.author" aID
   /\ db.having "format" aID
     = db.joinWhere "JOIN data d ON(b.id = d.book) JOIN data dd ON (d.format = dd.format)"
         "dd.id" aID
   /\ db.having "languages" aID
     = db.joinWhere "JOIN books_languages_link l ON(l.book = b.id)" "l.lang_code" aID
   /\ db.having "publisher" aID
     = db.joinWhere "JOIN books_publishers_link p ON(p.book = b.id)" "p.publisher" aID
   /\ db.having "series" aID
     = db.joinWhere "JOIN books_series_link s ON(s.book = b.id)" "s.series" aID
   /\ db.having "tags" aID
     = db.joinWhere "JOIN books_tags_link t ON(t.book = b.id)" "t.tag" aID)
  /\ (aEntity = EmptyString \/ aEntity = "all" \/ aID = 0 ->
      db.having aEntity aID = EmptyString).
Proof.
  destruct quHaving_keys as (Ha & Hf & Hl & Hp & Hs & Ht & _).
  split.
  - intros Hid.
    repeat split;
      (erewrite having_known; [|eassumption|reflexivity|exact Hid]);
      reflexivity.
  - intros [H|[H|H]]; unfold db.having; subst.
    + reflexivity.
    + reflexivity.
    + change (0 =? 0) with true. rewrite orb_true_r. reflexivity.
Qed.

Lemma having_fragments_witness :
  db.having "tags" 12 = "JOIN books_tags_link t ON(t.book = b.id) WHERE (t.tag = 12) "
  /\ db.having "tags" 0 = EmptyString.
Proof.
  split.
  - assert (H12 : 12 <> 0) by lia.
    exact (proj2 (proj2 (proj2 (proj2 (proj2
             (proj1 (having_fragments "tags" 12) H12)))))).
  - apply (proj2 (having_fragments "tags" 0)). right. right. reflexivity.
Defined.

(** C2 fails as stated: [author], [lang] and [tag] are no keys of the
    table, and for a name that is no key the format is empty, so that
    [Sprintf] reports the identifier as a surplus operand. *)
Lemma having_author_not_a_fragment :
  db.having "author" 5 = "%!(EXTRA int=5)"
  /\ db.having "lang" 5 = "%!(EXTRA int=5)"
  /\ db.having "tag" 5 = "%!(EXTRA int=5)"
  /\ db.having "author" 5 <> EmptyString
  /\ db.having "author" 5
     <> db.joinWhere "JOIN books_authors_link a ON(a.book = b.id)" "a.author" 5.
Proof. repeat split; vm_compute; congruence. Qed.

(** ** [escapeQuery] *)

Lemma store_in_range (result : list ascii) (j : nat) (c : ascii) :
  (j < length result)%nat -> db.store result j c = Some (<[j:=c]> result).
Proof.
  intros H. unfold db.store.
  destruct (Nat.ltb_spec j (length result)); [reflexivity|lia].
Qed.

Lemma take_store_one (l : list ascii) (j : nat) (a : ascii) :
  (j < length l)%nat -> take (j + 1) (<[j:=a]> l) = take j l ++ [a].
Proof.
  intros H. replace (j + 1)%nat with (S j) by lia.
  rewrite (take_S_r _ j a).
  - rewrite take_insert_ge by lia. reflexivity.
  - apply list_lookup_insert_eq. exact H.
Qed.

Lemma take_store_two (l : list ascii) (j : nat) (a b : ascii) :
  (j + 1 < length l)%nat ->
  take (j + 2) (<[(j + 1)%nat:=b]> (<[j:=a]> l)) = take j l ++ [a; b].
Proof.
  intros H. replace (j + 2)%nat with ((j + 1) + 1)%nat by lia.
  rewrite take_store_one by (rewrite length_insert; lia).
  rewrite take_store_one by lia.
  rewrite <- app_assoc. reflexivity.
Qed.

Lemma escapedByte_length c : (1 <= length (db.escapedByte c) <= 2)%nat.
Proof. unfold db.escapedByte. repeat case_if; cbn; lia. Qed.

Lemma escapeStep_spec (result : list ascii) (j : nat) (c : ascii) :
  (j + 2 <= length result)%nat ->
  exists result',
    db.escapeStep c (result, j, false)
      = Some (result', (j + length (db.escapedByte c))%nat, false)
    /\ length result' = length result
    /\ take (j + length (db.escapedByte c)) result'
       = take j result ++ db.escapedByte c.
Proof.
  intros Hroom. unfold db.escapeStep, db.escapedByte, db.isEscaped.
  destruct (Ascii.eqb c ch_nl || Ascii.eqb c ch_cr || Ascii.eqb c ch_backslash
            || Ascii.eqb c ch_dquote) eqn:Hesc.
  - assert (Hz : Ascii.eqb c ch_ctrlZ = false).
    { destruct (Ascii.eqb_spec c ch_ctrlZ) as [->|]; [discriminate Hesc|reflexivity]. }
    rewrite Hz. rewrite store_in_range by lia. cbn [mbind option_bind].
    rewrite store_in_range by (rewrite length_insert; lia). cbn [mbind option_bind].
    eexists. split; [reflexivity|]. split.
    + rewrite !length_insert. reflexivity.
    + cbn [length]. apply take_store_two. lia.
  - destruct (Ascii.eqb c ch_ctrlZ) eqn:Hz.
    + rewrite store_in_range by lia. cbn [mbind option_bind].
      rewrite store_in_range by (rewrite length_insert; lia). cbn [mbind option_bind].
      eexists. split; [reflexivity|]. split.
      * rewrite !length_insert. reflexivity.
      * cbn [length]. apply take_store_two. lia.
    + rewrite store_in_range by lia. cbn [mbind option_bind].
      eexists. split; [reflexivity|]. split.
      * rewrite length_insert. reflexivity.
      * cbn [length]. apply take_store_one. lia.
Qed.

Lemma flat_map_escaped_length (src : list ascii) :
  (length (flat_map db.escapedByte src) <= 2 * length src)%nat.
Proof.
  induction src as [|c src IH]; cbn [flat_map length]; [lia|].
  rewrite length_app. pose proof (escapedByte_length c). lia.
Qed.

Lemma escapeLoop_spec (src : list ascii) :
  forall (result : list ascii) (j : nat),
    (j + 2 * length src <= length result)%nat ->
    exists result',
      db.escapeLoop src (result, j, false)
        = Some (result', (j + length (flat_map db.escapedByte src))%nat, false)
      /\ length result' = length result
      /\ take (j + length (flat_map db.escapedByte src)) result'
         = take j result ++ flat_map db.escapedByte src.
Proof.
  induction src as [|c src IH]; intros result j Hroom.
  - exists result. cbn. rewrite Nat.add_0_r, app_nil_r. auto.
  - cbn [length] in Hroom.
    destruct (escapeStep_spec result j c) as (r1 & Hstep & Hlen1 & Htake1); [lia|].
    pose proof (escapedByte_length c) as Hb.
    destruct (IH r1 (j + length (db.escapedByte c))%nat) as (r2 & Hloop & Hlen2 & Htake2);
      [lia|].
    exists r2. cbn [db.escapeLoop flat_map]. rewrite Hstep. cbn [mbind option_bind].
    rewrite length_app, Nat.add_assoc, Hloop.
    split; [reflexivity|]. split; [congruence|].
    rewrite Htake2, Htake1, <- app_assoc. reflexivity.
Qed.

Lemma list_ascii_length (s : string) :
  length (list_ascii_of_string s) = String.length s.
Proof. induction s as [|c s IH]; cbn; [reflexivity|]. f_equal. exact IH. Qed.

Lemma escapeQuery_escapedText (aSource : string) :
  db.escapeQuery aSource = Some (db.escapedText aSource).
Proof.
  unfold db.escapeQuery, db.escapedText.
  destruct (Nat.eqb_spec (String.length aSource) 0) as [H0|Hpos].
  - destruct aSource; [reflexivity|discriminate H0].
  - pose proof (list_ascii_length aSource) as Hlen.
    destruct (escapeLoop_spec (list_ascii_of_string aSource)
                (replicate (2 * String.length aSource) zero) 0%nat)
      as (r & Hloop & Hlenr & Htake).
    { rewrite length_replicate. unfold length in *. lia. }
    rewrite Hloop. cbn [mbind option_bind].
    cbn [Nat.add] in *. rewrite Htake. cbn [take app].
    pose proof (flat_map_escaped_length (list_ascii_of_string aSource)) as Hbound.
    rewrite length_replicate in Hlenr.
    destruct (Nat.leb_spec (length (flat_map db.escapedByte (list_ascii_of_string aSource)))
                (length r)); [reflexivity|].
    unfold length in *. lia.
Qed.

Lemma literalScan_escaped (src : list ascii) :
  db.literalScan false (flat_map db.escapedByte src) = Some false.
Proof.
  induction src as [|c src IH]; [reflexivity|].
  cbn [flat_map]. unfold db.escapedByte.
  destruct (Ascii.eqb c ch_nl || Ascii.eqb c ch_cr || Ascii.eqb c ch_backslash
            || Ascii.eqb c ch_dquote) eqn:Hesc.
  - cbn [app db.literalScan]. exact IH.
  - apply orb_false_elim in Hesc as [Hesc Hq].
    apply orb_false_elim in Hesc as [_ Hb].
    destruct (Ascii.eqb c ch_ctrlZ) eqn:Hz.
    + cbn [app db.literalScan]. exact IH.
    + cbn [app db.literalScan]. rewrite Hb, Hq. exact IH.
Qed.


(** ** The order of byte strings *)

Lemma ascii_compare_N (a b : ascii) :
  Ascii.compare a b = N.compare (N_of_ascii a) (N_of_ascii b).
Proof. reflexivity. Qed.

Lemma string_leb_trans (a : string) :
  forall b c : string,
    String.leb a b = true -> String.leb b c = true -> String.leb a c = true.
Proof.
  unfold String.leb.
  induction a as [|x a IH]; intros b c Hab Hbc.
  - destruct c; reflexivity.
  - destruct b as [|y b]; [discriminate Hab|].
    destruct c as [|z c]; [discriminate Hbc|].
    cbn [String.compare] in *. rewrite !ascii_compare_N in *.
    destruct (N.compare_spec (N_of_ascii x) (N_of_ascii y)) as [Hxy|Hxy|Hxy];
      destruct (N.compare_spec (N_of_ascii y) (N_of_ascii z)) as [Hyz|Hyz|Hyz];
      destruct (N.compare_spec (N_of_ascii x) (N_of_ascii z)) as [Hxz|Hxz|Hxz];
      try discriminate; try reflexivity; try lia.
    apply (IH b c); assumption.
Qed.

Lemma string_ltb_leb (a b : string) :
  String.ltb b a = false <-> String.leb a b = true.
Proof.
  unfold String.ltb, String.leb. rewrite (String.compare_antisym a b).
  destruct (String.compare b a); cbn; split; congruence.
Qed.

Lemma lessName_asym (x y : db.TEntity) :
  db.lessName x y = true -> db.lessName y x = false.
Proof.
  unfold db.lessName, String.ltb. rewrite (String.compare_antisym (db.Name y)).
  destruct (String.compare (db.Name x) (db.Name y)); cbn; congruence.
Qed.

Lemma lessName_negtrans (x y z : db.TEntity) :
  db.lessName x y = false -> db.lessName y z = false -> db.lessName x z = false.
Proof.
  unfold db.lessName. rewrite !string_ltb_leb. intros Hyx Hzy.
  exact (string_leb_trans _ _ _ Hzy Hyx).
Qed.

(** ** Sorting by insertion meets the contract of [sort.Slice] *)

Section InsertionSort.

Context {A : Type} (less moves : A -> A -> bool).
Hypothesis moves_true : forall x y, moves x y = true -> less y x = false.
Hypothesis moves_false : forall x y, moves x y = false -> less x y = false.
Hypothesis less_negtrans :
  forall x y z, less x y = false -> less y z = false -> less x z = false.

Lemma insertionStep_perm (x : A) (r : list A) :
  Permutation (sort.insertionStep moves x r) (x :: r).
Proof.
  induction r as [|y r IH]; cbn; [reflexivity|].
  destruct (moves x y); [|reflexivity].
  rewrite IH. apply perm_swap.
Qed.

Lemma insertionStep_Forall (P : A -> Prop) (x : A) (r : list A) :
  P x -> Forall P r -> Forall P (sort.insertionStep moves x r).
Proof.
  intros Hx Hr. induction Hr as [|y r Hy Hr IH]; cbn.
  - constructor; [exact Hx|constructor].
  - destruct (moves x y); constructor; auto.
Qed.

Lemma insertionStep_descending (x : A) (r : list A) :
  sort.descending less r -> sort.descending less (sort.insertionStep moves x r).
Proof.
  unfold sort.descending. intros Hr. induction Hr as [|y r Hr IH Hy]; cbn.
  - constructor; constructor.
  - destruct (moves x y) eqn:Hm.
    + constructor; [exact IH|].
      apply insertionStep_Forall; [apply moves_true; exact Hm|exact Hy].
    + constructor; [constructor; assumption|].
      constructor; [apply moves_false; exact Hm|].
      eapply Forall_impl; [exact Hy|].
      intros z Hz. eapply less_negtrans; [apply moves_false; exact Hm|exact Hz].
Qed.

Lemma fold_insertionStep (data : list A) :
  forall acc : list A,
    sort.descending less acc ->
    sort.descending less (fold_left (fun revPrefix x => sort.insertionStep moves x revPrefix) data acc)
    /\ Permutation
         (fold_left (fun revPrefix x => sort.insertionStep moves x revPrefix) data acc)
         (rev data ++ acc).
Proof.
  induction data as [|x data IH]; intros acc Hacc; cbn [fold_left rev].
  - split; [exact Hacc|reflexivity].
  - destruct (IH (sort.insertionStep moves x acc)) as [Hd Hp];
      [apply insertionStep_descending; exact Hacc|].
    split; [exact Hd|].
    rewrite Hp, insertionStep_perm, <- app_assoc. cbn.
    apply Permutation_app_head. reflexivity.
Qed.

Lemma StronglySorted_snoc (R : A -> A -> Prop) (l : list A) (x : A) :
  StronglySorted R l -> Forall (fun y => R y x) l -> StronglySorted R (l ++ [x]).
Proof.
  intros Hl. induction Hl as [|y l Hl IH Hy]; intros Hx; cbn.
  - constructor; constructor.
  - apply Forall_cons_iff in Hx as [Hyx Hx].
    constructor; [apply IH; exact Hx|].
    apply Forall_app. split; [exact Hy|]. constructor; [exact Hyx|constructor].
Qed.

Lemma descending_rev (l : list A) :
  sort.descending less l -> sort.ordered less (rev l).
Proof.
  unfold sort.descending, sort.ordered. intros Hl.
  induction Hl as [|x l Hl IH Hx]; cbn [rev]; [constructor|].
  apply StronglySorted_snoc; [exact IH|].
  apply Forall_rev. exact Hx.
Qed.

Lemma insertionSortBy_contract (data : list A) :
  Permutation (sort.insertionSortBy moves data) data
  /\ sort.ordered less (sort.insertionSortBy moves data).
Proof.
  unfold sort.insertionSortBy.
  destruct (fold_insertionStep data []) as [Hd Hp]; [constructor|].
  split.
  - rewrite <- Permutation_rev, Hp, app_nil_r, <- Permutation_rev. reflexivity.
  - apply descending_rev. exact Hd.
Qed.

End InsertionSort.

Lemma insertionSort_contract : sort.contract db.lessName sort.insertionSort.
Proof.
  intros data. unfold sort.insertionSort.
  apply (insertionSortBy_contract db.lessName db.lessName).
  - apply lessName_asym.
  - auto.
  - apply lessName_negtrans.
Qed.

(** ** The packed-column decoders *)

Lemma genSplit_nonempty (cuts : nat) (sep : string) :
  forall s : string, exists first rest, gostrings.genSplit cuts sep s = first :: rest.
Proof.
  induction cuts as [|k IH]; intros s; cbn.
  - eauto.
  - destruct (gostrings.cut sep s) as [[a b]|]; eauto.
Qed.

Lemma decodeSegment_total (val : string) :
  exists e, db.decodeSegment 2 false val = Some e.
Proof.
  unfold db.decodeSegment, gostrings.SplitN.
  destruct (genSplit_nonempty (Nat.min 2 (String.length val + 1) - 1) "|" val)
    as (first & rest & ->).
  destruct rest as [|second rest]; cbn; eauto.
Qed.

Lemma decodeLoop_total (segs : list string) :
  forall result, exists records, db.decodeLoop 2 false segs result = Some records.
Proof.
  induction segs as [|val segs IH]; intros result; cbn [db.decodeLoop].
  - eauto.
  - destruct (String.length val =? 0)%nat; [apply IH|].
    destruct (decodeSegment_total val) as [e ->]. cbn [mbind option_bind]. apply IH.
Qed.


Lemma StronglySorted_impl {A : Type} (R S : A -> A -> Prop) (l : list A) :
  (forall x y, R x y -> S x y) -> StronglySorted R l -> StronglySorted S l.
Proof.
  intros HRS Hl. induction Hl as [|x l Hl IH Hx]; constructor; [exact IH|].
  eapply Forall_impl; [exact Hx|]. intros y. apply HRS.
Qed.

Lemma ordered_ascendingByName (l : list db.TEntity) :
  sort.ordered db.lessName l -> db.ascendingByName l.
Proof.
  apply StronglySorted_impl. intros x y H. apply string_ltb_leb. exact H.
Qed.

Lemma short_ascendingByName (l : list db.TEntity) :
  (1 <? length l)%nat = false -> db.ascendingByName l.
Proof.
  destruct l as [|x [|y l]]; cbn; intros H.
  - constructor.
  - constructor; constructor.
  - discriminate H.
Qed.

(** The three records of the example of the specification. *)
Lemma example_decoded :
  db.decodeLoop 2 false (gostrings.Split "B|2, A|1, A|3" ", ") []
  = Some [db.mkEntity 2 "B" EmptyString; db.mkEntity 1 "A" EmptyString;
          db.mkEntity 3 "A" EmptyString].
Proof. vm_compute. reflexivity. Qed.

(** ** [sort.Slice] on a short slice, and the stability of insertion *)

Lemma Slice_short {A : Type} (less : A -> A -> bool) (data : list A) :
  (length data <= 12)%nat -> sort.Slice less data = sort.insertionSort less data.
Proof.
  intros Hlen. unfold sort.Slice. cbn [sort.pdqsort_func].
  rewrite Nat.sub_0_r.
  destruct (Nat.leb_spec (length data) 12) as [_|Hgt]; [|lia].
  unfold sort.insertionSort_func.
  rewrite Nat.sub_0_r, drop_0, take_0, firstn_all, drop_all, app_nil_r.
  reflexivity.
Qed.

Lemma string_ltb_irrefl (a : string) : String.ltb a a = false.
Proof.
  unfold String.ltb. pose proof (String.compare_antisym a a) as H.
  destruct (String.compare a a); cbn in H; try discriminate H; reflexivity.
Qed.

Section InsertionStable.

Variable n : string.

Let named (e : db.TEntity) : bool := String.eqb (db.Name e) n.

Lemma lessName_other_name (x y : db.TEntity) :
  db.lessName x y = true -> named x = true -> named y = false.
Proof.
  unfold db.lessName, named. intros Hlt Hx.
  apply String.eqb_eq in Hx. destruct (String.eqb_spec (db.Name y) n) as [Hy|]; [|reflexivity].
  rewrite Hx, Hy, string_ltb_irrefl in Hlt. discriminate Hlt.
Qed.

Lemma insertionStep_filter (x : db.TEntity) (r : list db.TEntity) :
  List.filter named (sort.insertionStep db.lessName x r)
  = (if named x then [x] else []) ++ List.filter named r.
Proof.
  induction r as [|y r IH]; cbn [sort.insertionStep].
  - cbn [List.filter]. destruct (named x); reflexivity.
  - destruct (db.lessName x y) eqn:Hlt.
    + cbn [List.filter]. rewrite IH.
      pose proof (lessName_other_name x y Hlt) as Hxy.
      destruct (named x); [rewrite (Hxy eq_refl)|]; destruct (named y); reflexivity.
    + cbn [List.filter]. destruct (named x); reflexivity.
Qed.

Lemma fold_insertionStep_filter (data acc : list db.TEntity) :
  List.filter named
    (fold_left (fun revPrefix x => sort.insertionStep db.lessName x revPrefix) data acc)
  = rev (List.filter named data) ++ List.filter named acc.
Proof.
  revert acc. induction data as [|x data IH]; intros acc; [reflexivity|].
  cbn [fold_left List.filter]. rewrite IH, insertionStep_filter.
  destruct (named x); cbn [rev app]; [|reflexivity].
  rewrite <- app_assoc. reflexivity.
Qed.

Lemma filter_rev_list (l : list db.TEntity) :
  List.filter named (rev l) = rev (List.filter named l).
Proof.
  induction l as [|x l IH]; [reflexivity|].
  cbn [rev List.filter]. rewrite List.filter_app, IH. cbn [List.filter].
  destruct (named x); cbn [rev]; [reflexivity|]. rewrite app_nil_r. reflexivity.
Qed.

Lemma insertionSort_filter (data : list db.TEntity) :
  List.filter named (sort.insertionSort db.lessName data) = List.filter named data.
Proof.
  unfold sort.insertionSort, sort.insertionSortBy.
  rewrite filter_rev_list, fold_insertionStep_filter. cbn [List.filter].
  rewrite app_nil_r, rev_involutive. reflexivity.
Qed.

End InsertionStable.

(** Insertion keeps the records of one name in their order. *)
Lemma insertionSort_stable (data : list db.TEntity) :
  db.keepsInputOrder data (sort.insertionSort db.lessName data).
Proof. intros n. apply insertionSort_filter. Qed.

Section SortSliceContract.

(** What is assumed of [sort.Slice]: what its documentation promises, and
    that a slice of at most twelve elements is sorted by insertion, which
    is the first test of [pdqsort_func]. *)
Variable sortSlice :
  (db.TEntity -> db.TEntity -> bool) -> list db.TEntity -> list db.TEntity.
Hypothesis sortSlice_contract : sort.contract db.lessName sortSlice.
Hypothesis sortSlice_short :
  forall data : list db.TEntity,
    (length data <= 12)%nat ->
    sortSlice db.lessName data = sort.insertionSort db.lessName data.

Lemma sortIfMany_spec (result : list db.TEntity) :
  Permutation (db.sortIfMany sortSlice result) result
  /\ db.ascendingByName (db.sortIfMany sortSlice result).
Proof.
  unfold db.sortIfMany. destruct (1 <? length result)%nat eqn:Hmany.
  - destruct (sortSlice_contract result) as [Hp Ho].
    split; [exact Hp|apply ordered_ascendingByName; exact Ho].
  - split; [reflexivity|apply short_ascendingByName; exact Hmany].
Qed.

Lemma sortIfMany_stable (result : list db.TEntity) :
  (length result <= 12)%nat -> db.keepsInputOrder result (db.sortIfMany sortSlice result).
Proof.
  intros Hlen. unfold db.sortIfMany. destruct (1 <? length result)%nat.
  - rewrite (sortSlice_short result Hlen). apply insertionSort_stable.
  - intros n. reflexivity.
Qed.


End SortSliceContract.



(** ** The query drivers *)

Section Drivers.

Context {Row TDocument : Type}.
Variable st : db.TStore Row TDocument.
Variable clause : string -> string.
Variable aOptions : TQueryOptions.

Lemma QueryBy_sent :
  db.sent (db.QueryBy st aOptions)
  = if 0 <? db.countRows st (db.byCount aOptions)
    then [db.byCount aOptions; db.byDetail aOptions]
    else [db.byCount aOptions].
Proof.
  unfold db.QueryBy.
  destruct (0 <? db.countRows st (db.byCount aOptions)); [|reflexivity].
  destruct (db.doQueryAll st (db.byDetail aOptions)). reflexivity.
Qed.

Lemma QuerySearch_sent :
  db.sent (db.QuerySearch st clause aOptions)
  = if 0 <? db.countRows st (db.searchCount clause aOptions)
    then [db.searchCount clause aOptions; db.searchDetail clause aOptions]
    else [db.searchCount clause aOptions].
Proof.
  unfold db.QuerySearch.
  destruct (0 <? db.countRows st (db.searchCount clause aOptions)); [|reflexivity].
  destruct (db.doQueryAll st (db.searchDetail clause aOptions)). reflexivity.
Qed.

(** C5. When the count query finds no match, [QueryBy] returns the count
    0, no list and no error, and [QuerySearch] returns the count 0, no
    list and an error. Each of them sends the detail query after the
    count query exactly when the count is greater than zero, and sends
    the count query alone otherwise. *)
Theorem empty_result_asymmetry :
  (db.countRows st (db.byCount aOptions) = 0 ->
   db.rCount (db.QueryBy st aOptions) = 0
   /\ db.rList (db.QueryBy st aOptions) = None
   /\ db.rErr (db.QueryBy st aOptions) = None)
  /\ (db.countRows st (db.searchCount clause aOptions) = 0 ->
      db.rCount (db.QuerySearch st clause aOptions) = 0
      /\ db.rList (db.QuerySearch st clause aOptions) = None
      /\ db.rErr (db.QuerySearch st clause aOptions) = Some "No documents found"
      /\ db.rErr (db.QuerySearch st clause aOptions) <> None)
  /\ (db.sent (db.QueryBy st aOptions)
      = if 0 <? db.countRows st (db.byCount aOptions)
        then [db.byCount aOptions; db.byDetail aOptions]
        else [db.byCount aOptions])
  /\ (db.sent (db.QuerySearch st clause aOptions)
      = if 0 <? db.countRows st (db.searchCount clause aOptions)
        then [db.searchCount clause aOptions; db.searchDetail clause aOptions]
        else [db.searchCount clause aOptions]).
Proof.
  split; [|split; [|split]].
  - intros Hzero. unfold db.QueryBy. rewrite Hzero. cbn. auto.
  - intros Hzero. unfold db.QuerySearch. rewrite Hzero. cbn.
    repeat split; congruence.
  - apply QueryBy_sent.
  - apply QuerySearch_sent.
Qed.

End Drivers.

Lemma empty_result_asymmetry_witness :
  let st : db.TStore Z unit :=
    db.mkStore Z unit (fun _ => inr [0]) (fun row => Some row) (fun _ => tt) in
  let r1 := db.QueryBy st defaultOptions in
  let r2 := db.QuerySearch st (fun _ => "WHERE 0 ") defaultOptions in
  (db.rCount r1 = 0 /\ db.rList r1 = None /\ db.rErr r1 = None)
  /\ (db.rCount r2 = 0 /\ db.rList r2 = None
      /\ db.rErr r2 = Some "No documents found" /\ db.rErr r2 <> None).
Proof.
  intros st r1 r2.
  pose proof (empty_result_asymmetry st (fun _ => "WHERE 0 ") defaultOptions)
    as (Hby & Hsearch & _).
  split; [apply Hby; reflexivity|apply Hsearch; reflexivity].
Defined.

(** ** Bytes *)

Lemma byte_range (c : ascii) : 0 <= byte c < 256.
Proof.
  unfold byte. pose proof (N_ascii_bounded c) as H. lia.
Qed.

Lemma chr_byte (c : ascii) : chr (byte c) = c.
Proof.
  unfold chr, byte. rewrite Z.mod_small by (pose proof (N_ascii_bounded c); lia).
  rewrite N2Z.id. apply ascii_N_embedding.
Qed.

Lemma byte_chr (z : Z) : 0 <= z < 256 -> byte (chr z) = z.
Proof.
  intros H. unfold chr, byte. rewrite Z.mod_small by lia.
  rewrite N_ascii_embedding by lia. lia.
Qed.

Lemma byte_inj (a b : ascii) : byte a = byte b -> a = b.
Proof. intros H. rewrite <- (chr_byte a), <- (chr_byte b), H. reflexivity. Qed.

Lemma ascii_eqb_byte (a b : ascii) : Ascii.eqb a b = (byte a =? byte b).
Proof.
  destruct (Ascii.eqb_spec a b) as [->|Hne].
  - symmetry. apply Z.eqb_refl.
  - symmetry. apply Z.eqb_neq. intros H. apply Hne, byte_inj, H.
Qed.

Lemma append_cons (x : ascii) (a b : string) :
  String x a +:+ b = String x (a +:+ b).
Proof. reflexivity. Qed.

Lemma append_nil_l (a : string) : EmptyString +:+ a = a.
Proof. reflexivity. Qed.

Lemma append_assoc (a b c : string) : (a +:+ b) +:+ c = a +:+ (b +:+ c).
Proof.
  induction a as [|x a IH]; [reflexivity|].
  rewrite !append_cons. f_equal. exact IH.
Qed.

Lemma append_nil_r (a : string) : a +:+ EmptyString = a.
Proof.
  induction a as [|x a IH]; [reflexivity|].
  rewrite append_cons. f_equal. exact IH.
Qed.

Lemma append_length (a b : string) :
  String.length (a +:+ b) = (String.length a + String.length b)%nat.
Proof.
  induction a as [|x a IH]; [reflexivity|].
  rewrite append_cons. cbn [String.length Nat.add]. f_equal. exact IH.
Qed.

(** ** Printing and parsing numbers *)

Lemma digit_chr (d : Z) :
  0 <= d < 10 ->
  strconv.isDigit (chr (48 + d)) = true /\ byte (chr (48 + d)) - 48 = d.
Proof.
  intros Hd. unfold strconv.isDigit. rewrite byte_chr by lia.
  split; [|lia].
  apply andb_true_intro. split; apply Z.leb_le; lia.
Qed.

Lemma parseUintLoop_digit (maxVal : Z) (d n : Z) (rest : string) :
  0 <= d < 10 -> 0 <= n -> n * 10 + d <= maxVal -> maxVal <= maxUint64 ->
  strconv.parseUintLoop maxVal (String (chr (48 + d)) rest) n
  = strconv.parseUintLoop maxVal rest (n * 10 + d).
Proof.
  intros Hd Hn Hfit Hmax. cbn [strconv.parseUintLoop].
  destruct (digit_chr d Hd) as [-> ->].
  unfold maxUint64, strconv.cutoff10, maxUint64 in *.
  change (2 ^ 64 - 1) with 18446744073709551615 in *.
  change (18446744073709551615 / 10 + 1) with 1844674407370955162.
  destruct (Z.leb_spec 1844674407370955162 n); [lia|].
  rewrite (to_uint_small (n * 10 + d))
    by (unfold is_uint, uint64_mod; change (2 ^ 64) with 18446744073709551616; lia).
  destruct (Z.ltb_spec (n * 10 + d) (n * 10)); [lia|].
  destruct (Z.ltb_spec maxVal (n * 10 + d)); [lia|].
  reflexivity.
Qed.

Lemma parseUintLoop_formatBits (fuel : nat) :
  forall (u maxVal : Z) (acc : string),
    0 <= u < 10 ^ Z.of_nat fuel -> u <= maxVal -> maxVal <= maxUint64 ->
    strconv.parseUintLoop maxVal (strconv.formatBits fuel u acc) 0
    = strconv.parseUintLoop maxVal acc u.
Proof.
  induction fuel as [|f IH]; intros u maxVal acc Hu Hfit Hmax.
  - change (10 ^ Z.of_nat 0) with 1 in Hu. assert (u = 0) as -> by lia. reflexivity.
  - cbn [strconv.formatBits].
    pose proof (Z.mod_pos_bound u 10 ltac:(lia)) as Hd.
    pose proof (Z.div_mod u 10 ltac:(lia)) as Hdm.
    destruct (Z.ltb_spec u 10) as [Hsmall|Hbig].
    + rewrite parseUintLoop_digit by lia.
      rewrite Z.mod_small by lia. reflexivity.
    + rewrite IH.
      * rewrite parseUintLoop_digit by lia.
        f_equal. lia.
      * split; [apply Z.div_pos; lia|].
        apply Z.div_lt_upper_bound; [lia|].
        rewrite Nat2Z.inj_succ, Z.pow_succ_r in Hu by lia. lia.
      * lia.
      * exact Hmax.
Qed.

Lemma formatBits_digits (fuel : nat) :
  forall (u : Z) (acc : string),
    0 <= u -> (0 < fuel)%nat ->
    exists c ds,
      strconv.formatBits fuel u acc = String c ds +:+ acc
      /\ allDigits (String c ds) = true.
Proof.
  induction fuel as [|f IH]; intros u acc Hu Hfuel; [lia|].
  cbn [strconv.formatBits].
  pose proof (Z.mod_pos_bound u 10 ltac:(lia)) as Hd.
  destruct (digit_chr (u mod 10) Hd) as [Hdig _].
  destruct (Z.ltb_spec u 10) as [Hsmall|Hbig].
  - exists (chr (48 + u mod 10)), EmptyString. split; [reflexivity|].
    cbn [allDigits]. rewrite Hdig. reflexivity.
  - destruct f as [|f'].
    + cbn [strconv.formatBits].
      exists (chr (48 + u mod 10)), EmptyString. split; [reflexivity|].
      cbn [allDigits]. rewrite Hdig. reflexivity.
    + destruct (IH (u / 10) (String (chr (48 + u mod 10)) acc)) as (c & ds & Heq & Hall);
        [apply Z.div_pos; lia|lia|].
      exists c, (ds +:+ str1 (chr (48 + u mod 10))). split.
      * rewrite Heq. rewrite !append_cons. f_equal.
        rewrite append_assoc. reflexivity.
      * cbn [allDigits] in *. apply andb_prop in Hall as [Hc Hds].
        rewrite Hc. cbn [andb].
        clear - Hds Hdig. induction ds as [|x ds IHds].
        -- rewrite append_nil_l. unfold str1. cbn [allDigits].
           rewrite Hdig. reflexivity.
        -- cbn [allDigits] in Hds. apply andb_prop in Hds as [Hx Hds].
           rewrite append_cons. cbn [allDigits]. rewrite Hx. cbn [andb].
           apply IHds. exact Hds.
Qed.

Lemma ParseUint_FormatUint (u bits : Z) :
  0 <= u < 2 ^ 64 -> bits = 0 \/ bits = 64 ->
  strconv.ParseUint (strconv.FormatUint u) bits = (u, None).
Proof.
  intros Hu Hbits. unfold strconv.FormatUint.
  destruct (formatBits_digits 20 u EmptyString) as (c & ds & Heq & _); [lia|lia|].
  rewrite append_cons in Heq.
  unfold strconv.ParseUint.
  assert (Hbits' : (if bits =? 0 then 64 else bits) = 64)
    by (destruct Hbits as [-> | ->]; reflexivity).
  rewrite Hbits'.
  destruct (strconv.formatBits 20 u EmptyString) as [|c' s'] eqn:Hform;
    [discriminate Heq|].
  rewrite <- Hform.
  rewrite parseUintLoop_formatBits.
  - reflexivity.
  - change (Z.of_nat 20) with 20. lia.
  - lia.
  - unfold maxUint64. lia.
Qed.

Lemma FormatUint_digits (u : Z) :
  0 <= u ->
  exists c ds, strconv.FormatUint u = String c ds /\ allDigits (String c ds) = true.
Proof.
  intros Hu. unfold strconv.FormatUint.
  destruct (formatBits_digits 20 u EmptyString) as (c & ds & Heq & Hall); [lia|lia|].
  exists c, ds. rewrite Heq, append_cons, append_nil_r. auto.
Qed.

Lemma ParseInt_FormatInt (i : Z) :
  is_int i -> strconv.ParseInt (strconv.FormatInt i) 64 = (i, None).
Proof.
  unfold is_int, minInt64, maxInt64. intros Hi.
  unfold strconv.FormatInt.
  destruct (Z.ltb_spec i 0) as [Hneg|Hpos].
  - unfold strconv.ParseInt.
    change (Ascii.eqb "-" "-") with true. change (Ascii.eqb "-" "+") with false.
    cbn [orb]. rewrite ParseUint_FormatUint by lia.
    change (64 =? 0) with false. cbn [negb andb].
    change (2 ^ (64 - 1)) with 9223372036854775808.
    destruct (Z.ltb_spec 9223372036854775808 (- i)); [lia|].
    f_equal. lia.
  - destruct (FormatUint_digits i Hpos) as (c & ds & Heq & Hall).
    pose proof (ParseUint_FormatUint i 64 ltac:(lia) ltac:(auto)) as Hparse.
    rewrite Heq in *. unfold strconv.ParseInt.
    cbn [allDigits] in Hall. apply andb_prop in Hall as [Hc _].
    assert (Hplus : Ascii.eqb c "+" = false).
    { rewrite ascii_eqb_byte. unfold strconv.isDigit in Hc.
      apply andb_prop in Hc as [H1 H2]. apply Z.leb_le in H1.
      apply Z.eqb_neq. change (byte "+") with 43. lia. }
    assert (Hminus : Ascii.eqb c "-" = false).
    { rewrite ascii_eqb_byte. unfold strconv.isDigit in Hc.
      apply andb_prop in Hc as [H1 H2]. apply Z.leb_le in H1.
      apply Z.eqb_neq. change (byte "-") with 45. lia. }
    rewrite Hplus, Hminus. cbn [orb]. rewrite Hparse.
    change (64 =? 0) with false. cbn [negb andb].
    change (2 ^ (64 - 1)) with 9223372036854775808.
    destruct (Z.leb_spec 9223372036854775808 i); [lia|].
    reflexivity.
Qed.

(** ** UTF-8 *)

Lemma div_mod_range (a base q : Z) :
  0 < base -> q * base <= a < (q + 1) * base ->
  a / base = q /\ a mod base = a - q * base.
Proof.
  intros Hb Ha.
  assert (Hq : a / base = q).
  { symmetry. apply (Z.div_unique a base q (a - q * base)); lia. }
  split; [exact Hq|].
  pose proof (Z.div_mod a base ltac:(lia)) as Hdm. rewrite Hq in Hdm. lia.
Qed.

Lemma first_Some (b0 : Z) (sz : nat) (lo hi : Z) :
  utf8.first b0 = Some (sz, lo, hi) ->
  (sz = 2%nat /\ 194 <= b0 <= 223 /\ lo = 128 /\ hi = 191)
  \/ (sz = 3%nat /\ b0 = 224 /\ lo = 160 /\ hi = 191)
  \/ (sz = 3%nat /\ 225 <= b0 <= 236 /\ lo = 128 /\ hi = 191)
  \/ (sz = 3%nat /\ b0 = 237 /\ lo = 128 /\ hi = 159)
  \/ (sz = 3%nat /\ 238 <= b0 <= 239 /\ lo = 128 /\ hi = 191)
  \/ (sz = 4%nat /\ b0 = 240 /\ lo = 144 /\ hi = 191)
  \/ (sz = 4%nat /\ 241 <= b0 <= 243 /\ lo = 128 /\ hi = 191)
  \/ (sz = 4%nat /\ b0 = 244 /\ lo = 128 /\ hi = 143).
Proof.
  unfold utf8.first. repeat zcase; intros Heq; inversion Heq; subst; lia.
Qed.

Lemma first_None_or (b0 : Z) :
  128 <= b0 < 256 ->
  utf8.first b0 = None \/ exists sz lo hi, utf8.first b0 = Some (sz, lo, hi).
Proof. intros _. destruct (utf8.first b0) as [[[sz lo] hi]|]; eauto. Qed.

Lemma decode2 (c0 c1 : ascii) (t : string) :
  seq2 (byte c0) (byte c1) ->
  utf8.DecodeRune (String c0 (String c1 t)) = (rune2 (byte c0) (byte c1), 2%nat)
  /\ utf8.EncodeRune (rune2 (byte c0) (byte c1)) = String c0 (str1 c1)
  /\ 128 <= rune2 (byte c0) (byte c1) <= 2047.
Proof.
  unfold seq2, rune2. intros (H0 & H1).
  destruct (div_mod_range (byte c0) 32 6) as [_ Hm0]; [lia|lia|].
  destruct (div_mod_range (byte c1) 64 2) as [_ Hm1]; [lia|lia|].
  set (r := (byte c0 - 192) * 64 + (byte c1 - 128)).
  assert (Hr : 128 <= r <= 2047) by (unfold r; lia).
  destruct (div_mod_range r 64 (byte c0 - 192)) as [Hd Hm]; [lia|unfold r; lia|].
  split; [|split; [|exact Hr]].
  - unfold utf8.DecodeRune, utf8.first, utf8.RuneSelf.
    cbn [String.length].
    repeat (zcase; try lia); cbn [orb Nat.ltb Nat.leb].
    all: rewrite ?Hm0, ?Hm1; unfold r; f_equal; lia.
  - unfold utf8.EncodeRune, utf8.RuneSelf.
    repeat (zcase; try lia); cbn [andb].
    rewrite Hd, Hm. unfold r.
    replace (192 + (byte c0 - 192)) with (byte c0) by lia.
    replace (128 + ((byte c0 - 192) * 64 + (byte c1 - 128) - (byte c0 - 192) * 64))
      with (byte c1) by lia.
    rewrite !chr_byte. reflexivity.
Qed.

Lemma decode3 (c0 c1 c2 : ascii) (t : string) :
  seq3 (byte c0) (byte c1) (byte c2) ->
  utf8.DecodeRune (String c0 (String c1 (String c2 t)))
  = (rune3 (byte c0) (byte c1) (byte c2), 3%nat)
  /\ utf8.EncodeRune (rune3 (byte c0) (byte c1) (byte c2))
     = String c0 (String c1 (str1 c2))
  /\ 2048 <= rune3 (byte c0) (byte c1) (byte c2) <= 65535
  /\ utf8.ValidRune (rune3 (byte c0) (byte c1) (byte c2)) = true.
Proof.
  unfold seq3, rune3. intros (H01 & H2).
  assert (H0 : 224 <= byte c0 <= 239) by lia.
  assert (H1 : 128 <= byte c1 <= 191) by lia.
  destruct (div_mod_range (byte c0) 16 14) as [_ Hm0]; [lia|lia|].
  destruct (div_mod_range (byte c1) 64 2) as [_ Hm1]; [lia|lia|].
  destruct (div_mod_range (byte c2) 64 2) as [_ Hm2]; [lia|lia|].
  set (r := (byte c0 - 224) * 4096 + (byte c1 - 128) * 64 + (byte c2 - 128)).
  assert (Hr : 2048 <= r <= 65535) by (unfold r; lia).
  assert (Hsur : r < 55296 \/ 57343 < r) by (unfold r; lia).
  destruct (div_mod_range r 4096 (byte c0 - 224)) as [Hd12 _]; [lia|unfold r; lia|].
  destruct (div_mod_range r 64 ((byte c0 - 224) * 64 + (byte c1 - 128)))
    as [Hd6 Hm6]; [lia|unfold r; lia|].
  destruct (div_mod_range ((byte c0 - 224) * 64 + (byte c1 - 128)) 64 (byte c0 - 224))
    as [_ Hmid]; [lia|lia|].
  assert (Hvalid : utf8.ValidRune r = true).
  { unfold utf8.ValidRune, utf8.surrogateMin, utf8.surrogateMax, utf8.MaxRune.
    repeat (zcase; try lia); reflexivity. }
  split; [|split; [|split; [exact Hr|exact Hvalid]]].
  - unfold utf8.DecodeRune, utf8.first, utf8.isCont, utf8.RuneSelf.
    cbn [String.length].
    repeat (zcase; try lia); cbn [orb andb negb Nat.ltb Nat.leb].
    all: rewrite ?Hm0, ?Hm1, ?Hm2; unfold r; f_equal; lia.
  - unfold utf8.EncodeRune, utf8.RuneSelf. rewrite Hvalid.
    repeat (zcase; try lia); cbn [andb negb].
    rewrite Hd12, Hd6, Hmid, Hm6. unfold r.
    replace (224 + (byte c0 - 224)) with (byte c0) by lia.
    replace (128 + ((byte c0 - 224) * 64 + (byte c1 - 128) - (byte c0 - 224) * 64))
      with (byte c1) by lia.
    replace (128 + ((byte c0 - 224) * 4096 + (byte c1 - 128) * 64 + (byte c2 - 128)
                    - ((byte c0 - 224) * 64 + (byte c1 - 128)) * 64))
      with (byte c2) by lia.
    rewrite !chr_byte. reflexivity.
Qed.

Lemma decode4 (c0 c1 c2 c3 : ascii) (t : string) :
  seq4 (byte c0) (byte c1) (byte c2) (byte c3) ->
  utf8.DecodeRune (String c0 (String c1 (String c2 (String c3 t))))
  = (rune4 (byte c0) (byte c1) (byte c2) (byte c3), 4%nat)
  /\ utf8.EncodeRune (rune4 (byte c0) (byte c1) (byte c2) (byte c3))
     = String c0 (String c1 (String c2 (str1 c3)))
  /\ 65536 <= rune4 (byte c0) (byte c1) (byte c2) (byte c3) <= 1114111
  /\ utf8.ValidRune (rune4 (byte c0) (byte c1) (byte c2) (byte c3)) = true.
Proof.
  unfold seq4, rune4. intros (H01 & H2 & H3).
  assert (H0 : 240 <= byte c0 <= 244) by lia.
  assert (H1 : 128 <= byte c1 <= 191) by lia.
  destruct (div_mod_range (byte c0) 8 30) as [_ Hm0]; [lia|lia|].
  destruct (div_mod_range (byte c1) 64 2) as [_ Hm1]; [lia|lia|].
  destruct (div_mod_range (byte c2) 64 2) as [_ Hm2]; [lia|lia|].
  destruct (div_mod_range (byte c3) 64 2) as [_ Hm3]; [lia|lia|].
  set (x0 := byte c0 - 240). set (x1 := byte c1 - 128).
  set (x2 := byte c2 - 128). set (x3 := byte c3 - 128).
  set (r := x0 * 262144 + x1 * 4096 + x2 * 64 + x3).
  assert (Hx : 0 <= x0 <= 4 /\ 0 <= x1 <= 63 /\ 0 <= x2 <= 63 /\ 0 <= x3 <= 63)
    by (unfold x0, x1, x2, x3; lia).
  assert (Hr : 65536 <= r <= 1114111) by (unfold r, x0, x1, x2, x3; lia).
  destruct (div_mod_range r 262144 x0) as [Hd18 _]; [lia|unfold r; lia|].
  destruct (div_mod_range r 4096 (x0 * 64 + x1)) as [Hd12 _]; [lia|unfold r; lia|].
  destruct (div_mod_range r 64 (x0 * 4096 + x1 * 64 + x2)) as [Hd6 Hm6];
    [lia|unfold r; lia|].
  destruct (div_mod_range (x0 * 64 + x1) 64 x0) as [_ Hmid12]; [lia|lia|].
  destruct (div_mod_range (x0 * 4096 + x1 * 64 + x2) 64 (x0 * 64 + x1))
    as [_ Hmid6]; [lia|lia|].
  assert (Hvalid : utf8.ValidRune r = true).
  { unfold utf8.ValidRune, utf8.surrogateMin, utf8.surrogateMax, utf8.MaxRune.
    repeat (zcase; try lia); reflexivity. }
  split; [|split; [|split; [exact Hr|exact Hvalid]]].
  - unfold utf8.DecodeRune, utf8.first, utf8.isCont, utf8.RuneSelf.
    cbn [String.length].
    repeat (zcase; try lia); cbn [orb andb negb Nat.ltb Nat.leb].
    all: rewrite ?Hm0, ?Hm1, ?Hm2, ?Hm3; unfold r, x0, x1, x2, x3; f_equal; lia.
  - unfold utf8.EncodeRune, utf8.RuneSelf. rewrite Hvalid.
    repeat (zcase; try lia); cbn [andb negb].
    rewrite Hd18, Hd12, Hd6, Hmid12, Hmid6, Hm6.
    replace (240 + x0) with (byte c0) by (unfold x0; lia).
    replace (128 + (x0 * 64 + x1 - x0 * 64)) with (byte c1) by (unfold x1; lia).
    replace (128 + (x0 * 4096 + x1 * 64 + x2 - (x0 * 64 + x1) * 64))
      with (byte c2) by (unfold x2; lia).
    replace (128 + (r - (x0 * 4096 + x1 * 64 + x2) * 64))
      with (byte c3) by (unfold r, x3; lia).
    rewrite !chr_byte. reflexivity.
Qed.

Lemma decode1 (c0 : ascii) (t : string) :
  byte c0 < 128 ->
  utf8.DecodeRune (String c0 t) = (byte c0, 1%nat)
  /\ utf8.EncodeRune (byte c0) = str1 c0.
Proof.
  intros H0. pose proof (byte_range c0) as Hb.
  unfold utf8.DecodeRune, utf8.EncodeRune, utf8.RuneSelf.
  repeat (zcase; try lia); cbn [andb]. rewrite chr_byte. auto.
Qed.

Lemma wellFormedStart_decode (s : string) (r : Z) (w : nat) :
  wellFormedStart s r w -> utf8.DecodeRune s = (r, w).
Proof.
  intros H. destruct H.
  - apply decode1. assumption.
  - apply decode2. assumption.
  - apply decode3. assumption.
  - apply decode4. assumption.
Qed.

(** Every start of a string is well formed, or decodes to the error rune
    of width 1 at a byte outside ASCII. *)
Lemma DecodeRune_inv (c0 : ascii) (s1 : string) (r : Z) (w : nat) :
  utf8.DecodeRune (String c0 s1) = (r, w) ->
  (r = utf8.RuneError /\ w = 1%nat /\ 128 <= byte c0)
  \/ wellFormedStart (String c0 s1) r w.
Proof.
  intros H0. pose proof H0 as H. pose proof (byte_range c0) as Hb0.
  unfold utf8.DecodeRune, utf8.RuneSelf, utf8.isCont in H.
  destruct (Z.ltb_spec (byte c0) 128) as [Hascii|Hhigh].
  { inversion H; subst. right. constructor. exact Hascii. }
  assert (Hbad : forall x y, (utf8.RuneError, 1%nat) = (x, y) ->
            (x = utf8.RuneError /\ y = 1%nat /\ 128 <= byte c0)
            \/ wellFormedStart (String c0 s1) x y).
  { intros x y Heq. inversion Heq. left. auto. }
  destruct (utf8.first (byte c0)) as [[[sz lo] hi]|] eqn:Hf; [|auto].
  apply first_Some in Hf.
  destruct s1 as [|c1 s2]; [auto|].
  pose proof (byte_range c1) as Hb1.
  assert (Hsz : sz = 2%nat \/ sz = 3%nat \/ sz = 4%nat) by lia.
  destruct Hsz as [-> | [-> | ->]]; cbn [String.length Nat.ltb Nat.leb] in H.
  - hcase H; [auto|]. boolZ.
    right. assert (Hs : seq2 (byte c0) (byte c1)) by (unfold seq2; lia).
    pose proof (wellFormedStart_decode _ _ _ (wf2 c0 c1 s2 Hs)) as Hd.
    rewrite Hd in H0. inversion H0; subst. constructor. exact Hs.
  - destruct s2 as [|c2 s3]; [cbn in H; auto|].
    cbn [String.length Nat.ltb Nat.leb] in H.
    hcase H; [auto|]. hcase H; [auto|]. boolZ.
    right.
    assert (Hs : seq3 (byte c0) (byte c1) (byte c2)) by (unfold seq3; lia).
    pose proof (wellFormedStart_decode _ _ _ (wf3 c0 c1 c2 s3 Hs)) as Hd.
    rewrite Hd in H0. inversion H0; subst. constructor. exact Hs.
  - destruct s2 as [|c2 s3]; [cbn in H; auto|].
    destruct s3 as [|c3 s4].
    { cbn [String.length Nat.ltb Nat.leb] in H. auto. }
    cbn [String.length Nat.ltb Nat.leb] in H.
    hcase H; [auto|]. hcase H; [auto|]. hcase H; [auto|]. boolZ.
    right.
    assert (Hs : seq4 (byte c0) (byte c1) (byte c2) (byte c3))
      by (unfold seq4; lia).
    pose proof (wellFormedStart_decode _ _ _ (wf4 c0 c1 c2 c3 s4 Hs)) as Hd.
    rewrite Hd in H0. inversion H0; subst. constructor. exact Hs.
Qed.

Lemma concat_cons (x : string) (l : list string) :
  String.concat EmptyString (x :: l) = x +:+ String.concat EmptyString l.
Proof.
  destruct l as [|y l]; cbn [String.concat].
  - rewrite append_nil_r. reflexivity.
  - reflexivity.
Qed.

Lemma segmentsLoop_fuel (k : nat) :
  forall (k' : nat) (s : string),
    (String.length s <= k)%nat -> (String.length s <= k')%nat ->
    utf8.segmentsLoop k s = utf8.segmentsLoop k' s.
Proof.
  induction k as [|k IH]; intros k' s Hk Hk'.
  - destruct s; [|cbn in Hk; lia]. destruct k'; reflexivity.
  - destruct s as [|c0 s1]; [destruct k'; reflexivity|].
    destruct k' as [|k']; [cbn in Hk'; lia|].
    cbn [utf8.segmentsLoop].
    destruct (utf8.DecodeRune (String c0 s1)) as [r w] eqn:Hd.
    f_equal.
    assert (Hdrop : (String.length (utf8.dropBytes w (String c0 s1))
                     <= String.length s1)%nat).
    { destruct (DecodeRune_inv _ _ _ _ Hd) as [(_ & -> & _)|Hwf].
      - cbn. lia.
      - inversion Hwf; subst; cbn; lia. }
    cbn [String.length] in Hk, Hk'. apply IH; lia.
Qed.

Lemma segments_start (s t : string) (r : Z) (w : nat) :
  wellFormedStart (s +:+ t) r w -> String.length s = w ->
  utf8.segments (s +:+ t) = (r, s) :: utf8.segments t.
Proof.
  intros Hwf Hlen.
  pose proof (wellFormedStart_decode _ _ _ Hwf) as Hd.
  unfold utf8.segments.
  destruct (s +:+ t) as [|c0 s1] eqn:Hst.
  { inversion Hwf. }
  cbn [String.length utf8.segmentsLoop]. rewrite Hd.
  assert (Htake : utf8.takeBytes w (String c0 s1) = s
                  /\ utf8.dropBytes w (String c0 s1) = t).
  { rewrite <- Hst. subst w. clear. induction s as [|x s IH]; cbn.
    - split; [destruct t; reflexivity|reflexivity].
    - destruct IH as [IH1 IH2]. rewrite append_cons. cbn. rewrite IH1, IH2. auto. }
  destruct Htake as [-> ->]. f_equal.
  apply segmentsLoop_fuel; [|lia].
  assert (Hl : String.length (String c0 s1) = (w + String.length t)%nat)
    by (rewrite <- Hst, append_length; lia).
  cbn [String.length] in Hl.
  assert (1 <= w)%nat by (inversion Hwf; lia). lia.
Qed.

Lemma segments_invalid (c0 : ascii) (t : string) :
  utf8.DecodeRune (String c0 t) = (utf8.RuneError, 1%nat) ->
  utf8.segments (String c0 t) = (utf8.RuneError, str1 c0) :: utf8.segments t.
Proof.
  intros Hd. unfold utf8.segments. cbn [String.length utf8.segmentsLoop].
  rewrite Hd. cbn [utf8.takeBytes utf8.dropBytes]. reflexivity.
Qed.

(** A well-formed start is a prefix of as many bytes as its width, which
    is the encoding of its rune. *)
Lemma wellFormedStart_shape (s : string) (r : Z) (w : nat) :
  wellFormedStart s r w ->
  exists p t,
    s = p +:+ t /\ String.length p = w /\ (1 <= w)%nat
    /\ wellFormedStart p r w /\ utf8.EncodeRune r = p.
Proof.
  intros H. destruct H as [c0 t Ha|c0 c1 t Hs|c0 c1 c2 t Hs|c0 c1 c2 c3 t Hs].
  - exists (str1 c0), t. repeat split; [lia|constructor; exact Ha|].
    apply (decode1 c0 EmptyString Ha).
  - exists (String c0 (str1 c1)), t. repeat split; [lia|constructor; exact Hs|].
    apply (decode2 c0 c1 EmptyString Hs).
  - exists (String c0 (String c1 (str1 c2))), t.
    repeat split; [lia|constructor; exact Hs|].
    apply (decode3 c0 c1 c2 EmptyString Hs).
  - exists (String c0 (String c1 (String c2 (str1 c3)))), t.
    repeat split; [lia|constructor; exact Hs|].
    apply (decode4 c0 c1 c2 c3 EmptyString Hs).
Qed.

(** The segments of a string are good, and their bytes are the string. *)
Lemma segments_good (n : nat) :
  forall s : string,
    (String.length s <= n)%nat ->
    Forall goodSegment (utf8.segments s) /\ segmentBytes (utf8.segments s) = s.
Proof.
  unfold segmentBytes.
  induction n as [|n IH]; intros s Hn.
  - destruct s; [|cbn in Hn; lia]. split; [constructor|reflexivity].
  - destruct s as [|c0 s1]; [split; [constructor|reflexivity]|].
    cbn [String.length] in Hn.
    destruct (utf8.DecodeRune (String c0 s1)) as [r w] eqn:Hd.
    destruct (DecodeRune_inv _ _ _ _ Hd) as [(-> & -> & Hhigh)|Hwf].
    + rewrite (segments_invalid _ _ Hd).
      destruct (IH s1) as [IHg IHb]; [lia|].
      split.
      * constructor; [|exact IHg]. left. cbn. eauto.
      * cbn [map snd]. rewrite concat_cons, IHb. reflexivity.
    + destruct (wellFormedStart_shape _ _ _ Hwf) as (p & t & Hs & Hl & Hw & Hp & _).
      rewrite Hs in Hwf |- *.
      rewrite (segments_start p t _ _ Hwf Hl).
      assert (Hlen : (String.length t <= n)%nat).
      { assert (Hsl : String.length (String c0 s1) = String.length (p +:+ t))
          by (rewrite Hs; reflexivity).
        rewrite append_length in Hsl. cbn [String.length] in Hsl. lia. }
      destruct (IH t Hlen) as [IHg IHb].
      split.
      * constructor; [|exact IHg]. right. cbn [fst snd]. rewrite Hl. exact Hp.
      * cbn [map snd]. rewrite concat_cons, IHb. reflexivity.
Qed.

(** ** The runes of a text *)

Lemma wellFormedStart_app (p : string) (r : Z) (w : nat) (X : string) :
  wellFormedStart p r w -> String.length p = w -> wellFormedStart (p +:+ X) r w.
Proof.
  intros H Hlen.
  destruct H as [c0 t Ha|c0 c1 t Hs|c0 c1 c2 t Hs|c0 c1 c2 c3 t Hs];
    cbn [String.length] in Hlen;
    (destruct t; [|cbn in Hlen; lia]);
    rewrite ?append_cons, append_nil_l; constructor; assumption.
Qed.

Lemma runes_start (p : string) (r : Z) (w : nat) (X : string) :
  wellFormedStart p r w -> String.length p = w ->
  utf8.runes (p +:+ X) = r :: utf8.runes X.
Proof.
  intros H Hlen. unfold utf8.runes.
  rewrite (segments_start p X r w (wellFormedStart_app _ _ _ X H Hlen) Hlen).
  reflexivity.
Qed.

Lemma runes_ascii (c : ascii) (X : string) :
  byte c < 128 -> utf8.runes (String c X) = byte c :: utf8.runes X.
Proof.
  intros Hc. change (String c X) with (str1 c +:+ X).
  apply (runes_start (str1 c) (byte c) 1 X); [constructor; exact Hc|reflexivity].
Qed.

Lemma runes_nil : utf8.runes EmptyString = [].
Proof. reflexivity. Qed.

(** ** The loop of [quotedString] *)

Lemma quotedLoop_plain (r : Z) (R : list Z) :
  r <> byte ch_backslash -> r <> byte ch_dquote ->
  fmt.quotedLoop (r :: R)
  = '(buf, more) ← fmt.quotedLoop R; Some (utf8.EncodeRune r +:+ buf, more).
Proof.
  intros Hb Hq. cbn [fmt.quotedLoop].
  destruct (Z.eqb_spec r (byte ch_backslash)); [contradiction|].
  destruct (Z.eqb_spec r (byte ch_dquote)); [contradiction|].
  reflexivity.
Qed.

Lemma transparent_nil : transparent EmptyString.
Proof.
  exists []. split; [reflexivity|].
  intros R. cbn [app]. destruct (fmt.quotedLoop R) as [[buf more]|]; reflexivity.
Qed.

Lemma transparent_app (a b : string) :
  transparent a -> transparent b -> transparent (a +:+ b).
Proof.
  intros (ra & Hra & Hqa) (rb & Hrb & Hqb).
  exists (ra ++ rb). split.
  - intros X. rewrite append_assoc, Hra, Hrb, app_assoc. reflexivity.
  - intros R. rewrite <- app_assoc, Hqa, Hqb.
    destruct (fmt.quotedLoop R) as [[buf more]|]; cbn [mbind option_bind];
      [|reflexivity].
    rewrite append_assoc. reflexivity.
Qed.

Lemma transparent_rune (p : string) (r : Z) (w : nat) :
  wellFormedStart p r w -> String.length p = w ->
  r <> byte ch_backslash -> r <> byte ch_dquote ->
  transparent p.
Proof.
  intros Hwf Hlen Hb Hq.
  destruct (wellFormedStart_shape _ _ _ Hwf) as (p' & t & Hs & Hl & _ & _ & Henc).
  assert (Hp : p' = p).
  { assert (Ht : t = EmptyString).
    { assert (Hsl : String.length p = String.length (p' +:+ t)) by (rewrite <- Hs; reflexivity).
      rewrite append_length in Hsl. destruct t; [reflexivity|cbn in Hsl; lia]. }
    rewrite Hs, Ht, append_nil_r. reflexivity. }
  rewrite Hp in Henc.
  exists [r]. split.
  - intros X. apply (runes_start p r w X Hwf Hlen).
  - intros R. cbn [app]. rewrite quotedLoop_plain by assumption.
    rewrite Henc. reflexivity.
Qed.

Lemma transparent_char (c : ascii) :
  byte c < 128 -> c <> ch_backslash -> c <> ch_dquote -> transparent (str1 c).
Proof.
  intros Hc Hb Hq.
  apply (transparent_rune (str1 c) (byte c) 1); [constructor; exact Hc|reflexivity| |].
  - intros H. apply Hb, byte_inj, H.
  - intros H. apply Hq, byte_inj, H.
Qed.

Lemma transparent_escape (c : ascii) :
  byte c < 128 -> transparent (String ch_backslash (str1 c)).
Proof.
  intros Hc. exists [byte ch_backslash; byte c]. split.
  - intros X.
    change (String ch_backslash (str1 c) +:+ X) with (String ch_backslash (String c X)).
    rewrite runes_ascii by (vm_compute; reflexivity).
    rewrite runes_ascii by exact Hc. reflexivity.
  - intros R. cbn [app fmt.quotedLoop].
    change (byte ch_backslash =? byte ch_backslash) with true. cbn match.
    destruct (decode1 ch_backslash EmptyString) as [_ ->]; [vm_compute; reflexivity|].
    destruct (decode1 c EmptyString Hc) as [_ ->].
    destruct (fmt.quotedLoop R) as [[buf more]|]; reflexivity.
Qed.

(** ** Hexadecimal digits *)

Lemma lowerhex_spec (d : Z) :
  0 <= d < 16 ->
  byte (strconv.lowerhex d) < 128
  /\ strconv.lowerhex d <> ch_backslash
  /\ strconv.lowerhex d <> ch_dquote
  /\ strconv.lowerhex d <> ch_nl
  /\ strconv.unhex (byte (strconv.lowerhex d)) = Some d.
Proof.
  intros Hd. unfold strconv.lowerhex.
  assert (Hne : forall (z : Z) (c : ascii), 0 <= z < 256 -> z <> byte c -> chr z <> c).
  { intros z c Hz Hzc Heq. apply Hzc. rewrite <- Heq. symmetry. apply byte_chr. exact Hz. }
  assert (Hbs : byte ch_backslash = 92) by reflexivity.
  assert (Hdq : byte ch_dquote = 34) by reflexivity.
  assert (Hnl : byte ch_nl = 10) by reflexivity.
  destruct (Z.ltb_spec d 10).
  - rewrite byte_chr by lia. repeat split; try lia; try (apply Hne; lia).
    unfold strconv.unhex. repeat (zcase; try lia); cbn [andb]. f_equal. lia.
  - rewrite byte_chr by lia. repeat split; try lia; try (apply Hne; lia).
    unfold strconv.unhex. repeat (zcase; try lia); cbn [andb]. f_equal. lia.
Qed.

Lemma hex_digit_range (v : Z) (k : nat) : 0 <= (v / 16 ^ Z.of_nat k) mod 16 < 16.
Proof. apply Z.mod_pos_bound. lia. Qed.

Lemma transparent_hexDigits (n : nat) (v : Z) : transparent (strconv.hexDigits n v).
Proof.
  induction n as [|k IH]; cbn [strconv.hexDigits]; [apply transparent_nil|].
  destruct (lowerhex_spec _ (hex_digit_range v k)) as (H1 & H2 & H3 & _).
  change (String ?c ?s) with (str1 c +:+ s).
  apply transparent_app; [apply transparent_char; assumption|exact IH].
Qed.

Lemma containsByte_cons (x : ascii) (s : string) (c : ascii) :
  strconv.containsByte (String x s) c = Ascii.eqb c x || strconv.containsByte s c.
Proof. reflexivity. Qed.

Lemma containsByte_app (a b : string) (c : ascii) :
  strconv.containsByte (a +:+ b) c
  = strconv.containsByte a c || strconv.containsByte b c.
Proof.
  induction a as [|x a IH]; [reflexivity|].
  rewrite append_cons, !containsByte_cons, IH, orb_assoc. reflexivity.
Qed.

Lemma containsByte_hexDigits (n : nat) (v : Z) :
  strconv.containsByte (strconv.hexDigits n v) ch_nl = false.
Proof.
  induction n as [|k IH]; cbn [strconv.hexDigits]; [reflexivity|].
  destruct (lowerhex_spec _ (hex_digit_range v k)) as (_ & _ & _ & H4 & _).
  rewrite containsByte_cons, IH, orb_false_r.
  destruct (Ascii.eqb_spec ch_nl (strconv.lowerhex ((v / 16 ^ Z.of_nat k) mod 16)));
    [congruence|reflexivity].
Qed.

Lemma unhexLoop_hexDigits (n : nat) :
  forall (v acc : Z) (X : string),
    0 <= v ->
    strconv.unhexLoop n (strconv.hexDigits n v +:+ X) acc
    = Some (acc * 16 ^ Z.of_nat n + v mod 16 ^ Z.of_nat n, X).
Proof.
  induction n as [|k IH]; intros v acc X Hv.
  - cbn [strconv.unhexLoop strconv.hexDigits]. rewrite append_nil_l.
    change (16 ^ Z.of_nat 0) with 1. rewrite Z.mod_1_r. do 2 f_equal. lia.
  - cbn [strconv.hexDigits]. rewrite append_cons. cbn [strconv.unhexLoop].
    destruct (lowerhex_spec _ (hex_digit_range v k)) as (_ & _ & _ & _ & ->).
    rewrite IH by exact Hv. do 2 f_equal.
    rewrite Nat2Z.inj_succ, Z.pow_succ_r by lia.
    rewrite (Z.mul_comm 16 (16 ^ Z.of_nat k)).
    rewrite (Z.rem_mul_r v (16 ^ Z.of_nat k) 16) by lia.
    lia.
Qed.

Lemma unhexLoop_hexDigits_small (n : nat) (v : Z) (X : string) :
  0 <= v < 16 ^ Z.of_nat n ->
  strconv.unhexLoop n (strconv.hexDigits n v +:+ X) 0 = Some (v, X).
Proof.
  intros Hv. rewrite unhexLoop_hexDigits by lia.
  rewrite Z.mod_small by lia. reflexivity.
Qed.

(** ** The text [Quote] writes for one segment *)

Lemma tokenOK_escape (c : ascii) (n : nat) (v : Z) (bytes : string) :
  byte c < 128 -> c <> ch_nl ->
  unquotesTo (String ch_backslash (String c (strconv.hexDigits n v))) bytes ->
  tokenOK (String ch_backslash (String c (strconv.hexDigits n v))) bytes.
Proof.
  intros Hc Hnl Hu. constructor.
  - change (String ch_backslash (String c (strconv.hexDigits n v)))
      with (String ch_backslash (str1 c) +:+ strconv.hexDigits n v).
    apply transparent_app; [apply transparent_escape; exact Hc|].
    apply transparent_hexDigits.
  - exact Hu.
  - discriminate.
  - rewrite !containsByte_cons, containsByte_hexDigits.
    destruct (Ascii.eqb_spec ch_nl c); [congruence|]. reflexivity.
  - rewrite containsByte_cons. cbn. discriminate.
Qed.

Lemma unquotesTo_letter (c : ascii) (code : Z) :
  (c, code) = ("a"%char, 7) \/ (c, code) = ("b"%char, 8) \/ (c, code) = ("f"%char, 12)
  \/ (c, code) = ("n"%char, 10) \/ (c, code) = ("r"%char, 13)
  \/ (c, code) = ("t"%char, 9) \/ (c, code) = ("v"%char, 11)
  \/ (c, code) = (ch_backslash, 92) \/ (c, code) = (ch_dquote, 34) ->
  unquotesTo (String ch_backslash (String c (strconv.hexDigits 0 0))) (str1 (chr code)).
Proof.
  intros H X. exists code, false.
  repeat (destruct H as [H|H]; [inversion H; subst; split; reflexivity|]).
  inversion H; subst; split; reflexivity.
Qed.

Lemma unquotesTo_x (v : Z) :
  0 <= v < 256 ->
  unquotesTo (String ch_backslash (String "x" (strconv.hexDigits 2 v))) (str1 (chr v)).
Proof.
  intros Hv X. exists v, false. split; [|unfold emitted; rewrite orb_true_r; reflexivity].
  change (strconv.UnquoteChar
            (String ch_backslash (String "x" (strconv.hexDigits 2 v)) +:+ X))
    with ('(v0, tail) ← strconv.unhexLoop 2 (strconv.hexDigits 2 v +:+ X) 0;
          Some (v0, false, tail)).
  rewrite unhexLoop_hexDigits_small by (change (16 ^ Z.of_nat 2) with 256; lia).
  reflexivity.
Qed.

Lemma unquotesTo_u (r : Z) :
  128 <= r < 65536 -> utf8.ValidRune r = true ->
  unquotesTo (String ch_backslash (String "u" (strconv.hexDigits 4 r)))
    (utf8.EncodeRune r).
Proof.
  intros Hr Hvalid X. exists r, true. split.
  - change (strconv.UnquoteChar
              (String ch_backslash (String "u" (strconv.hexDigits 4 r)) +:+ X))
      with ('(v0, tail) ← strconv.unhexLoop 4 (strconv.hexDigits 4 r +:+ X) 0;
            if utf8.ValidRune v0 then Some (v0, true, tail) else None).
    rewrite unhexLoop_hexDigits_small by (change (16 ^ Z.of_nat 4) with 65536; lia).
    cbn [mbind option_bind]. rewrite Hvalid. reflexivity.
  - unfold emitted, utf8.RuneSelf. destruct (Z.ltb_spec r 128); [lia|reflexivity].
Qed.

Lemma unquotesTo_U (r : Z) :
  128 <= r <= utf8.MaxRune -> utf8.ValidRune r = true ->
  unquotesTo (String ch_backslash (String "U" (strconv.hexDigits 8 r)))
    (utf8.EncodeRune r).
Proof.
  unfold utf8.MaxRune. intros Hr Hvalid X. exists r, true. split.
  - change (strconv.UnquoteChar
              (String ch_backslash (String "U" (strconv.hexDigits 8 r)) +:+ X))
      with ('(v0, tail) ← strconv.unhexLoop 8 (strconv.hexDigits 8 r +:+ X) 0;
            if utf8.ValidRune v0 then Some (v0, true, tail) else None).
    rewrite unhexLoop_hexDigits_small by (change (16 ^ Z.of_nat 8) with 4294967296; lia).
    cbn [mbind option_bind]. rewrite Hvalid. reflexivity.
  - unfold emitted, utf8.RuneSelf. destruct (Z.ltb_spec r 128); [lia|reflexivity].
Qed.

Lemma tokenOK_ascii (c : ascii) :
  byte c < 128 -> c <> ch_backslash -> c <> ch_dquote -> c <> ch_nl ->
  tokenOK (str1 c) (str1 c).
Proof.
  intros Hc Hb Hq Hnl. constructor.
  - apply transparent_char; assumption.
  - intros X. exists (byte c), false. split.
    + change (str1 c +:+ X) with (String c X). unfold strconv.UnquoteChar, utf8.RuneSelf.
      destruct (Ascii.eqb_spec c ch_dquote); [contradiction|].
      destruct (Z.leb_spec 128 (byte c)); [lia|].
      destruct (Ascii.eqb_spec c ch_backslash); [contradiction|]. reflexivity.
    + unfold emitted. rewrite orb_true_r, chr_byte. reflexivity.
  - discriminate.
  - unfold str1. rewrite containsByte_cons.
    destruct (Ascii.eqb_spec ch_nl c); [congruence|reflexivity].
  - reflexivity.
Qed.

(** A well-formed sequence of more than one byte. *)
Lemma multibyte_facts (p : string) (r : Z) (w : nat) :
  wellFormedStart p r w -> String.length p = w -> (1 < w)%nat ->
  128 <= r <= utf8.MaxRune /\ utf8.ValidRune r = true /\ utf8.EncodeRune r = p
  /\ (forall c : ascii, byte c < 128 -> strconv.containsByte p c = false)
  /\ (forall X : string,
        strconv.UnquoteChar (p +:+ X) = Some (r, true, X)).
Proof.
  intros Hwf Hlen Hw.
  assert (Hfresh : forall (c x : ascii), byte c < 128 -> 128 <= byte x ->
            Ascii.eqb c x = false).
  { intros c x Hc Hx. destruct (Ascii.eqb_spec c x) as [->|]; [lia|reflexivity]. }
  assert (Hval : forall v, 128 <= v <= 2047 -> utf8.ValidRune v = true).
  { intros v Hv. unfold utf8.ValidRune, utf8.surrogateMin.
    repeat (zcase; try lia); reflexivity. }
  assert (Hunq : forall (c0 : ascii) (s1 X : string) (w' : nat),
            128 <= byte c0 -> String.length (String c0 s1) = w' ->
            utf8.DecodeRune (String c0 s1 +:+ X) = (r, w') ->
            strconv.UnquoteChar (String c0 s1 +:+ X) = Some (r, true, X)).
  { intros c0 s1 X w' Hc0 Hl Hd. rewrite append_cons in *.
    unfold strconv.UnquoteChar, utf8.RuneSelf.
    rewrite (Ascii.eqb_sym c0 ch_dquote), (Hfresh ch_dquote c0)
      by (try lia; vm_compute; reflexivity).
    destruct (Z.leb_spec 128 (byte c0)); [|lia]. rewrite Hd.
    do 3 f_equal. rewrite <- append_cons. subst w'. clear.
    generalize (String c0 s1). intros p. induction p as [|x p IH]; [destruct X; reflexivity|].
    rewrite append_cons. cbn. exact IH. }
  unfold utf8.MaxRune.
  destruct Hwf as [c0 t Ha|c0 c1 t Hs|c0 c1 c2 t Hs|c0 c1 c2 c3 t Hs];
    cbn [String.length] in Hlen; try lia;
    (destruct t; [|cbn in Hlen; lia]).
  - destruct (decode2 c0 c1 EmptyString Hs) as (_ & Henc & Hr).
    unfold seq2 in Hs.
    split; [lia|]. split; [apply Hval; exact Hr|]. split; [exact Henc|]. split.
    + intros c Hc. rewrite !containsByte_cons, !Hfresh by lia. reflexivity.
    + intros X. apply (Hunq c0 (str1 c1) X 2%nat); [lia|reflexivity|].
      apply (decode2 c0 c1 X). exact Hs.
  - destruct (decode3 c0 c1 c2 EmptyString Hs) as (_ & Henc & Hr & Hv).
    unfold seq3 in Hs.
    split; [lia|]. split; [exact Hv|]. split; [exact Henc|]. split.
    + intros c Hc. rewrite !containsByte_cons, !Hfresh by lia. reflexivity.
    + intros X. apply (Hunq c0 (String c1 (str1 c2)) X 3%nat); [lia|reflexivity|].
      apply (decode3 c0 c1 c2 X). exact Hs.
  - destruct (decode4 c0 c1 c2 c3 EmptyString Hs) as (_ & Henc & Hr & Hv).
    unfold seq4 in Hs.
    split; [lia|]. split; [exact Hv|]. split; [exact Henc|]. split.
    + intros c Hc. rewrite !containsByte_cons, !Hfresh by lia. reflexivity.
    + intros X. apply (Hunq c0 (String c1 (String c2 (str1 c3))) X 4%nat);
        [lia|reflexivity|].
      apply (decode4 c0 c1 c2 c3 X). exact Hs.
Qed.

Lemma tokenOK_multibyte (p : string) (r : Z) (w : nat) :
  wellFormedStart p r w -> String.length p = w -> (1 < w)%nat -> tokenOK p p.
Proof.
  intros Hwf Hlen Hw.
  destruct (multibyte_facts p r w Hwf Hlen Hw) as (Hr & Hvalid & Henc & Hfresh & Hunq).
  constructor.
  - apply (transparent_rune p r w Hwf Hlen).
    + change (byte ch_backslash) with 92. lia.
    + change (byte ch_dquote) with 34. lia.
  - intros X. exists r, true. split; [apply Hunq|].
    unfold emitted, utf8.RuneSelf. destruct (Z.ltb_spec r 128); [lia|]. exact Henc.
  - destruct p; [cbn in Hlen; lia|discriminate].
  - apply Hfresh. vm_compute. reflexivity.
  - reflexivity.
Qed.

Lemma chr_of_byte (c : ascii) (z : Z) : byte c = z -> c = chr z.
Proof. intros <-. symmetry. apply chr_byte. Qed.

Lemma quoteSegment_ascii (isPrintTable : Z -> bool) (c : ascii) :
  byte c < 128 ->
  tokenOK (strconv.quoteSegment isPrintTable (byte c, str1 c)) (str1 c).
Proof.
  intros Hc. pose proof (byte_range c) as Hb.
  unfold strconv.quoteSegment. cbn [str1 String.length Nat.eqb andb].
  unfold utf8.RuneError. destruct (Z.eqb_spec (byte c) 65533); [lia|].
  unfold strconv.appendEscapedRune, strconv.IsPrint.
  change (byte ch_dquote) with 34. change (byte ch_backslash) with 92.
  set (r := byte c) in *.
  assert (Hesc : forall (x : ascii) (code : Z),
            r = code ->
            (x, code) = ("a"%char, 7) \/ (x, code) = ("b"%char, 8)
            \/ (x, code) = ("f"%char, 12) \/ (x, code) = ("n"%char, 10)
            \/ (x, code) = ("r"%char, 13) \/ (x, code) = ("t"%char, 9)
            \/ (x, code) = ("v"%char, 11) \/ (x, code) = (ch_backslash, 92)
            \/ (x, code) = (ch_dquote, 34) ->
            tokenOK (String ch_backslash (String x (strconv.hexDigits 0 0))) (str1 c)).
  { intros x code Hcode Hx.
    assert (Hx' : byte x < 128 /\ x <> ch_nl).
    { repeat (destruct Hx as [Hx|Hx]; [inversion Hx; subst; split; [vm_compute; reflexivity|discriminate]|]).
      inversion Hx; subst; split; [vm_compute; reflexivity|discriminate]. }
    apply tokenOK_escape; [apply Hx'|apply Hx'|].
    rewrite (chr_of_byte c code Hcode). apply unquotesTo_letter. exact Hx. }
  destruct (Z.eqb_spec r 34) as [H34|H34].
  { cbn [orb]. rewrite H34. change (chr 34) with ch_dquote.
    apply (Hesc ch_dquote 34 H34). auto 10. }
  destruct (Z.eqb_spec r 92) as [H92|H92].
  { cbn [orb]. rewrite H92. change (chr 92) with ch_backslash.
    apply (Hesc ch_backslash 92 H92). auto 10. }
  cbn [orb].
  destruct (Z.leb_spec r 255); [|lia].
  destruct (Z.leb_spec 32 r) as [H32|H32]; [destruct (Z.leb_spec r 126) as [H126|H126]|];
    cbn [andb].
  - (* printable *)
    destruct (decode1 c EmptyString Hc) as [_ Henc]. fold r in Henc. rewrite Henc.
    apply tokenOK_ascii; [exact Hc| | |]; intros ->; vm_compute in r; subst r; lia.
  - (* 127 *)
    assert (r = 127) by lia.
    destruct (Z.leb_spec 161 r); [lia|]. cbn [andb].
    repeat (zcase; try lia). cbn [orb].
    apply tokenOK_escape; [vm_compute; reflexivity|discriminate|].
    rewrite Z.mod_small by lia.
    rewrite (chr_of_byte c r eq_refl). apply unquotesTo_x. lia.
  - destruct (Z.leb_spec 161 r); [lia|]. cbn [andb].
    destruct (Z.eqb_spec r 7) as [H7|H7]; [apply (Hesc "a"%char 7 H7); auto 10|].
    destruct (Z.eqb_spec r 8) as [H8|H8]; [apply (Hesc "b"%char 8 H8); auto 10|].
    destruct (Z.eqb_spec r 12) as [H12|H12]; [apply (Hesc "f"%char 12 H12); auto 10|].
    destruct (Z.eqb_spec r 10) as [H10|H10]; [apply (Hesc "n"%char 10 H10); auto 10|].
    destruct (Z.eqb_spec r 13) as [H13|H13]; [apply (Hesc "r"%char 13 H13); auto 10|].
    destruct (Z.eqb_spec r 9) as [H9|H9]; [apply (Hesc "t"%char 9 H9); auto 10|].
    destruct (Z.eqb_spec r 11) as [H11|H11]; [apply (Hesc "v"%char 11 H11); auto 10|].
    destruct (Z.ltb_spec r 32); [|lia]. cbn [orb].
    apply tokenOK_escape; [vm_compute; reflexivity|discriminate|].
    rewrite Z.mod_small by lia.
    rewrite (chr_of_byte c r eq_refl). apply unquotesTo_x. lia.
Qed.

Lemma quoteSegment_multibyte (isPrintTable : Z -> bool) (p : string) (r : Z) (w : nat) :
  wellFormedStart p r w -> String.length p = w -> (1 < w)%nat ->
  tokenOK (strconv.quoteSegment isPrintTable (r, p)) p.
Proof.
  intros Hwf Hlen Hw.
  destruct (multibyte_facts p r w Hwf Hlen Hw) as (Hr & Hvalid & Henc & _ & _).
  unfold utf8.MaxRune in Hr.
  unfold strconv.quoteSegment.
  assert (Hl1 : (String.length p =? 1)%nat = false) by (apply Nat.eqb_neq; lia).
  rewrite Hl1. cbn [andb].
  unfold strconv.appendEscapedRune.
  change (byte ch_dquote) with 34. change (byte ch_backslash) with 92.
  destruct (Z.eqb_spec r 34); [lia|]. destruct (Z.eqb_spec r 92); [lia|]. cbn [orb].
  destruct (strconv.IsPrint isPrintTable r).
  { rewrite Henc. apply (tokenOK_multibyte p r w Hwf Hlen Hw). }
  repeat (zcase; try lia). all: cbn [orb]; rewrite Hvalid; cbn [negb].
  - apply tokenOK_escape; [vm_compute; reflexivity|discriminate|].
    rewrite <- Henc. apply unquotesTo_u; [lia|exact Hvalid].
  - apply tokenOK_escape; [vm_compute; reflexivity|discriminate|].
    rewrite <- Henc. apply unquotesTo_U; [unfold utf8.MaxRune; lia|exact Hvalid].
Qed.

Lemma quoteSegment_invalid (isPrintTable : Z -> bool) (c : ascii) :
  128 <= byte c ->
  tokenOK (strconv.quoteSegment isPrintTable (utf8.RuneError, str1 c)) (str1 c).
Proof.
  intros Hc. pose proof (byte_range c) as Hb.
  change (strconv.quoteSegment isPrintTable (utf8.RuneError, str1 c))
    with (String ch_backslash (String "x" (strconv.hexDigits 2 (byte c)))).
  apply tokenOK_escape; [vm_compute; reflexivity|discriminate|].
  rewrite <- (chr_byte c) at 2. apply unquotesTo_x. exact Hb.
Qed.

Lemma quoteSegment_tokenOK (isPrintTable : Z -> bool) (seg : Z * string) :
  goodSegment seg -> tokenOK (strconv.quoteSegment isPrintTable seg) (snd seg).
Proof.
  destruct seg as [r p]. unfold goodSegment. cbn [fst snd].
  intros [(-> & c & -> & Hc)|Hwf].
  - apply quoteSegment_invalid. exact Hc.
  - destruct (Nat.ltb_spec 1 (String.length p)) as [Hlong|Hshort].
    + apply (quoteSegment_multibyte isPrintTable p r _ Hwf eq_refl Hlong).
    + remember (String.length p) as w eqn:Hw.
      destruct Hwf as [c0 t Ha|c0 c1 t Hs|c0 c1 c2 t Hs|c0 c1 c2 c3 t Hs];
        cbn [String.length] in Hw; try lia.
      destruct t; [|cbn in Hw; lia].
      apply quoteSegment_ascii. exact Ha.
Qed.

(** ** The text [Quote] writes for a string *)

Section QuotedBody.

Variable isPrintTable : Z -> bool.

Lemma segmentQuotes_cons (seg : Z * string) (l : list (Z * string)) :
  segmentQuotes isPrintTable (seg :: l)
  = strconv.quoteSegment isPrintTable seg +:+ segmentQuotes isPrintTable l.
Proof. unfold segmentQuotes. cbn [map]. apply concat_cons. Qed.

Lemma segmentBytes_cons (seg : Z * string) (l : list (Z * string)) :
  segmentBytes (seg :: l) = snd seg +:+ segmentBytes l.
Proof. unfold segmentBytes. cbn [map]. apply concat_cons. Qed.

Lemma segmentQuotes_transparent (l : list (Z * string)) :
  Forall goodSegment l -> transparent (segmentQuotes isPrintTable l).
Proof.
  intros Hl. induction Hl as [|seg l Hseg Hl IH].
  - apply transparent_nil.
  - rewrite segmentQuotes_cons. apply transparent_app; [|exact IH].
    apply (tok_transparent _ _ (quoteSegment_tokenOK isPrintTable seg Hseg)).
Qed.

Lemma segmentQuotes_noNewline (l : list (Z * string)) :
  Forall goodSegment l ->
  strconv.containsByte (segmentQuotes isPrintTable l) ch_nl = false.
Proof.
  intros Hl. induction Hl as [|seg l Hseg Hl IH]; [reflexivity|].
  rewrite segmentQuotes_cons, containsByte_app, IH.
  rewrite (tok_noNewline _ _ (quoteSegment_tokenOK isPrintTable seg Hseg)). reflexivity.
Qed.

Lemma segmentQuotes_raw (l : list (Z * string)) :
  Forall goodSegment l ->
  strconv.containsByte (segmentQuotes isPrintTable l) ch_backslash = false ->
  segmentQuotes isPrintTable l = segmentBytes l.
Proof.
  intros Hl. induction Hl as [|seg l Hseg Hl IH]; [reflexivity|].
  rewrite segmentQuotes_cons, segmentBytes_cons, containsByte_app.
  intros Hno. apply orb_false_elim in Hno as [Hseg' Hl'].
  rewrite (tok_raw _ _ (quoteSegment_tokenOK isPrintTable seg Hseg) Hseg'), (IH Hl').
  reflexivity.
Qed.

Lemma segmentQuotes_unquoteLoop (l : list (Z * string)) :
  Forall goodSegment l ->
  forall fuel : nat,
    (String.length (segmentQuotes isPrintTable l) <= fuel)%nat ->
    strconv.unquoteLoop fuel (segmentQuotes isPrintTable l) = Some (segmentBytes l).
Proof.
  intros Hl. induction Hl as [|seg l Hseg Hl IH]; intros fuel Hfuel.
  - destruct fuel; reflexivity.
  - rewrite segmentQuotes_cons in *. rewrite segmentBytes_cons.
    pose proof (quoteSegment_tokenOK isPrintTable seg Hseg) as Hok.
    destruct (tok_unquotes _ _ Hok (segmentQuotes isPrintTable l))
      as (c & mb & Hchar & Hemit).
    pose proof (tok_nonempty _ _ Hok) as Hne.
    rewrite append_length in Hfuel.
    destruct (strconv.quoteSegment isPrintTable seg) as [|x tok] eqn:Htok;
      [congruence|].
    rewrite append_cons in *. cbn [String.length] in Hfuel.
    destruct fuel as [|fuel]; [lia|].
    cbn [strconv.unquoteLoop]. rewrite Hchar. cbn [mbind option_bind].
    rewrite IH by lia. cbn [mbind option_bind].
    rewrite <- Hemit. unfold emitted.
    destruct ((c <? utf8.RuneSelf) || negb mb); reflexivity.
Qed.

Lemma splitLast_snoc (s : string) (c : ascii) :
  strconv.splitLast (s +:+ str1 c) = Some (s, c).
Proof.
  induction s as [|x s IH]; [reflexivity|].
  rewrite append_cons. cbn [strconv.splitLast]. rewrite IH.
  destruct (s +:+ str1 c) eqn:Hs; [|reflexivity].
  destruct s; discriminate Hs.
Qed.

Lemma quoteBody_segments (s : string) :
  strconv.quoteBody isPrintTable s = segmentQuotes isPrintTable (utf8.segments s).
Proof. reflexivity. Qed.

(** [Unquote] undoes [Quote], for every byte string. *)
Lemma Unquote_Quote (s : string) :
  strconv.Unquote (strconv.Quote isPrintTable s) = Some s.
Proof.
  destruct (segments_good (String.length s) s (le_n _)) as [Hgood Hbytes].
  unfold strconv.Quote, strconv.Unquote.
  change (Ascii.eqb ch_dquote ch_dquote) with true. cbn [negb].
  rewrite splitLast_snoc.
  change (Ascii.eqb ch_dquote ch_dquote) with true. cbn [negb].
  rewrite quoteBody_segments.
  rewrite (segmentQuotes_noNewline _ Hgood).
  destruct (strconv.containsByte (segmentQuotes isPrintTable (utf8.segments s))
              ch_backslash) eqn:Hbs.
  - cbn [negb andb].
    rewrite (segmentQuotes_unquoteLoop _ Hgood) by lia. rewrite Hbytes. reflexivity.
  - cbn [negb andb].
    destruct (negb (strconv.containsByte (segmentQuotes isPrintTable (utf8.segments s))
                      ch_dquote)
              && utf8.ValidString (segmentQuotes isPrintTable (utf8.segments s))).
    + rewrite (segmentQuotes_raw _ Hgood Hbs), Hbytes. reflexivity.
    + rewrite (segmentQuotes_unquoteLoop _ Hgood) by lia. rewrite Hbytes. reflexivity.
Qed.

(** The scanner reads back a quoted string, whatever follows it. *)
Lemma quotedString_Quote (s X : string) :
  fmt.quotedString (utf8.runes (strconv.Quote isPrintTable s +:+ X))
  = Some (s, utf8.runes X).
Proof.
  destruct (segments_good (String.length s) s (le_n _)) as [Hgood _].
  destruct (segmentQuotes_transparent _ Hgood) as (rs & Hrunes & Hloop).
  unfold strconv.Quote. rewrite append_cons, append_assoc.
  rewrite runes_ascii by (vm_compute; reflexivity).
  rewrite quoteBody_segments, Hrunes.
  change (str1 ch_dquote +:+ X) with (String ch_dquote X).
  rewrite runes_ascii by (vm_compute; reflexivity).
  unfold fmt.quotedString.
  change (byte ch_dquote =? 96) with false.
  change (byte ch_dquote =? byte ch_dquote) with true. cbn match.
  rewrite Hloop.
  assert (Hclose : fmt.quotedLoop (byte ch_dquote :: utf8.runes X)
                   = Some (str1 ch_dquote, utf8.runes X)).
  { generalize (utf8.runes X). intros R. reflexivity. }
  rewrite Hclose. cbn [mbind option_bind].
  change (String ch_dquote
            (segmentQuotes isPrintTable (utf8.segments s) +:+ str1 ch_dquote))
    with (strconv.Quote isPrintTable s).
  rewrite Unquote_Quote. reflexivity.
Qed.

End QuotedBody.

(** ** Scanning what [Sprintf] printed *)

Lemma SkipSpace_stay (r : Z) (R : list Z) :
  33 <= r <= 127 -> fmt.SkipSpace (r :: R) = Some (r :: R).
Proof.
  intros Hr. cbn [fmt.SkipSpace]. unfold fmt.isSpace.
  repeat (zcase; try lia); reflexivity.
Qed.

Lemma isDigit_range (c : ascii) : strconv.isDigit c = true -> 48 <= byte c <= 57.
Proof.
  unfold strconv.isDigit. intros H. apply andb_prop in H as [H1 H2].
  apply Z.leb_le in H1. apply Z.leb_le in H2. lia.
Qed.

Lemma runes_digits (ds Y : string) :
  allDigits ds = true ->
  utf8.runes (ds +:+ Y) = map byte (list_ascii_of_string ds) ++ utf8.runes Y.
Proof.
  induction ds as [|c ds IH]; intros Hall; [reflexivity|].
  cbn [allDigits] in Hall. apply andb_prop in Hall as [Hc Hds].
  apply isDigit_range in Hc.
  rewrite append_cons, runes_ascii by lia. cbn [list_ascii_of_string map app].
  rewrite IH by exact Hds. reflexivity.
Qed.

Lemma acceptDigits_digits (ds : string) (R : list Z) :
  allDigits ds = true ->
  fmt.acceptDigits (map byte (list_ascii_of_string ds) ++ 124 :: R) = (ds, 124 :: R).
Proof.
  induction ds as [|c ds IH]; intros Hall; [reflexivity|].
  cbn [allDigits] in Hall. apply andb_prop in Hall as [Hc Hds].
  apply isDigit_range in Hc.
  cbn [list_ascii_of_string map app fmt.acceptDigits]. unfold fmt.isDecimalDigit.
  destruct (Z.leb_spec 48 (byte c)); [|lia].
  destruct (Z.leb_spec (byte c) 57); [|lia]. cbn [andb orb].
  rewrite IH by exact Hds. rewrite chr_byte. reflexivity.
Qed.

Lemma scanNumber_digits (c : ascii) (ds : string) (R : list Z) :
  allDigits (String c ds) = true ->
  fmt.scanNumber (map byte (list_ascii_of_string (String c ds)) ++ 124 :: R)
  = Some (String c ds, 124 :: R).
Proof.
  intros Hall. pose proof Hall as Hall'.
  cbn [allDigits] in Hall. apply andb_prop in Hall as [Hc _].
  apply isDigit_range in Hc.
  unfold fmt.scanNumber. rewrite acceptDigits_digits by exact Hall'.
  cbn [list_ascii_of_string map app]. unfold fmt.isDecimalDigit.
  destruct (Z.leb_spec 48 (byte c)); [|lia].
  destruct (Z.leb_spec (byte c) 57); [|lia]. reflexivity.
Qed.

Lemma scan_uint (bits u : Z) (X : string) :
  bits = 8 \/ bits = 64 -> 0 <= u < 2 ^ bits ->
  (input ← fmt.SkipSpace (utf8.runes (strconv.FormatUint u +:+ String "|" X));
   fmt.scanOne "d" (fmt.DUint bits) input)
  = Some (fmt.VInt u, utf8.runes (String "|" X)).
Proof.
  intros Hbits Hu.
  assert (Hu64 : 0 <= u < 2 ^ 64).
  { destruct Hbits as [-> | ->]; [|exact Hu].
    change (2 ^ 8) with 256 in Hu. change (2 ^ 64) with 18446744073709551616. lia. }
  destruct (FormatUint_digits u ltac:(lia)) as (c & ds & Heq & Hall).
  pose proof (ParseUint_FormatUint u 64 Hu64 ltac:(auto)) as Hparse.
  rewrite Heq in *. rewrite runes_digits by exact Hall.
  rewrite (runes_ascii "|" X) by (vm_compute; reflexivity).
  change (byte "|") with 124.
  pose proof Hall as Hc. cbn [allDigits] in Hc. apply andb_prop in Hc as [Hc _].
  apply isDigit_range in Hc.
  assert (Hskip : forall R, fmt.SkipSpace (map byte (list_ascii_of_string (String c ds)) ++ R)
                            = Some (map byte (list_ascii_of_string (String c ds)) ++ R)).
  { intros R. cbn [list_ascii_of_string map app]. apply SkipSpace_stay. lia. }
  rewrite Hskip. cbn [mbind option_bind].
  unfold fmt.scanOne. change (Ascii.eqb "d" "d") with true. cbn match.
  unfold fmt.scanUint. rewrite Hskip. cbn [mbind option_bind].
  assert (HnotEOF : forall R, fmt.notEOF (map byte (list_ascii_of_string (String c ds)) ++ R)
                              = Some (map byte (list_ascii_of_string (String c ds)) ++ R))
    by reflexivity.
  rewrite HnotEOF. cbn [mbind option_bind].
  rewrite scanNumber_digits by exact Hall. cbn [mbind option_bind].
  rewrite Hparse. rewrite Z.mod_small by exact Hu. rewrite Z.eqb_refl. reflexivity.
Qed.

Lemma scan_int (i : Z) (X : string) :
  is_int i ->
  (input ← fmt.SkipSpace (utf8.runes (strconv.FormatInt i +:+ String "|" X));
   fmt.scanOne "d" (fmt.DInt 64) input)
  = Some (fmt.VInt i, utf8.runes (String "|" X)).
Proof.
  intros Hi. pose proof (ParseInt_FormatInt i Hi) as Hparse.
  unfold is_int, minInt64, maxInt64 in Hi.
  assert (Hfit : ((i + 2 ^ (64 - 1)) mod 2 ^ 64 - 2 ^ (64 - 1) =? i) = true).
  { apply Z.eqb_eq. change (2 ^ (64 - 1)) with 9223372036854775808.
    change (2 ^ 64) with 18446744073709551616.
    rewrite Z.mod_small by lia. lia. }
  unfold strconv.FormatInt in *.
  rewrite (runes_ascii "|" X) by (vm_compute; reflexivity).
  change (byte "|") with 124.
  destruct (Z.ltb_spec i 0) as [Hneg|Hpos].
  - destruct (FormatUint_digits (- i) ltac:(lia)) as (c & ds & Heq & Hall).
    rewrite Heq in *. rewrite append_cons, runes_ascii by (vm_compute; reflexivity).
    rewrite runes_digits by exact Hall.
    rewrite (runes_ascii "|" X) by (vm_compute; reflexivity).
    change (byte "|") with 124. change (byte "-") with 45.
    rewrite SkipSpace_stay by lia. cbn [mbind option_bind].
    unfold fmt.scanOne. change (Ascii.eqb "d" "d") with true. cbn match.
    unfold fmt.scanInt. rewrite SkipSpace_stay by lia. cbn [mbind option_bind fmt.notEOF].
    change ((45 =? 43) || (45 =? 45)) with true. cbn match.
    rewrite scanNumber_digits by exact Hall. cbn [mbind option_bind].
    change (str1 (chr 45) +:+ String c ds) with (String "-" (String c ds)).
    rewrite Hparse, Hfit. reflexivity.
  - destruct (FormatUint_digits i Hpos) as (c & ds & Heq & Hall).
    rewrite Heq in *. rewrite runes_digits by exact Hall.
    rewrite (runes_ascii "|" X) by (vm_compute; reflexivity).
    change (byte "|") with 124.
    pose proof Hall as Hc. cbn [allDigits] in Hc. apply andb_prop in Hc as [Hc _].
    apply isDigit_range in Hc.
    assert (Hskip : forall R,
              fmt.SkipSpace (map byte (list_ascii_of_string (String c ds)) ++ R)
              = Some (map byte (list_ascii_of_string (String c ds)) ++ R)).
    { intros R. cbn [list_ascii_of_string map app]. apply SkipSpace_stay. lia. }
    rewrite Hskip. cbn [mbind option_bind].
    unfold fmt.scanOne. change (Ascii.eqb "d" "d") with true. cbn match.
    unfold fmt.scanInt. rewrite Hskip. cbn [mbind option_bind].
    assert (Hsign : forall R,
              match map byte (list_ascii_of_string (String c ds)) ++ R with
              | r :: rest =>
                  if (r =? 43) || (r =? 45) then (str1 (chr r), rest)
                  else (EmptyString, map byte (list_ascii_of_string (String c ds)) ++ R)
              | [] => (EmptyString, map byte (list_ascii_of_string (String c ds)) ++ R)
              end = (EmptyString, map byte (list_ascii_of_string (String c ds)) ++ R)).
    { intros R. cbn [list_ascii_of_string map app].
      destruct (Z.eqb_spec (byte c) 43); [lia|].
      destruct (Z.eqb_spec (byte c) 45); [lia|]. reflexivity. }
    assert (HnotEOF : forall R,
              fmt.notEOF (map byte (list_ascii_of_string (String c ds)) ++ R)
              = Some (map byte (list_ascii_of_string (String c ds)) ++ R))
      by reflexivity.
    rewrite HnotEOF. cbn [mbind option_bind].
    rewrite Hsign. rewrite scanNumber_digits by exact Hall. cbn [mbind option_bind].
    rewrite append_nil_l, Hparse, Hfit. reflexivity.
Qed.

Lemma scan_bool (b : bool) (X : string) :
  (input ← fmt.SkipSpace (utf8.runes ((if b then "true" else "false") +:+ String "|" X));
   fmt.scanOne "t" fmt.DBool input)
  = Some (fmt.VBool b, utf8.runes (String "|" X)).
Proof.
  destruct b.
  - change ("true" +:+ String "|" X)
      with (String "t" (String "r" (String "u" (String "e" (String "|" X))))).
    rewrite !runes_ascii by (vm_compute; reflexivity).
    generalize (utf8.runes X). intros R. reflexivity.
  - change ("false" +:+ String "|" X)
      with (String "f" (String "a" (String "l" (String "s" (String "e" (String "|" X)))))).
    rewrite !runes_ascii by (vm_compute; reflexivity).
    generalize (utf8.runes X). intros R. reflexivity.
Qed.

Lemma scan_string (isPrintTable : Z -> bool) (s X : string) :
  (input ← fmt.SkipSpace (utf8.runes (strconv.Quote isPrintTable s +:+ String "|" X));
   fmt.scanOne "q" fmt.DString input)
  = Some (fmt.VString s, utf8.runes (String "|" X)).
Proof.
  pose proof (quotedString_Quote isPrintTable s (String "|" X)) as Hq.
  assert (Hhead : exists R, utf8.runes (strconv.Quote isPrintTable s +:+ String "|" X)
                            = byte ch_dquote :: R).
  { unfold strconv.Quote. rewrite append_cons.
    rewrite runes_ascii by (vm_compute; reflexivity). eauto. }
  destruct Hhead as [R HR]. rewrite HR in *.
  change (byte ch_dquote) with 34 in *.
  rewrite SkipSpace_stay by lia. cbn [mbind option_bind].
  unfold fmt.scanOne. change (Ascii.eqb "q" "q") with true. cbn match.
  unfold fmt.convertString. rewrite SkipSpace_stay by lia.
  cbn [mbind option_bind fmt.notEOF]. rewrite Hq. reflexivity.
Qed.

Lemma doScanf_literal (c : ascii) (rest : string) (a : list fmt.dest) (R : list Z) :
  c <> "%"%char ->
  fmt.doScanf (String c rest) a (byte c :: R) = fmt.doScanf rest a R.
Proof.
  intros Hc. cbn [fmt.doScanf].
  destruct (Ascii.eqb_spec c "%"); [contradiction|].
  rewrite Z.eqb_refl. reflexivity.
Qed.

Lemma doScanf_verb (verb : ascii) (rest : string) (d : fmt.dest) (a : list fmt.dest)
    (input : list Z) (val : fmt.value) (more : list Z) :
  (input' ← fmt.SkipSpace input; fmt.scanOne verb d input') = Some (val, more) ->
  fmt.doScanf (String "%" (String verb rest)) (d :: a) input
  = val :: fmt.doScanf rest a more.
Proof.
  intros H. cbn [fmt.doScanf]. change (Ascii.eqb "%" "%") with true. cbn match.
  rewrite H. reflexivity.
Qed.

(** ** [String] and [Scan] *)

(** The text of the options, field by field. *)
Lemma String_fields (isPrintTable : Z -> bool) (o : TQueryOptions) :
  QO.String isPrintTable o
  = String "|" (strconv.FormatInt (ID o) +:+
    String "|" ((if Descending o then "true" else "false") +:+
    String "|" (strconv.Quote isPrintTable (Entity o) +:+
    String "|" (strconv.FormatUint (GuiLang o) +:+
    String "|" (strconv.FormatUint (Layout o) +:+
    String "|" (strconv.FormatUint (LimitLength o) +:+
    String "|" (strconv.FormatUint (LimitStart o) +:+
    String "|" (strconv.Quote isPrintTable (Matching o) +:+
    String "|" (strconv.FormatUint (QueryCount o) +:+
    String "|" (strconv.FormatUint (SortBy o) +:+
    String "|" (strconv.FormatUint (Theme o) +:+
    String "|" (strconv.Quote isPrintTable (VirtLib o) +:+
    String "|" EmptyString)))))))))))).
Proof. reflexivity. Qed.

(** The values the scan of the text of well-formed options stores. *)
Lemma Sscanf_String (isPrintTable : Z -> bool) (o : TQueryOptions) :
  qo_wf o ->
  fmt.Sscanf (QO.String isPrintTable o) QO.qoStringPattern
    [fmt.DInt 64; fmt.DBool; fmt.DString; fmt.DUint 8; fmt.DUint 8; fmt.DUint 64;
     fmt.DUint 64; fmt.DString; fmt.DUint 64; fmt.DUint 8; fmt.DUint 8; fmt.DString]
  = [fmt.VInt (ID o); fmt.VBool (Descending o); fmt.VString (Entity o);
     fmt.VInt (GuiLang o); fmt.VInt (Layout o); fmt.VInt (LimitLength o);
     fmt.VInt (LimitStart o); fmt.VString (Matching o); fmt.VInt (QueryCount o);
     fmt.VInt (SortBy o); fmt.VInt (Theme o); fmt.VString (VirtLib o)].
Proof.
  intros [HI HG HL HLL HLS HQ HS HT].
  unfold is_uint8 in *. unfold is_uint, uint64_mod in *.
  rewrite String_fields. unfold fmt.Sscanf, QO.qoStringPattern.
  rewrite (runes_ascii "|") by (vm_compute; reflexivity).
  rewrite doScanf_literal by discriminate.
  erewrite doScanf_verb by (apply scan_int; exact HI).
  rewrite (runes_ascii "|") by (vm_compute; reflexivity).
  rewrite doScanf_literal by discriminate.
  erewrite doScanf_verb by (apply scan_bool).
  rewrite (runes_ascii "|") by (vm_compute; reflexivity).
  rewrite doScanf_literal by discriminate.
  erewrite doScanf_verb by (apply scan_string).
  rewrite (runes_ascii "|") by (vm_compute; reflexivity).
  rewrite doScanf_literal by discriminate.
  erewrite doScanf_verb by (apply scan_uint; [auto|exact HG]).
  rewrite (runes_ascii "|") by (vm_compute; reflexivity).
  rewrite doScanf_literal by discriminate.
  erewrite doScanf_verb by (apply scan_uint; [auto|exact HL]).
  rewrite (runes_ascii "|") by (vm_compute; reflexivity).
  rewrite doScanf_literal by discriminate.
  erewrite doScanf_verb by (apply scan_uint; [auto|exact HLL]).
  rewrite (runes_ascii "|") by (vm_compute; reflexivity).
  rewrite doScanf_literal by discriminate.
  erewrite doScanf_verb by (apply scan_uint; [auto|exact HLS]).
  rewrite (runes_ascii "|") by (vm_compute; reflexivity).
  rewrite doScanf_literal by discriminate.
  erewrite doScanf_verb by (apply scan_string).
  rewrite (runes_ascii "|") by (vm_compute; reflexivity).
  rewrite doScanf_literal by discriminate.
  erewrite doScanf_verb by (apply scan_uint; [auto|exact HQ]).
  rewrite (runes_ascii "|") by (vm_compute; reflexivity).
  rewrite doScanf_literal by discriminate.
  erewrite doScanf_verb by (apply scan_uint; [auto|exact HS]).
  rewrite (runes_ascii "|") by (vm_compute; reflexivity).
  rewrite doScanf_literal by discriminate.
  erewrite doScanf_verb by (apply scan_uint; [auto|exact HT]).
  rewrite (runes_ascii "|") by (vm_compute; reflexivity).
  rewrite doScanf_literal by discriminate.
  erewrite doScanf_verb by (apply scan_string).
  rewrite (runes_ascii "|") by (vm_compute; reflexivity).
  rewrite doScanf_literal by discriminate.
  reflexivity.
Qed.

(** What [Scan] makes of the text [String] wrote. *)
Lemma Scan_String (isPrintTable : Z -> bool) (o qo : TQueryOptions) :
  qo_wf o ->
  QO.Scan (QO.String isPrintTable o) qo
  = mkQO (ID o) (Descending o) (Entity o) (GuiLang o) (Layout o) (LimitLength o)
      (LimitStart o) (gostrings.TrimSpace (Matching o)) (QueryCount o) (SortBy o)
      (Theme o)
      (if String.eqb "-" (VirtLib o) then EmptyString
       else gostrings.TrimSpace (VirtLib o)).
Proof.
  intros Hwf. unfold QO.Scan. rewrite (Sscanf_String isPrintTable o Hwf). reflexivity.
Qed.

(** C1, as the code has it. For all options [o] (byte strings of any
    content in the text fields, numbers of any value of their types), the
    scan of the text of [o] gives back every field of [o], except that
    [Scan] trims [Matching] and [VirtLib] and reads the virtual library
    [-] as the empty one. So the round trip is exact whenever [Matching]
    and [VirtLib] have no white space at their ends and [VirtLib] is not
    [-]; an empty [VirtLib] comes back empty. *)
Theorem String_Scan_roundtrip (isPrintTable : Z -> bool) (o qo : TQueryOptions)
    (Hwf : qo_wf o) :
  let back := QO.Scan (QO.String isPrintTable o) qo in
  (ID back = ID o /\ Descending back = Descending o /\ Entity back = Entity o
   /\ GuiLang back = GuiLang o /\ Layout back = Layout o
   /\ LimitLength back = LimitLength o /\ LimitStart back = LimitStart o
   /\ QueryCount back = QueryCount o /\ SortBy back = SortBy o
   /\ Theme back = Theme o)
  /\ Matching back = gostrings.TrimSpace (Matching o)
  /\ VirtLib back = (if String.eqb "-" (VirtLib o) then EmptyString
                     else gostrings.TrimSpace (VirtLib o))
  /\ (gostrings.TrimSpace (Matching o) = Matching o ->
      gostrings.TrimSpace (VirtLib o) = VirtLib o ->
      VirtLib o <> "-" ->
      back = o)
  /\ (VirtLib o = EmptyString -> VirtLib back = EmptyString).
Proof.
  intros back. unfold back. rewrite (Scan_String isPrintTable o qo Hwf).
  cbn [ID Descending Entity GuiLang Layout LimitLength LimitStart Matching
       QueryCount SortBy Theme VirtLib].
  split; [repeat split|]. split; [reflexivity|]. split; [reflexivity|]. split.
  - intros Hm Hv Hdash. rewrite Hm, Hv.
    destruct (String.eqb_spec "-" (VirtLib o)) as [Heq|_]; [congruence|].
    destruct o; reflexivity.
  - intros ->. reflexivity.
Qed.

Lemma String_Scan_roundtrip_witness :
  QO.Scan (QO.String (fun _ => true) defaultOptions) defaultOptions = defaultOptions.
Proof.
  apply (proj2 (proj2 (proj2
           (String_Scan_roundtrip (fun _ => true) defaultOptions defaultOptions
              defaultOptions_wf)))).
  - reflexivity.
  - reflexivity.
  - discriminate.
Defined.

(** C1 fails as stated: a search text with a leading space comes from
    the request as it is, [Update] stores it as it is, and the scan of the
    text of these options returns it trimmed. *)
Lemma roundtrip_trims_Matching :
  let r : gmap string (list string) := {[ "matching" := [" verne"] ]} in
  let o := QO.Update None r defaultOptions in
  let back := QO.Scan (QO.String (fun _ => true) o) defaultOptions in
  Matching o = " verne" /\ Matching back = "verne" /\ back <> o.
Proof.
  cbv zeta. split; [vm_compute; reflexivity|].
  assert (Hback : Matching
            (QO.Scan (QO.String (fun _ => true)
               (QO.Update None {[ "matching" := [" verne"] ]} defaultOptions))
               defaultOptions) = "verne") by (vm_compute; reflexivity).
  split; [exact Hback|].
  intros Heq. rewrite Heq in Hback. vm_compute in Hback. discriminate Hback.
Qed.

(** C9, as the code has it. [String] has no sentinel: the empty virtual
    library is written like every empty string, as two double quotes, and
    [Scan] reads that back as the empty string. [Scan] also reads the
    virtual library [-] as the empty one, be it written in quotes, as
    [String] writes it, or bare, which ends the scan with an error before
    the value is stored. *)
Theorem VirtLib_sentinel (isPrintTable : Z -> bool) (o qo : TQueryOptions)
    (Hwf : qo_wf o) :
  (VirtLib o = EmptyString ->
   (exists front,
       QO.String isPrintTable o = front +:+ db.dq +:+ db.dq +:+ "|")
   /\ VirtLib (QO.Scan (QO.String isPrintTable o) qo) = EmptyString)
  /\ (VirtLib o = "-" ->
      (exists front,
          QO.String isPrintTable o = front +:+ db.dq +:+ "-" +:+ db.dq +:+ "|")
      /\ VirtLib (QO.Scan (QO.String isPrintTable o) qo) = EmptyString)
  /\ VirtLib (QO.Scan ("|0|true|" +:+ db.dq +:+ db.dq +:+ "|0|0|24|0|" +:+ db.dq
                       +:+ db.dq +:+ "|0|1|0|-|") qo) = EmptyString.
Proof.
  assert (Hfront : forall q : string,
            strconv.Quote isPrintTable (VirtLib o) = q ->
            exists front, QO.String isPrintTable o = front +:+ q +:+ "|").
  { intros q Hq. rewrite String_fields, Hq.
    exists (String "|" (strconv.FormatInt (ID o) +:+
      String "|" ((if Descending o then "true" else "false") +:+
      String "|" (strconv.Quote isPrintTable (Entity o) +:+
      String "|" (strconv.FormatUint (GuiLang o) +:+
      String "|" (strconv.FormatUint (Layout o) +:+
      String "|" (strconv.FormatUint (LimitLength o) +:+
      String "|" (strconv.FormatUint (LimitStart o) +:+
      String "|" (strconv.Quote isPrintTable (Matching o) +:+
      String "|" (strconv.FormatUint (QueryCount o) +:+
      String "|" (strconv.FormatUint (SortBy o) +:+
      String "|" (strconv.FormatUint (Theme o) +:+
      String "|" EmptyString)))))))))))).
    repeat (rewrite append_cons || rewrite append_assoc).
    rewrite append_nil_l. reflexivity. }
  pose proof (Scan_String isPrintTable o qo Hwf) as Hscan.
  split; [|split].
  - intros Hv. split.
    + destruct (Hfront (db.dq +:+ db.dq)) as [front Hf];
        [rewrite Hv; reflexivity|].
      exists front. rewrite Hf, !append_assoc. reflexivity.
    + rewrite Hscan, Hv. reflexivity.
  - intros Hv. split.
    + destruct (Hfront (db.dq +:+ "-" +:+ db.dq)) as [front Hf];
        [rewrite Hv; reflexivity|].
      exists front. rewrite Hf, !append_assoc. reflexivity.
    + rewrite Hscan, Hv. reflexivity.
  - destruct qo. vm_compute. reflexivity.
Qed.

Lemma VirtLib_sentinel_witness :
  VirtLib (QO.Scan (QO.String (fun _ => true) defaultOptions) defaultOptions)
  = EmptyString.
Proof.
  exact (proj2 (proj1 (VirtLib_sentinel (fun _ => true) defaultOptions defaultOptions
                         defaultOptions_wf) eq_refl)).
Defined.

(** C9 fails as stated: the text of the default options, whose virtual
    library is empty, has two double quotes in the last position, and no
    [-] anywhere. *)
Lemma String_writes_no_sentinel :
  VirtLib defaultOptions = EmptyString
  /\ QO.String (fun _ => true) defaultOptions
     = "|0|true|" +:+ db.dq +:+ db.dq +:+ "|0|0|24|0|" +:+ db.dq +:+ db.dq
       +:+ "|0|1|0|" +:+ db.dq +:+ db.dq +:+ "|"
  /\ strconv.containsByte (QO.String (fun _ => true) defaultOptions) "-" = false.
Proof. repeat split; vm_compute; reflexivity. Qed.
(** * Further properties of the query options *)

(** ** The blocks of [Update] as assignments *)

(** Every block of [Update] assigns to a few fields; the value assigned is
    the old one where the source assigns nothing. *)

Lemma Update_guilang_nf r qo :
  QO.Update_guilang r qo
  = set_GuiLang
      (if nonempty (FormValue r "guilang") && String.eqb "en" (FormValue r "guilang")
       then qoLangEnglish else qoLangGerman) qo.
Proof.
  unfold QO.Update_guilang. destruct (nonempty (FormValue r "guilang")); [|reflexivity].
  destruct (String.eqb "en" (FormValue r "guilang")); reflexivity.
Qed.

Lemma Update_layout_nf r qo :
  QO.Update_layout r qo
  = set_Layout
      (if nonempty (FormValue r "layout") && String.eqb "grid" (FormValue r "layout")
       then qoLayoutGrid else qoLayoutList) qo.
Proof.
  unfold QO.Update_layout. destruct (nonempty (FormValue r "layout")); [|reflexivity].
  destruct (String.eqb "grid" (FormValue r "layout")); reflexivity.
Qed.

Lemma Update_theme_nf r qo :
  QO.Update_theme r qo
  = set_Theme
      (if nonempty (FormValue r "theme") && String.eqb "dark" (FormValue r "theme")
       then qoThemeDark else qoThemeLight) qo.
Proof.
  unfold QO.Update_theme. destruct (nonempty (FormValue r "theme")); [|reflexivity].
  destruct (String.eqb "dark" (FormValue r "theme")); reflexivity.
Qed.

Lemma Update_limitlength_nf r qo :
  QO.Update_limitlength r qo
  = let changed := lengthChanges r qo in
    set_LimitStart (if changed then LimitStart (QO.DecLimit qo) else LimitStart qo)
      (set_LimitLength
         (if changed then to_uint (fst (strconv.Atoi (FormValue r "limitlength")))
          else LimitLength qo) qo).
Proof.
  unfold QO.Update_limitlength, lengthChanges. destruct qo. cbn [LimitLength LimitStart].
  destruct (nonempty (FormValue r "limitlength")); [|reflexivity].
  destruct (strconv.Atoi (FormValue r "limitlength")) as [ll [e|]]; [reflexivity|].
  cbn [fst andb]. 
  destruct (to_uint ll =? LimitLength0); [reflexivity|].
  cbn [negb]. unfold QO.DecLimit. cbn [LimitStart LimitLength].
  destruct (0 <? LimitStart0); [destruct (LimitStart0 <=? LimitLength0)|]; reflexivity.
Qed.

Lemma Update_matching_nf r qo :
  QO.Update_matching r qo
  = let matching := FormValue r "matching" in
    let changed := matchingChanges r qo in
    set_VirtLib (if changed then EmptyString else VirtLib qo)
      (set_LimitStart (if changed then 0 else LimitStart qo)
         (set_Matching matching
            (set_ID (if nonempty matching && negb changed then ID qo else 0)
               (set_Entity (if nonempty matching then Entity qo else EmptyString) qo)))).
Proof.
  unfold QO.Update_matching, matchingChanges. destruct qo. cbn [Matching].
  destruct (FormValue r "matching") as [|c m] eqn:Hm; [reflexivity|].
  change (nonempty (String c m)) with true. cbn [andb].
  destruct (String.eqb_spec (String c m) Matching0) as [<-|_]; reflexivity.
Qed.

Lemma Update_order_nf r qo :
  QO.Update_order r qo
  = set_LimitStart (if orderChanges r qo then 0 else LimitStart qo)
      (set_Descending
         (nonempty (FormValue r "order") && String.eqb "descending" (FormValue r "order"))
         qo).
Proof.
  unfold QO.Update_order, orderChanges. destruct qo. cbn [Descending].
  destruct (nonempty (FormValue r "order")); [|reflexivity].
  cbn [andb].
  destruct (String.eqb "descending" (FormValue r "order")); destruct Descending0; reflexivity.
Qed.

Lemma Update_sortby_nf r qo :
  QO.Update_sortby r qo
  = set_SortBy
      (if nonempty (FormValue r "sortby") then QO.sortby_of (FormValue r "sortby")
       else qoSortByAcquisition)
      (set_LimitStart (if sortChanges r qo then 0 else LimitStart qo) qo).
Proof.
  unfold QO.Update_sortby, sortChanges. destruct qo. cbn [SortBy].
  destruct (nonempty (FormValue r "sortby")); [|reflexivity].
  cbn [andb].
  destruct (Z.eqb_spec (QO.sortby_of (FormValue r "sortby")) SortBy0) as [<-|_]; reflexivity.
Qed.

Lemma Update_virtlib_nf vlList r qo :
  QO.Update_virtlib vlList r qo
  = let vl := FormValue r "virtlib" in
    let fires := virtlibChanges r qo in
    set_LimitStart (if fires then 0 else LimitStart qo)
      (set_ID (if fires then 0 else ID qo)
         (set_Entity (if fires then EmptyString else Entity qo)
            (set_Matching
               (if fires then default (Matching qo) (vlList ≫= (.!! vl)) else Matching qo)
               (set_VirtLib
                  (if String.eqb "-" vl && fires then EmptyString else vl) qo)))).
Proof.
  unfold QO.Update_virtlib, virtlibChanges. destruct qo. cbn [VirtLib].
  destruct (FormValue r "virtlib") as [|c vl] eqn:Hvl; [reflexivity|].
  change (nonempty (String c vl)) with true.
  change (String.eqb EmptyString (String c vl)) with false. cbn [andb negb].
  destruct (String.eqb_spec (String c vl) VirtLib0) as [<-|_]; cbn [negb].
  - rewrite andb_false_r. reflexivity.
  - rewrite andb_true_r.
    destruct (String.eqb "-" (String c vl)); destruct vlList as [lst|]; cbn;
      try destruct (lst !! String c vl); reflexivity.
Qed.

Ltac qo_cbn :=
  cbn [ID Descending Entity GuiLang Layout LimitLength LimitStart Matching QueryCount
       SortBy Theme VirtLib set_ID set_Descending set_Entity set_GuiLang set_Layout
       set_LimitLength set_LimitStart set_Matching set_QueryCount set_SortBy set_Theme
       set_VirtLib].

(** The request is applied to options given by their fields, one block
    after the other. *)
Ltac update_nf :=
  unfold QO.Update, QO.Update_after_matching, QO.Update_before_matching;
  rewrite Update_guilang_nf; qo_cbn;
  rewrite Update_layout_nf; qo_cbn;
  rewrite Update_limitlength_nf; unfold lengthChanges; rewrite ?DecLimit_LimitStart; qo_cbn;
  rewrite Update_matching_nf; unfold matchingChanges; qo_cbn;
  rewrite Update_order_nf; unfold orderChanges; qo_cbn;
  rewrite Update_sortby_nf; unfold sortChanges; qo_cbn;
  rewrite Update_theme_nf; qo_cbn;
  rewrite Update_virtlib_nf; unfold virtlibChanges; qo_cbn.

(** The fields of the options [Update] returns. *)
Lemma Update_fields (vlList : option (gmap string string))
    (r : gmap string (list string)) (qo : TQueryOptions) :
  let post := QO.Update vlList r qo in
  let matching := FormValue r "matching" in
  let vl := FormValue r "virtlib" in
  let fires := virtlibFires r qo in
  ID post = (if fires then 0
             else if nonempty matching && negb (matchingChanges r qo) then ID qo else 0)
  /\ Descending post
     = nonempty (FormValue r "order") && String.eqb "descending" (FormValue r "order")
  /\ Entity post = (if fires then EmptyString
                    else if nonempty matching then Entity qo else EmptyString)
  /\ GuiLang post
     = (if nonempty (FormValue r "guilang") && String.eqb "en" (FormValue r "guilang")
        then qoLangEnglish else qoLangGerman)
  /\ Layout post
     = (if nonempty (FormValue r "layout") && String.eqb "grid" (FormValue r "layout")
        then qoLayoutGrid else qoLayoutList)
  /\ LimitLength post
     = (if lengthChanges r qo
        then to_uint (fst (strconv.Atoi (FormValue r "limitlength")))
        else LimitLength qo)
  /\ LimitStart post
     = (if fires then 0
        else if sortChanges r qo then 0
        else if orderChanges r qo then 0
        else if matchingChanges r qo then 0
        else if lengthChanges r qo then LimitStart (QO.DecLimit qo)
        else LimitStart qo)
  /\ Matching post
     = (if fires then default matching (vlList ≫= (.!! vl)) else matching)
  /\ QueryCount post = QueryCount qo
  /\ SortBy post
     = (if nonempty (FormValue r "sortby") then QO.sortby_of (FormValue r "sortby")
        else qoSortByAcquisition)
  /\ Theme post
     = (if nonempty (FormValue r "theme") && String.eqb "dark" (FormValue r "theme")
        then qoThemeDark else qoThemeLight)
  /\ VirtLib post = (if String.eqb "-" vl && fires then EmptyString else vl).
Proof.
  destruct qo as [i d e g l ll ls m qc sb t v].
  cbv zeta. unfold virtlibFires, lengthChanges, matchingChanges, orderChanges, sortChanges.
  rewrite ?DecLimit_LimitStart. qo_cbn.
  update_nf.
  (repeat split; reflexivity).
Qed.
(** Two options with the same fields are the same options. *)
Lemma qo_ext (a b : TQueryOptions) :
  ID a = ID b -> Descending a = Descending b -> Entity a = Entity b ->
  GuiLang a = GuiLang b -> Layout a = Layout b -> LimitLength a = LimitLength b ->
  LimitStart a = LimitStart b -> Matching a = Matching b ->
  QueryCount a = QueryCount b -> SortBy a = SortBy b -> Theme a = Theme b ->
  VirtLib a = VirtLib b -> a = b.
Proof.
  destruct a, b. cbn. intros. subst. reflexivity.
Qed.

(** ** Paging back and forth *)

(** X1. [DecLimit] undoes [IncLimit] whenever the sum of [IncLimit] fits
    a [uint]; [IncLimit] undoes [DecLimit] when the start is at least one
    page length, and otherwise, from a start inside the first page, the
    two lead to the start of the second page. *)
Theorem DecLimit_IncLimit (qo : TQueryOptions) (Hwf : qo_wf qo) :
  (LimitStart qo + LimitLength qo < uint64_mod -> QO.DecLimit (QO.IncLimit qo) = qo)
  /\ (LimitLength qo <= LimitStart qo -> QO.IncLimit (QO.DecLimit qo) = qo)
  /\ (0 < LimitStart qo < LimitLength qo ->
      LimitStart (QO.IncLimit (QO.DecLimit qo)) = LimitLength qo).
Proof.
  destruct Hwf as [_ _ _ [Hl0 Hl1] [Hs0 Hs1] _ _ _].
  destruct qo as [i d e g l ll ls m qc sb t v]. cbn [LimitLength LimitStart] in *.
  unfold QO.DecLimit, QO.IncLimit, set_LimitStart, to_uint, uint64_mod in *.
  cbn [ID Descending Entity GuiLang Layout LimitLength LimitStart Matching QueryCount
       SortBy Theme VirtLib].
  split; [|split].
  - intros Hfit. rewrite (Z.mod_small (ls + ll)) by lia.
    destruct (Z.ltb_spec 0 (ls + ll)).
    + destruct (Z.leb_spec (ls + ll) ll); cbn; f_equal; lia.
    + f_equal. lia.
  - intros Hle. destruct (Z.ltb_spec 0 ls).
    + destruct (Z.leb_spec ls ll); cbn; f_equal; rewrite Z.mod_small; lia.
    + cbn. f_equal. rewrite Z.mod_small; lia.
  - intros [Hpos Hlt]. destruct (Z.ltb_spec 0 ls); [|lia].
    destruct (Z.leb_spec ls ll); [|lia]. cbn. rewrite Z.mod_small; lia.
Qed.

Lemma DecLimit_IncLimit_witness :
  QO.DecLimit (QO.IncLimit defaultOptions) = defaultOptions
  /\ QO.IncLimit (QO.DecLimit (QO.IncLimit defaultOptions)) = QO.IncLimit defaultOptions.
Proof.
  split.
  - apply (proj1 (DecLimit_IncLimit defaultOptions defaultOptions_wf)). reflexivity.
  - assert (Hwf : qo_wf (QO.IncLimit defaultOptions))
      by (constructor; split; vm_compute; congruence).
    apply (proj1 (proj2 (DecLimit_IncLimit (QO.IncLimit defaultOptions) Hwf))).
    vm_compute. congruence.
Defined.

(** ** Invariants of [Update] *)

Lemma sortby_of_range (fsb : string) : qoSortUnsorted <= QO.sortby_of fsb <= qoSortByTitle.
Proof.
  unfold QO.sortby_of. repeat case_if; vm_compute; split; congruence.
Qed.

Lemma to_uint_range z : is_uint (to_uint z).
Proof. unfold is_uint, to_uint. apply Z.mod_pos_bound. reflexivity. Qed.

Lemma DecLimit_LimitStart_range qo :
  is_uint (LimitStart qo) -> is_uint (LimitLength qo) ->
  0 <= LimitStart (QO.DecLimit qo) <= LimitStart qo.
Proof.
  intros [Hs0 Hs1] [Hl0 Hl1]. rewrite DecLimit_LimitStart.
  destruct (Z.ltb_spec 0 (LimitStart qo)); [|lia].
  destruct (Z.leb_spec (LimitStart qo) (LimitLength qo)); lia.
Qed.

Lemma Update_LimitStart_range vlList r qo :
  qo_wf qo -> 0 <= LimitStart (QO.Update vlList r qo) <= LimitStart qo.
Proof.
  intros Hwf.
  pose proof (DecLimit_LimitStart_range qo (wf_LimitStart qo Hwf) (wf_LimitLength qo Hwf))
    as Hdec.
  pose proof (wf_LimitStart qo Hwf) as [Hs0 Hs1].
  destruct (Update_fields vlList r qo) as (_ & _ & _ & _ & _ & _ & -> & _).
  repeat case_if; lia.
Qed.

(** X2. [Update] keeps the options within the ranges of their types, and
    whatever the request holds, it leaves the language, the layout and the
    theme at one of their two values and the sort field at one of the
    eleven constants; it never touches the count of the matching records. *)
Theorem Update_keeps_wf (vlList : option (gmap string string))
    (r : gmap string (list string)) (qo : TQueryOptions) (Hwf : qo_wf qo) :
  let post := QO.Update vlList r qo in
  qo_wf post
  /\ (GuiLang post = qoLangGerman \/ GuiLang post = qoLangEnglish)
  /\ (Layout post = qoLayoutList \/ Layout post = qoLayoutGrid)
  /\ (Theme post = qoThemeLight \/ Theme post = qoThemeDark)
  /\ qoSortUnsorted <= SortBy post <= qoSortByTitle
  /\ QueryCount post = QueryCount qo.
Proof.
  intros post.
  pose proof (Update_LimitStart_range vlList r qo Hwf) as HLS.
  fold post in HLS.
  destruct (Update_fields vlList r qo)
    as (HI & _ & _ & HG & HL & HLL & _ & _ & HQ & HS & HT & _).
  fold post in HI, HG, HL, HLL, HQ, HS, HT.
  assert (Hg : GuiLang post = qoLangGerman \/ GuiLang post = qoLangEnglish)
    by (rewrite HG; case_if; auto).
  assert (Hl : Layout post = qoLayoutList \/ Layout post = qoLayoutGrid)
    by (rewrite HL; case_if; auto).
  assert (Ht : Theme post = qoThemeLight \/ Theme post = qoThemeDark)
    by (rewrite HT; case_if; auto).
  assert (Hs : qoSortUnsorted <= SortBy post <= qoSortByTitle).
  { rewrite HS. case_if; [apply sortby_of_range|vm_compute; split; congruence]. }
  destruct Hwf as [WI WG WL WLL WLS WQ WS WT].
  assert (Hwf' : qo_wf post).
  { constructor.
    - rewrite HI. repeat case_if; try exact WI; split; vm_compute; congruence.
    - destruct Hg as [-> | ->]; split; vm_compute; congruence.
    - destruct Hl as [-> | ->]; split; vm_compute; congruence.
    - rewrite HLL. case_if; [apply to_uint_range|exact WLL].
    - destruct WLS as [W0 W1]. split; [apply HLS|lia].
    - rewrite HQ. exact WQ.
    - unfold qoSortUnsorted, qoSortByTitle in Hs. split; lia.
    - destruct Ht as [-> | ->]; split; vm_compute; congruence. }
  auto 10.
Qed.

Lemma Update_keeps_wf_witness :
  let post := QO.Update None {[ "sortby" := ["bogus"]; "theme" := ["solarized"] ]}
                defaultOptions in
  qo_wf post /\ Theme post = qoThemeLight /\ SortBy post = qoSortUnsorted.
Proof.
  intros post.
  split; [apply (Update_keeps_wf None _ defaultOptions defaultOptions_wf)|].
  split; reflexivity.
Defined.
(** ** Paging under [Update] *)

Lemma virtlibChanges_fires r qo : virtlibChanges r qo = true -> virtlibFires r qo = true.
Proof.
  unfold virtlibChanges, virtlibFires. intros H.
  apply andb_prop in H as [Hne Hneq]. rewrite Hne. cbn [andb].
  destruct (matchingChanges r qo); [|exact Hneq].
  rewrite (nonempty_eqb_empty _ Hne). reflexivity.
Qed.

Lemma virtlibFires_unchanged r qo :
  matchingChanges r qo = false -> virtlibFires r qo = virtlibChanges r qo.
Proof. unfold virtlibFires. intros ->. reflexivity. Qed.

(** X3. [Update] never moves the listing forward: the start it returns
    is at most the start it found. The start is 0 whenever the request
    brings a new search text, another sort direction, another sort field or
    another virtual library; when it brings none of these, the start is
    untouched, except that a new page length steps one page back
    ([DecLimit] with the old length). *)
Theorem Update_never_advances (vlList : option (gmap string string))
    (r : gmap string (list string)) (qo : TQueryOptions) (Hwf : qo_wf qo) :
  let post := QO.Update vlList r qo in
  0 <= LimitStart post <= LimitStart qo
  /\ (matchingChanges r qo = true \/ orderChanges r qo = true
      \/ sortChanges r qo = true \/ virtlibChanges r qo = true ->
      LimitStart post = 0)
  /\ (matchingChanges r qo = false -> orderChanges r qo = false ->
      sortChanges r qo = false -> virtlibChanges r qo = false ->
      LimitStart post
      = if lengthChanges r qo then LimitStart (QO.DecLimit qo) else LimitStart qo).
Proof.
  intros post. split; [apply Update_LimitStart_range; exact Hwf|].
  destruct (Update_fields vlList r qo) as (_ & _ & _ & _ & _ & _ & HLS & _).
  fold post in HLS. rewrite HLS. split.
  - intros [H | [H | [H | H]]].
    + rewrite H. repeat case_if; reflexivity.
    + rewrite H. repeat case_if; reflexivity.
    + rewrite H. repeat case_if; reflexivity.
    + rewrite (virtlibChanges_fires _ _ H). reflexivity.
  - intros Hm Ho Hs Hv. rewrite (virtlibFires_unchanged _ _ Hm), Hv, Hs, Ho, Hm.
    reflexivity.
Qed.

Lemma Update_never_advances_witness :
  let qo := mkQO 0 true EmptyString 0 0 24 48 EmptyString 0 qoSortByAcquisition 0
              EmptyString in
  LimitStart (QO.Update None {[ "order" := ["descending"]; "sortby" := ["title"] ]} qo) = 0
  /\ LimitStart (QO.Update None {[ "order" := ["descending"]; "sortby" := ["acquisition"];
                                   "limitlength" := ["10"] ]} qo) = 24.
Proof.
  intros qo.
  assert (Hwf : qo_wf qo) by (constructor; split; vm_compute; congruence).
  split.
  - apply (proj1 (proj2 (Update_never_advances None _ qo Hwf))).
    right. right. left. reflexivity.
  - rewrite (proj2 (proj2 (Update_never_advances None _ qo Hwf))); reflexivity.
Defined.

(** X4. A request without any of the form fields makes [Update] return
    the options of a plain listing: no entity, no search text, no virtual
    library, German, list layout, light theme, ascending by acquisition
    date. The page length, the start and the count stay as they are. *)
Theorem Update_empty_form (vlList : option (gmap string string))
    (r : gmap string (list string)) (qo : TQueryOptions)
    (Hempty : forall key : string, FormValue r key = EmptyString) :
  QO.Update vlList r qo
  = mkQO 0 false EmptyString qoLangGerman qoLayoutList (LimitLength qo) (LimitStart qo)
      EmptyString (QueryCount qo) qoSortByAcquisition qoThemeLight EmptyString.
Proof.
  destruct (Update_fields vlList r qo)
    as (HI & HD & HE & HG & HL & HLL & HLS & HM & HQ & HS & HT & HV).
  unfold virtlibFires, matchingChanges, orderChanges, sortChanges, lengthChanges in *.
  rewrite !Hempty in *. cbn in *.
  apply qo_ext; cbn; assumption.
Qed.

Lemma Update_empty_form_witness :
  QO.Update None ∅ defaultOptions
  = mkQO 0 false EmptyString qoLangGerman qoLayoutList 24 0 EmptyString 0
      qoSortByAcquisition qoThemeLight EmptyString.
Proof.
  apply (Update_empty_form None ∅ defaultOptions).
  intros key. unfold FormValue. rewrite lookup_empty. reflexivity.
Defined.

(** ** Applying a request twice *)

Lemma lengthChanges_Update vlList r qo :
  lengthChanges r (QO.Update vlList r qo) = false.
Proof.
  destruct (Update_fields vlList r qo) as (_ & _ & _ & _ & _ & HLL & _).
  unfold lengthChanges in *. rewrite HLL.
  destruct (nonempty (FormValue r "limitlength")); [|reflexivity].
  destruct (strconv.Atoi (FormValue r "limitlength")) as [ll [e|]]; [reflexivity|].
  cbn [andb fst].
  destruct (Z.eqb_spec (to_uint ll) (LimitLength qo)) as [Heq|Hne]; cbn [negb].
  - rewrite Heq, Z.eqb_refl. reflexivity.
  - rewrite Z.eqb_refl. reflexivity.
Qed.

Lemma orderChanges_Update vlList r qo :
  orderChanges r (QO.Update vlList r qo) = false.
Proof.
  destruct (Update_fields vlList r qo) as (_ & HD & _).
  unfold orderChanges. rewrite HD.
  destruct (nonempty (FormValue r "order")); [|reflexivity].
  cbn [andb]. rewrite eqb_reflx. reflexivity.
Qed.

Lemma sortChanges_Update vlList r qo :
  sortChanges r (QO.Update vlList r qo) = false.
Proof.
  destruct (Update_fields vlList r qo) as (_ & _ & _ & _ & _ & _ & _ & _ & _ & HS & _).
  unfold sortChanges. rewrite HS.
  destruct (nonempty (FormValue r "sortby")); [|reflexivity].
  cbn [andb]. rewrite Z.eqb_refl. reflexivity.
Qed.

(** X5. For a request without the "virtlib" field, [Update] is
    idempotent: applying the same request to the options it has returned
    changes nothing. *)
Theorem Update_idempotent (vlList : option (gmap string string))
    (r : gmap string (list string)) (qo : TQueryOptions)
    (Hvl : FormValue r "virtlib" = EmptyString) :
  QO.Update vlList r (QO.Update vlList r qo) = QO.Update vlList r qo.
Proof.
  pose proof (lengthChanges_Update vlList r qo) as HlC.
  pose proof (orderChanges_Update vlList r qo) as HoC.
  pose proof (sortChanges_Update vlList r qo) as HsC.
  destruct (Update_fields vlList r qo)
    as (HI & HD & HE & HG & HL & HLL & HLS & HM & HQ & HS & HT & HV).
  assert (Hfires : forall q, virtlibFires r q = false).
  { intros q. unfold virtlibFires. rewrite Hvl. reflexivity. }
  rewrite Hfires in HI, HE, HLS, HM, HV.
  assert (HmC : matchingChanges r (QO.Update vlList r qo) = false).
  { unfold matchingChanges. rewrite HM, String.eqb_refl. apply andb_false_r. }
  destruct (Update_fields vlList r (QO.Update vlList r qo))
    as (HI2 & HD2 & HE2 & HG2 & HL2 & HLL2 & HLS2 & HM2 & HQ2 & HS2 & HT2 & HV2).
  rewrite Hfires in HI2, HE2, HLS2, HM2, HV2.
  rewrite HlC in HLL2, HLS2. rewrite HoC, HsC, HmC in HLS2. rewrite HmC in HI2.
  apply qo_ext.
  - rewrite HI2, HI. cbn [negb]. rewrite andb_true_r.
    destruct (nonempty (FormValue r "matching")); reflexivity.
  - rewrite HD2, HD. reflexivity.
  - rewrite HE2, HE. destruct (nonempty (FormValue r "matching")); reflexivity.
  - rewrite HG2, HG. reflexivity.
  - rewrite HL2, HL. reflexivity.
  - exact HLL2.
  - exact HLS2.
  - rewrite HM2, HM. reflexivity.
  - exact HQ2.
  - rewrite HS2, HS. reflexivity.
  - rewrite HT2, HT. reflexivity.
  - rewrite HV2, HV. reflexivity.
Qed.

Lemma Update_idempotent_witness :
  let r : gmap string (list string) :=
    {[ "matching" := ["verne"]; "limitlength" := ["48"]; "order" := ["descending"];
       "sortby" := ["title"]; "theme" := ["dark"] ]} in
  QO.Update None r (QO.Update None r defaultOptions) = QO.Update None r defaultOptions.
Proof.
  intros r. apply (Update_idempotent None r defaultOptions). reflexivity.
Defined.
(** ** The page length from the request to the LIMIT clause *)

Lemma atoiFast_range (s : string) :
  forall n m k,
    strconv.atoiFast s n = Some m -> 0 <= n < 10 ^ k -> 0 <= k ->
    0 <= m < 10 ^ (k + Z.of_nat (String.length s)).
Proof.
  induction s as [|c s IH]; intros n m k Hm Hn Hk; cbn [strconv.atoiFast] in Hm.
  - injection Hm as <-. cbn [String.length]. rewrite Z.add_0_r. exact Hn.
  - destruct (strconv.isDigit c) eqn:Hd; [|discriminate].
    apply isDigit_range in Hd.
    specialize (IH _ _ (k + 1) Hm).
    replace (k + Z.of_nat (String.length (String c s)))
      with (k + 1 + Z.of_nat (String.length s)) by (cbn [String.length]; lia).
    apply IH; [|lia].
    rewrite Z.pow_add_r by lia. change (10 ^ 1) with 10. lia.
Qed.

Lemma parseUintLoop_nonneg (maxVal : Z) (s : string) :
  forall n v e,
    0 <= maxVal -> 0 <= n -> strconv.parseUintLoop maxVal s n = (v, e) -> 0 <= v.
Proof.
  induction s as [|c s IH]; intros n v e Hmax Hn H; cbn [strconv.parseUintLoop] in H.
  - injection H as <- _. exact Hn.
  - destruct (strconv.isDigit c); [|injection H as <- _; lia].
    destruct (strconv.cutoff10 <=? n); [injection H as <- _; exact Hmax|].
    cbv zeta in H.
    destruct ((to_uint (n * 10 + (byte c - 48)) <? n * 10)
              || (maxVal <? to_uint (n * 10 + (byte c - 48))));
      [injection H as <- _; exact Hmax|].
    apply (IH _ _ _ Hmax) in H; [exact H|].
    apply to_uint_range.
Qed.

Lemma ParseUint_nonneg (s : string) (v : Z) (e : option strconv.NumError) :
  strconv.ParseUint s 0 = (v, e) -> 0 <= v.
Proof.
  unfold strconv.ParseUint. destruct s as [|c s]; [intros H; injection H as <- _; lia|].
  apply parseUintLoop_nonneg; vm_compute; congruence.
Qed.

Lemma ParseInt_range (s : string) (i : Z) :
  strconv.ParseInt s 0 = (i, None) -> is_int i.
Proof.
  unfold strconv.ParseInt. destruct s as [|c0 s1]; [discriminate|].
  cbv zeta.
  destruct (strconv.ParseUint
              (if Ascii.eqb c0 "+" || Ascii.eqb c0 "-" then s1 else String c0 s1) 0)
    as [un e] eqn:Hun.
  apply ParseUint_nonneg in Hun.
  change (if 0 =? 0 then 64 else 0) with 64. change (2 ^ (64 - 1)) with (2 ^ 63).
  unfold is_int, minInt64, maxInt64.
  destruct e as [[|]|]; [discriminate| |].
  all: destruct (Ascii.eqb c0 "-"); cbn [negb andb];
    repeat (case_if; try discriminate); intros H; injection H as <-; boolZ; lia.
Qed.

Lemma Atoi_range (s : string) (i : Z) : strconv.Atoi s = (i, None) -> is_int i.
Proof.
  unfold strconv.Atoi.
  destruct ((0 <? Z.of_nat (String.length s)) && (Z.of_nat (String.length s) <? 19))
    eqn:Hlen; [|apply ParseInt_range].
  apply andb_prop in Hlen as [_ Hlt]. apply Z.ltb_lt in Hlt.
  destruct s as [|c0 s1]; [discriminate|].
  cbv zeta.
  set (body := if Ascii.eqb c0 "-" || Ascii.eqb c0 "+" then s1 else String c0 s1).
  assert (Hbody : (String.length body <= String.length (String c0 s1))%nat).
  { unfold body. destruct (Ascii.eqb c0 "-" || Ascii.eqb c0 "+"); cbn [String.length]; lia. }
  case_if; [discriminate|].
  destruct (strconv.atoiFast body 0) as [n|] eqn:Hn; [|discriminate].
  apply (atoiFast_range _ _ _ 0) in Hn; [|lia|lia].
  assert (Hpow : 10 ^ (0 + Z.of_nat (String.length body)) <= 10 ^ 18)
    by (apply Z.pow_le_mono_r; lia).
  intros H. injection H as <-.
  unfold is_int, minInt64, maxInt64. destruct (Ascii.eqb c0 "-"); lia.
Qed.

Lemma Atoi_empty : strconv.Atoi EmptyString = (0, Some strconv.ErrSyntax).
Proof. reflexivity. Qed.

Lemma to_int_to_uint (i : Z) : is_int i -> to_int (to_uint i) = i.
Proof.
  unfold is_int, minInt64, maxInt64, to_int, to_uint, uint64_mod. intros H.
  rewrite Zplus_mod_idemp_l. rewrite Z.mod_small; lia.
Qed.

(** X6. Whatever integer the "limitlength" field holds is the page length
    after [Update], converted to [uint], and [limit] prints it as the
    integer it was in the request: a negative page length of the request
    arrives in the LIMIT clause as the same negative number. *)
Theorem Update_limitlength_limit (vlList : option (gmap string string))
    (r : gmap string (list string)) (qo : TQueryOptions) (ll : Z)
    (Hparse : strconv.Atoi (FormValue r "limitlength") = (ll, None)) :
  let post := QO.Update vlList r qo in
  is_int ll
  /\ LimitLength post = to_uint ll
  /\ db.limit (LimitStart post) (LimitLength post)
     = "LIMIT " +:+ strconv.FormatInt (to_int (LimitStart post)) +:+ ","
         +:+ strconv.FormatInt ll.
Proof.
  intros post. pose proof (Atoi_range _ _ Hparse) as Hint.
  assert (HLL : LimitLength post = to_uint ll).
  { destruct (Update_fields vlList r qo) as (_ & _ & _ & _ & _ & HLL & _).
    fold post in HLL. rewrite HLL. unfold lengthChanges. rewrite Hparse. cbn [fst].
    destruct (FormValue r "limitlength") as [|c s];
      [rewrite Atoi_empty in Hparse; discriminate|].
    change (nonempty (String c s)) with true. cbn [andb].
    destruct (Z.eqb_spec (to_uint ll) (LimitLength qo)) as [Heq|Hne]; cbn [negb]; auto. }
  split; [exact Hint|]. split; [exact HLL|].
  unfold db.limit. rewrite HLL, (to_int_to_uint _ Hint). reflexivity.
Qed.

Lemma Update_limitlength_limit_witness :
  let post := QO.Update None {[ "limitlength" := ["-1"] ]} defaultOptions in
  LimitLength post = 18446744073709551615
  /\ db.limit (LimitStart post) (LimitLength post) = "LIMIT 0,-1".
Proof.
  intros post.
  assert (Hparse : strconv.Atoi
            (FormValue ({[ "limitlength" := ["-1"] ]} : gmap string (list string))
               "limitlength") = (-1, None)) by reflexivity.
  destruct (Update_limitlength_limit None _ defaultOptions (-1) Hparse) as (_ & HLL & Hlim).
  split; [exact HLL|exact Hlim].
Defined.
(** ** [Scan] of a text that is no text of options *)

Lemma runes_head (c0 : ascii) (t : string) :
  exists rest, utf8.runes (String c0 t) = fst (utf8.DecodeRune (String c0 t)) :: rest.
Proof.
  unfold utf8.runes, utf8.segments. cbn [String.length utf8.segmentsLoop].
  destruct (utf8.DecodeRune (String c0 t)) as [r w]. cbn [map fst]. eauto.
Qed.

Lemma first_rune_not_ascii (c0 : ascii) (t : string) (b : Z) :
  0 <= b < 128 -> byte c0 <> b -> fst (utf8.DecodeRune (String c0 t)) <> b.
Proof.
  intros Hb Hne.
  destruct (utf8.DecodeRune (String c0 t)) as [r w] eqn:Hd. cbn [fst].
  apply DecodeRune_inv in Hd as [(-> & _ & _) | Hwf].
  - unfold utf8.RuneError. lia.
  - inversion Hwf; subst.
    + exact Hne.
    + unfold seq2, rune2 in *. lia.
    + unfold seq3, rune3 in *. lia.
    + unfold seq4, rune4 in *. lia.
Qed.

Lemma doScanf_mismatch (c : ascii) (rest : string) (a : list fmt.dest) (r : Z)
    (more : list Z) :
  c <> "%"%char -> r <> byte c -> fmt.doScanf (String c rest) a (r :: more) = [].
Proof.
  intros Hc Hr. cbn [fmt.doScanf].
  destruct (Ascii.eqb_spec c "%"); [contradiction|].
  destruct (Z.eqb_spec r (byte c)); [contradiction|reflexivity].
Qed.

(** X7. [Scan] reports no error. From a text that does not begin with
    the bar of the pattern (the empty text among them) it reads nothing:
    every field keeps the value the options had, except [Matching] and
    [VirtLib], which are assigned from the two local strings and so become
    empty. *)
Theorem Scan_without_bar (aString : string) (qo : TQueryOptions)
    (Hbar : gostrings.stripPrefix "|" aString = None) :
  QO.Scan aString qo = set_VirtLib EmptyString (set_Matching EmptyString qo).
Proof.
  assert (Hscan : fmt.Sscanf aString QO.qoStringPattern
            [fmt.DInt 64; fmt.DBool; fmt.DString; fmt.DUint 8; fmt.DUint 8; fmt.DUint 64;
             fmt.DUint 64; fmt.DString; fmt.DUint 64; fmt.DUint 8; fmt.DUint 8;
             fmt.DString] = []).
  { unfold fmt.Sscanf, QO.qoStringPattern. destruct aString as [|c0 t]; [reflexivity|].
    destruct (runes_head c0 t) as [rest ->].
    apply doScanf_mismatch; [discriminate|].
    apply first_rune_not_ascii; [vm_compute; split; congruence|].
    intros Hc. apply byte_inj in Hc. subst c0. discriminate Hbar. }
  unfold QO.Scan. rewrite Hscan. destruct qo. reflexivity.
Qed.

Lemma Scan_without_bar_witness :
  let qo := mkQO 7 true "authors" 1 1 48 96 "verne" 120 qoSortByTitle 1 "sf" in
  QO.Scan EmptyString qo
  = mkQO 7 true "authors" 1 1 48 96 EmptyString 120 qoSortByTitle 1 EmptyString
  /\ QO.Scan "0|true|" qo
     = mkQO 7 true "authors" 1 1 48 96 EmptyString 120 qoSortByTitle 1 EmptyString.
Proof.
  intros qo. split.
  - apply (Scan_without_bar EmptyString qo). reflexivity.
  - apply (Scan_without_bar "0|true|" qo). reflexivity.
Defined.

(** ** [NewQueryOptions] *)

Lemma scanUint_range (input : list Z) (i : Z) (more : list Z) :
  fmt.scanUint 64 input = Some (i, more) -> is_uint i.
Proof.
  unfold fmt.scanUint. intros H.
  destruct (fmt.SkipSpace input) as [in1|]; [|discriminate]. cbn [mbind option_bind] in H.
  destruct (fmt.notEOF in1) as [in2|]; [|discriminate]. cbn [mbind option_bind] in H.
  destruct (fmt.scanNumber in2) as [[tok in3]|]; [|discriminate].
  cbn [mbind option_bind] in H.
  destruct (strconv.ParseUint tok 64) as [v [e|]]; [discriminate|].
  destruct (Z.eqb_spec (v mod 2 ^ 64) v) as [Heq|]; [|discriminate].
  injection H as <- _. rewrite <- Heq. apply to_uint_range.
Qed.

Lemma Sscanf_one_uint (s : string) :
  fmt.Sscanf s "%d" [fmt.DUint 64] = []
  \/ exists n, is_uint n /\ fmt.Sscanf s "%d" [fmt.DUint 64] = [fmt.VInt n].
Proof.
  unfold fmt.Sscanf. cbn [fmt.doScanf]. change (Ascii.eqb "%" "%") with true. cbn match.
  destruct (fmt.SkipSpace (utf8.runes s)) as [input|]; [|left; reflexivity].
  cbn [mbind option_bind]. unfold fmt.scanOne. change (Ascii.eqb "d" "d") with true.
  cbn match.
  destruct (fmt.scanUint 64 input) as [[i more]|] eqn:Hscan; [|left; reflexivity].
  cbn [mbind option_bind]. right. exists i. split; [|reflexivity].
  eapply scanUint_range. exact Hscan.
Qed.

Lemma acceptDigits_end (ds : string) :
  allDigits ds = true ->
  fmt.acceptDigits (map byte (list_ascii_of_string ds)) = (ds, []).
Proof.
  induction ds as [|c ds IH]; intros Hall; [reflexivity|].
  cbn [allDigits] in Hall. apply andb_prop in Hall as [Hc Hds].
  apply isDigit_range in Hc.
  cbn [list_ascii_of_string map fmt.acceptDigits]. unfold fmt.isDecimalDigit.
  destruct (Z.leb_spec 48 (byte c)); [|lia].
  destruct (Z.leb_spec (byte c) 57); [|lia]. cbn [andb orb].
  rewrite IH by exact Hds. rewrite chr_byte. reflexivity.
Qed.

Lemma Sscanf_FormatUint (u : Z) :
  is_uint u -> fmt.Sscanf (strconv.FormatUint u) "%d" [fmt.DUint 64] = [fmt.VInt u].
Proof.
  unfold is_uint, uint64_mod. intros Hu.
  destruct (FormatUint_digits u ltac:(lia)) as (c & ds & Heq & Hall).
  pose proof (ParseUint_FormatUint u 64 Hu ltac:(auto)) as Hparse.
  rewrite Heq in *.
  pose proof (runes_digits (String c ds) EmptyString Hall) as Hrunes.
  rewrite append_nil_r, runes_nil, app_nil_r in Hrunes.
  pose proof Hall as Hc. cbn [allDigits] in Hc. apply andb_prop in Hc as [Hc _].
  apply isDigit_range in Hc.
  assert (Hskip : fmt.SkipSpace (map byte (list_ascii_of_string (String c ds)))
                  = Some (map byte (list_ascii_of_string (String c ds)))).
  { cbn [list_ascii_of_string map]. apply SkipSpace_stay. lia. }
  unfold fmt.Sscanf. rewrite Hrunes.
  cbn [fmt.doScanf]. change (Ascii.eqb "%" "%") with true. cbn match.
  rewrite Hskip. cbn [mbind option_bind].
  unfold fmt.scanOne. change (Ascii.eqb "d" "d") with true. cbn match.
  unfold fmt.scanUint. rewrite Hskip. cbn [mbind option_bind].
  change (fmt.notEOF (map byte (list_ascii_of_string (String c ds))))
    with (Some (map byte (list_ascii_of_string (String c ds)))).
  cbn [mbind option_bind].
  assert (Hnum : fmt.scanNumber (map byte (list_ascii_of_string (String c ds)))
                 = Some (String c ds, [])).
  { unfold fmt.scanNumber. rewrite (acceptDigits_end _ Hall).
    cbn [list_ascii_of_string map]. unfold fmt.isDecimalDigit.
    destruct (Z.leb_spec 48 (byte c)); [|lia].
    destruct (Z.leb_spec (byte c) 57); [|lia]. reflexivity. }
  rewrite Hnum. cbn [mbind option_bind].
  rewrite Hparse. rewrite Z.mod_small by exact Hu. rewrite Z.eqb_refl. reflexivity.
Qed.

(** X8. [NewQueryOptions] returns options within the ranges of their
    types that differ from the built-in defaults (descending by
    acquisition date, 24 books per page, start 0) in the page length at
    most. Without a configured text the length is 24; a configured
    decimal number is taken as it is, zero included. *)
Theorem NewQueryOptions_defaults (booksperpage : string) :
  (exists n, is_uint n
             /\ QO.NewQueryOptions booksperpage = set_LimitLength n defaultOptions)
  /\ qo_wf (QO.NewQueryOptions booksperpage)
  /\ QO.NewQueryOptions EmptyString = defaultOptions
  /\ (forall u, is_uint u ->
        QO.NewQueryOptions (strconv.FormatUint u) = set_LimitLength u defaultOptions).
Proof.
  assert (H24 : is_uint 24) by (split; vm_compute; congruence).
  assert (Hex : exists n, is_uint n
             /\ QO.NewQueryOptions booksperpage = set_LimitLength n defaultOptions).
  { unfold QO.NewQueryOptions. destruct (nonempty booksperpage).
    - destruct (Sscanf_one_uint booksperpage) as [-> | (n & Hn & ->)]; eauto.
    - exists 24. auto. }
  split; [exact Hex|]. split; [|split; [reflexivity|]].
  - destruct Hex as (n & Hn & ->).
    constructor; cbn; try exact Hn; split; vm_compute; congruence.
  - intros u Hu. unfold QO.NewQueryOptions.
    destruct (FormatUint_digits u ltac:(destruct Hu; lia)) as (c & ds & Heq & _).
    rewrite (Sscanf_FormatUint u Hu), Heq. reflexivity.
Qed.

Lemma NewQueryOptions_defaults_witness :
  QO.NewQueryOptions (strconv.FormatUint 0) = set_LimitLength 0 defaultOptions
  /\ QO.NewQueryOptions "many" = defaultOptions.
Proof.
  split; [|reflexivity].
  apply (proj2 (proj2 (proj2 (NewQueryOptions_defaults EmptyString)))).
  split; vm_compute; congruence.
Defined.
(** * Further properties of the composer and the decoders *)

(** ** [escapeQuery] loses nothing *)

Lemma escapedByte_copied (c : ascii) : copiedByte c = true -> db.escapedByte c = [c].
Proof.
  unfold copiedByte, db.escapedByte, db.isEscaped. intros H.
  apply negb_true_iff, orb_false_elim in H as [H1 H2]. rewrite H1, H2. reflexivity.
Qed.

Lemma escapedByte_replaced (c : ascii) :
  copiedByte c = false -> length (db.escapedByte c) = 2%nat.
Proof.
  unfold copiedByte, db.escapedByte, db.isEscaped. intros H.
  apply negb_false_iff, orb_prop in H as [H | H]; rewrite H; [reflexivity|].
  case_if; reflexivity.
Qed.

Lemma flat_map_escaped_ge (src : list ascii) :
  (length src <= length (flat_map db.escapedByte src))%nat.
Proof.
  induction src as [|c src IH]; cbn [flat_map length]; [lia|].
  rewrite length_app. pose proof (escapedByte_length c). lia.
Qed.

Lemma flat_map_escaped_plain (src : list ascii) :
  flat_map db.escapedByte src = src <-> forallb copiedByte src = true.
Proof.
  induction src as [|c src IH]; cbn [flat_map forallb]; [tauto|].
  destruct (copiedByte c) eqn:Hc; cbn [andb].
  - rewrite (escapedByte_copied c Hc). cbn [app]. rewrite <- IH.
    split; [intros H; injection H; auto|intros ->; reflexivity].
  - split; [|discriminate]. intros H. exfalso.
    apply (f_equal (@length ascii)) in H. rewrite length_app in H. cbn [length] in H.
    pose proof (escapedByte_replaced c Hc). pose proof (flat_map_escaped_ge src). lia.
Qed.

Lemma string_of_list_inj (a b : list ascii) :
  string_of_list_ascii a = string_of_list_ascii b -> a = b.
Proof.
  intros H. apply (f_equal list_ascii_of_string) in H.
  rewrite !list_ascii_of_string_of_list_ascii in H. exact H.
Qed.

(** The first byte of the text written for a byte tells whether the byte
    was copied, and the second which byte was escaped. *)
Lemma escapedByte_shape (c : ascii) :
  (db.escapedByte c = [c] /\ c <> ch_backslash)
  \/ (db.escapedByte c = [ch_backslash; c] /\ c <> "Z"%char /\ copiedByte c = false)
  \/ (db.escapedByte c = [ch_backslash; "Z"%char] /\ c = ch_ctrlZ).
Proof.
  unfold db.escapedByte, copiedByte, db.isEscaped.
  destruct (Ascii.eqb_spec c ch_nl) as [->|]; [right; left; repeat split; discriminate|].
  destruct (Ascii.eqb_spec c ch_cr) as [->|]; [right; left; repeat split; discriminate|].
  destruct (Ascii.eqb_spec c ch_backslash) as [->|];
    [right; left; repeat split; discriminate|].
  destruct (Ascii.eqb_spec c ch_dquote) as [->|]; [right; left; repeat split; discriminate|].
  destruct (Ascii.eqb_spec c ch_ctrlZ) as [->|]; [right; right; auto|].
  left. auto.
Qed.

Lemma flat_map_escaped_inj (a : list ascii) :
  forall b, flat_map db.escapedByte a = flat_map db.escapedByte b -> a = b.
Proof.
  induction a as [|x a IH]; intros [|y b] H; cbn [flat_map] in H.
  - reflexivity.
  - pose proof (escapedByte_length y). destruct (db.escapedByte y); cbn in *; [lia|discriminate].
  - pose proof (escapedByte_length x). destruct (db.escapedByte x); cbn in *; [lia|discriminate].
  - destruct (escapedByte_shape x) as [[Hx Hxb] | [(Hx & HxZ & _) | [Hx ->]]];
      destruct (escapedByte_shape y) as [[Hy Hyb] | [(Hy & HyZ & _) | [Hy ->]]];
      rewrite Hx in H; rewrite ?Hy in H; cbn [app] in H; injection H; intros; subst;
      try contradiction; try congruence; f_equal; apply IH; assumption.
Qed.

(** X9. [escapeQuery] returns for every text; the result has at least as
    many bytes as the text and at most twice as many, and it is the text
    itself exactly when the text holds none of the five bytes the function
    cares for (newline, carriage return, backslash, double quote,
    Ctrl-Z). *)
Theorem escapeQuery_plain (aSource : string) :
  exists out,
    db.escapeQuery aSource = Some out
    /\ (String.length aSource <= String.length out <= 2 * String.length aSource)%nat
    /\ (out = aSource <-> plainText aSource = true).
Proof.
  exists (db.escapedText aSource). split; [apply escapeQuery_escapedText|].
  unfold db.escapedText, plainText.
  rewrite <- (list_ascii_length (string_of_list_ascii _)),
    list_ascii_of_string_of_list_ascii, <- (list_ascii_length aSource).
  split.
  - split; [apply flat_map_escaped_ge|apply flat_map_escaped_length].
  - rewrite <- flat_map_escaped_plain. split.
    + intros H. apply string_of_list_inj.
      rewrite string_of_list_ascii_of_string. exact H.
    + intros ->. apply string_of_list_ascii_of_string.
Qed.

(** X10. [escapeQuery] is injective: two different texts are escaped to
    two different texts, so that the text can be recovered from its
    escaped form. *)
Theorem escapeQuery_injective (a b : string) (Hne : a <> b) :
  db.escapeQuery a <> db.escapeQuery b.
Proof.
  rewrite !escapeQuery_escapedText. unfold db.escapedText. intros H.
  injection H as H. apply string_of_list_inj, flat_map_escaped_inj in H.
  apply Hne. rewrite <- (string_of_list_ascii_of_string a),
    <- (string_of_list_ascii_of_string b), H. reflexivity.
Qed.

Lemma escapeQuery_injective_witness :
  db.escapeQuery (str1 ch_ctrlZ) <> db.escapeQuery (String ch_backslash "Z").
Proof.
  apply (escapeQuery_injective (str1 ch_ctrlZ) (String ch_backslash "Z")).
  discriminate.
Defined.
(** ** [orderBy] *)

(** X11. [orderBy] returns the empty string exactly for an order outside
    the ten sort fields ([qoSortUnsorted] among them), so that the query
    then has no ORDER BY clause at all. For each of the ten fields the
    clause begins with ORDER BY and ends with a blank; the ascending
    clause does not contain DESC, and the descending clause ends with
    DESC. *)
Theorem orderBy_clause (aOrder : Z) (aDescending : bool) :
  (db.orderBy aOrder aDescending = EmptyString
   <-> aOrder < qoSortByAcquisition \/ qoSortByTitle < aOrder)
  /\ (qoSortByAcquisition <= aOrder <= qoSortByTitle ->
      String.prefix " ORDER BY " (db.orderBy aOrder aDescending) = true
      /\ endsWith (db.orderBy aOrder aDescending)
           (if aDescending then " DESC " else " ") = true
      /\ gostrings.Count (db.orderBy aOrder false) "DESC" = 0%nat
      /\ (0 < gostrings.Count (db.orderBy aOrder true) "DESC")%nat).
Proof.
  unfold qoSortByAcquisition, qoSortByTitle.
  assert (Hcases : aOrder < 1 \/ 10 < aOrder \/ aOrder = 1 \/ aOrder = 2 \/ aOrder = 3
                   \/ aOrder = 4 \/ aOrder = 5 \/ aOrder = 6 \/ aOrder = 7 \/ aOrder = 8
                   \/ aOrder = 9 \/ aOrder = 10) by lia.
  assert (Hout : aOrder < 1 \/ 10 < aOrder -> db.orderBy aOrder aDescending = EmptyString).
  { intros H. unfold db.orderBy, qoSortByAcquisition, qoSortByAuthor, qoSortByLanguage,
      qoSortByPublisher, qoSortByRating, qoSortBySeries, qoSortBySize, qoSortByTags,
      qoSortByTime, qoSortByTitle.
    repeat match goal with
           | |- context [aOrder =? ?k] => destruct (Z.eqb_spec aOrder k); [lia|]
           end.
    reflexivity. }
  destruct Hcases as [H | [H | H]].
  - split; [split; [lia|intros _; apply Hout; lia]|lia].
  - split; [split; [lia|intros _; apply Hout; lia]|lia].
  - assert (Hin : 1 <= aOrder <= 10) by lia.
    repeat (destruct H as [-> | H]; [|]); try subst aOrder;
      (split; [split; [destruct aDescending; vm_compute; discriminate|lia]|]);
      intros _; destruct aDescending; vm_compute; repeat split; lia.
Qed.

Lemma orderBy_clause_witness :
  String.prefix " ORDER BY " (db.orderBy qoSortByTitle true) = true
  /\ endsWith (db.orderBy qoSortByTitle true) " DESC " = true
  /\ gostrings.Count (db.orderBy qoSortByTitle false) "DESC" = 0%nat
  /\ (0 < gostrings.Count (db.orderBy qoSortByTitle true) "DESC")%nat.
Proof.
  apply (proj2 (orderBy_clause qoSortByTitle true)). vm_compute. split; congruence.
Defined.

(** ** The decoders of the identifiers, the publisher and the series *)

Lemma cut_bar (s : string) :
  gostrings.cut "|" s = None <-> strconv.containsByte s ch_bar = false.
Proof.
  induction s as [|c s IH]; [cbn; tauto|].
  rewrite containsByte_cons. cbn [gostrings.cut gostrings.stripPrefix].
  destruct (Ascii.eqb_spec "|"%char c) as [<-|Hne].
  - cbn. split; discriminate.
  - assert (Hb : Ascii.eqb ch_bar c = false)
      by (apply Ascii.eqb_neq; exact Hne).
    rewrite Hb. cbn [orb]. rewrite <- IH.
    destruct (gostrings.cut "|" s) as [[a b]|]; split; congruence.
Qed.

Lemma decodeSegment_identifier (val : string) :
  val <> EmptyString ->
  (is_Some (db.decodeSegment 3 true val) <-> strconv.containsByte val ch_bar = true).
Proof.
  intros Hval. unfold db.decodeSegment, gostrings.SplitN.
  assert (Hcuts : exists k, (Nat.min 3 (String.length val + 1) - 1 = S k)%nat).
  { destruct val as [|c [|c2 v]]; [contradiction|exists 0%nat; reflexivity|].
    exists 1%nat. cbn [String.length]. lia. }
  destruct Hcuts as [k ->]. cbn [gostrings.genSplit].
  destruct (gostrings.cut "|" val) as [[a b]|] eqn:Hcut.
  - destruct (genSplit_nonempty k "|" b) as (first & rest & ->).
    assert (Hbar : strconv.containsByte val ch_bar = true).
    { destruct (strconv.containsByte val ch_bar) eqn:Hc; [reflexivity|].
      apply cut_bar in Hc. congruence. }
    split; [intros _; exact Hbar|intros _].
    destruct rest as [|third rest]; cbn; eauto.
  - assert (Hbar : strconv.containsByte val ch_bar = false) by (apply cut_bar; exact Hcut).
    rewrite Hbar. cbn. split; [intros [x Hx]; discriminate Hx|discriminate].
Qed.

Lemma decodeLoop_identifiers (segs : list string) :
  forall result,
    is_Some (db.decodeLoop 3 true segs result) <-> forallb emptyOrBarred segs = true.
Proof.
  induction segs as [|val segs IH]; intros result; cbn [db.decodeLoop forallb].
  - split; [reflexivity|eauto].
  - unfold emptyOrBarred at 1.
    destruct (Nat.eqb_spec (String.length val) 0) as [Hz|Hnz]; cbn [orb andb];
      [apply IH|].
    assert (Hval : val <> EmptyString) by (intros ->; apply Hnz; reflexivity).
    pose proof (decodeSegment_identifier val Hval) as Hseg.
    destruct (db.decodeSegment 3 true val) as [e|]; cbn [mbind option_bind].
    + rewrite (proj1 Hseg) by eauto. cbn [andb]. apply IH.
    + destruct (strconv.containsByte val ch_bar).
      * destruct (proj2 Hseg eq_refl) as [x Hx]. discriminate Hx.
      * cbn [andb]. split; [intros [x Hx]; discriminate Hx|discriminate].
Qed.

(** X12. [prepIdentifiers] returns a list exactly when every segment of
    its input that is not empty holds a bar; on a segment without a bar
    the index [a[2]] is outside the slice and the function panics (the
    [append] of one empty string makes sure of two indices, not of
    three). *)
Theorem prepIdentifiers_indexes
    (sortSlice : (db.TEntity -> db.TEntity -> bool) -> list db.TEntity -> list db.TEntity)
    (aIdentifier : string) :
  is_Some (db.prepIdentifiers sortSlice aIdentifier)
  <-> forallb emptyOrBarred (gostrings.Split aIdentifier ", ") = true.
Proof.
  rewrite <- (decodeLoop_identifiers (gostrings.Split aIdentifier ", ") []).
  unfold db.prepIdentifiers.
  destruct (db.decodeLoop 3 true (gostrings.Split aIdentifier ", ") []);
    cbn [mbind option_bind]; split; intros [x Hx]; try discriminate Hx; eauto.
Qed.

Lemma decodeFirst_spec (segs : list string) :
  match firstSegment segs with
  | None => db.decodeFirst segs = Some None
  | Some val =>
      exists e, db.decodeSegment 2 false val = Some e
                /\ db.decodeFirst segs = Some (Some e)
  end.
Proof.
  unfold firstSegment.
  induction segs as [|val segs IH]; cbn [db.decodeFirst List.filter]; [reflexivity|].
  destruct (Nat.eqb_spec (String.length val) 0) as [Hz|Hnz]; cbn [negb]; [exact IH|].
  cbn [head]. destruct (decodeSegment_total val) as [e He].
  exists e. rewrite He. auto.
Qed.

(** X13. [prepPublisher] and [prepSeries] are the same function and
    never panic. The result is nil exactly when every segment of the input
    is empty; otherwise it is the record of the first segment that is not
    empty, and whatever follows that segment is ignored. *)
Theorem prepPublisher_first (aPublisher : string) :
  db.prepSeries aPublisher = db.prepPublisher aPublisher
  /\ (exists r, db.prepPublisher aPublisher = Some r)
  /\ (db.prepPublisher aPublisher = Some None
      <-> firstSegment (gostrings.Split aPublisher ", ") = None)
  /\ (forall val,
        firstSegment (gostrings.Split aPublisher ", ") = Some val ->
        exists e, db.decodeSegment 2 false val = Some e
                  /\ db.prepPublisher aPublisher = Some (Some e)).
Proof.
  unfold db.prepSeries, db.prepPublisher.
  pose proof (decodeFirst_spec (gostrings.Split aPublisher ", ")) as H.
  destruct (firstSegment (gostrings.Split aPublisher ", ")) as [val|].
  - destruct H as (e & He & Hd). rewrite Hd.
    split; [reflexivity|]. split; [eauto|]. split; [split; discriminate|].
    intros v Hv. injection Hv as <-. eauto.
  - rewrite H. split; [reflexivity|]. split; [eauto|]. split; [tauto|discriminate].
Qed.

Lemma prepPublisher_first_witness :
  db.prepPublisher ", , Tor Books|3, Ace|4"
  = Some (Some (db.mkEntity 3 "Tor Books" EmptyString)).
Proof.
  destruct (proj2 (proj2 (proj2 (prepPublisher_first ", , Tor Books|3, Ace|4")))
              "Tor Books|3" eq_refl) as (e & He & Hp).
  rewrite Hp. f_equal. f_equal.
  assert (Hd : db.decodeSegment 2 false "Tor Books|3"
               = Some (db.mkEntity 3 "Tor Books" EmptyString)) by reflexivity.
  congruence.
Defined.

(** ** The errors of the query drivers *)

Section DriverErrors.

Context {Row TDocument : Type}.
Variable st : db.TStore Row TDocument.
Variable clause : string -> string.
Variable aOptions : TQueryOptions.

(** X14. [QueryBy] reports an error only when the count is positive and
    the detail query fails; [QuerySearch] reports none only when the count
    is positive and the detail query succeeds. An error of the count query
    itself is never reported: [QueryBy] then returns no documents and no
    error, and [QuerySearch] its own error of no documents found. *)
Theorem driver_errors :
  (db.rErr (db.QueryBy st aOptions) <> None
   <-> 0 < db.countRows st (db.byCount aOptions)
       /\ exists err, db.dbQuery st (db.byDetail aOptions) = inl err)
  /\ (db.rErr (db.QuerySearch st clause aOptions) = None
      <-> 0 < db.countRows st (db.searchCount clause aOptions)
          /\ exists rows, db.dbQuery st (db.searchDetail clause aOptions) = inr rows)
  /\ (forall err, db.dbQuery st (db.byCount aOptions) = inl err ->
        db.QueryBy st aOptions = db.mkResult 0 None None [db.byCount aOptions])
  /\ (forall err, db.dbQuery st (db.searchCount clause aOptions) = inl err ->
        db.QuerySearch st clause aOptions
        = db.mkResult 0 None (Some "No documents found") [db.searchCount clause aOptions]).
Proof.
  split; [|split; [|split]].
  - unfold db.QueryBy.
    destruct (Z.ltb_spec 0 (db.countRows st (db.byCount aOptions))) as [Hpos|Hnpos].
    + unfold db.doQueryAll.
      destruct (db.dbQuery st (db.byDetail aOptions)) as [err|rows]; cbn.
      * split; [eauto|discriminate].
      * split; [congruence|intros [_ [err Herr]]; discriminate Herr].
    + cbn. split; [congruence|lia].
  - unfold db.QuerySearch.
    destruct (Z.ltb_spec 0 (db.countRows st (db.searchCount clause aOptions)))
      as [Hpos|Hnpos].
    + unfold db.doQueryAll.
      destruct (db.dbQuery st (db.searchDetail clause aOptions)) as [err|rows]; cbn.
      * split; [discriminate|intros [_ [rows Hrows]]; discriminate Hrows].
      * split; [eauto|reflexivity].
    + cbn. split; [discriminate|lia].
  - intros err Herr. unfold db.QueryBy, db.countRows. rewrite Herr. reflexivity.
  - intros err Herr. unfold db.QuerySearch, db.countRows. rewrite Herr. reflexivity.
Qed.

End DriverErrors.

Lemma driver_errors_witness :
  let st : db.TStore Z unit :=
    db.mkStore Z unit (fun _ => inl "database is locked") (fun row => Some row)
      (fun _ => tt) in
  db.QueryBy st defaultOptions = db.mkResult 0 None None [db.byCount defaultOptions]
  /\ db.rErr (db.QuerySearch st (fun _ => "WHERE 0 ") defaultOptions)
     = Some "No documents found".
Proof.
  intros st.
  pose proof (driver_errors st (fun _ => "WHERE 0 ") defaultOptions) as (_ & _ & Hby & Hs).
  split.
  - apply (Hby "database is locked"). reflexivity.
  - rewrite (Hs "database is locked"); reflexivity.
Defined.
